(** * TestBox firmware (testbox.ino): a shallow embedding and its properties

    The sketch runs on a Wemos D1 mini (ESP8266, an ILP32 target):
    [int], [long], [unsigned long] and [size_t] are all 32 bits wide.
    Unsigned quantities are integers reduced modulo [2^32]; the C++ objects
    become records, the global objects and the Arduino runtime become one
    [World] that every effectful function threads through the [Eff] monad.
    A computation of [Eff] yields [None] exactly where the C++ program would
    have undefined behaviour (an access outside an array). *)

From Stdlib Require Import ZArith String Ascii DecimalString Bool Lia.
From stdpp Require Import base option list strings gmap.

Open Scope Z_scope.

(** ** Machine integers *)

(** [unsigned long] and [size_t] arithmetic. *)
Definition wrap32 (z : Z) : Z := z mod 2 ^ 32.

(** Conversion of an integer to [int]. *)
Definition to_int (z : Z) : Z := (z + 2 ^ 31) mod 2 ^ 32 - 2 ^ 31.

Definition LONG_MAX : Z := 2 ^ 31 - 1.
Definition LONG_MIN : Z := - 2 ^ 31.

(** ** Characters *)

Definition NUL : ascii := "000"%char.
Definition LF : ascii := "010"%char.
Definition CR : ascii := "013"%char.
Definition SP : ascii := " "%char.

(** A C string literal ending in a line feed, as in ["GET SERVO\n"]. *)
Definition line (s : string) : list ascii := list_ascii_of_string s ++ [LF].

(** ** ClampedInt<MIN_V, MAX_V, DEF_V> *)

Record ClampedInt (MIN_V MAX_V DEF_V : Z) : Type := MkClampedInt { val_ : Z }.
Arguments MkClampedInt {MIN_V MAX_V DEF_V} val_.
Arguments val_ {MIN_V MAX_V DEF_V} c.

Module ClampedInt.
Section Template.
Context {MIN_V MAX_V DEF_V : Z}.

Definition clamped (val : Z) : Z :=
  if val >? MAX_V then MAX_V else (if val <? MIN_V then MIN_V else val).

Definition MIN : Z := MIN_V.
Definition MAX : Z := MAX_V.
Definition DEF : Z := DEF_V.

(** [ClampedInt(int val)] *)
Definition make (val : Z) : ClampedInt MIN_V MAX_V DEF_V :=
  MkClampedInt (clamped val).

(** [ClampedInt()] *)
Definition default : ClampedInt MIN_V MAX_V DEF_V :=
  MkClampedInt DEF_V.

Definition get (c : ClampedInt MIN_V MAX_V DEF_V) : Z := val_ c.

(** [set] stores the clamped value and returns it. *)
Definition set (c : ClampedInt MIN_V MAX_V DEF_V) (val : Z)
  : Z * ClampedInt MIN_V MAX_V DEF_V :=
  let v := clamped val in (v, MkClampedInt v).

(** [operator =] *)
Definition assign (c : ClampedInt MIN_V MAX_V DEF_V) (val : Z)
  : Z * ClampedInt MIN_V MAX_V DEF_V :=
  set c val.
End Template.
Arguments clamped MIN_V MAX_V val : clear implicits.
Arguments MIN MIN_V : clear implicits.
Arguments MAX MAX_V : clear implicits.
Arguments DEF DEF_V : clear implicits.
End ClampedInt.

Definition LedValue : Type := ClampedInt 0 1023 0.
Definition ServoValue : Type := ClampedInt 0 180 90.

(** ** Sensor snapshot and the two driver handles *)

(** An IEEE-754 binary32 value, kept as its bit pattern: the sketch stores
    and prints floats and never computes with them. *)
Definition float : Type := Z.
Definition float_zero : float := 0.

Record TempSensorValue : Type := MkTempSensorValue {
  timestamp : Z;
  status : string;
  temperature : float;
  humidity : float
}.

(** [TempSensorValue()] *)
Definition TempSensorValue_default : TempSensorValue :=
  MkTempSensorValue 0 "" float_zero float_zero.

(** What the DHTesp library answers at present: the handle is an external
    collaborator, so its getters are read off this record. *)
Record DHTesp : Type := MkDHTesp {
  getMinimumSamplingPeriod : Z;
  getStatus_is_ERROR_NONE : bool;
  getStatusString : string;
  getTemperature : float;
  getHumidity : float
}.

(** The Servo library handle: the pin it is attached to and the last angle
    written. *)
Record Servo : Type := MkServo {
  servo_attached : option Z;
  servo_written : option Z
}.

(** ** State<DHT_PIN, SERVO_PIN, RED_PIN, YELLOW_PIN, GREEN_PIN> *)

Record State (DHT_PIN_ SERVO_PIN_ RED_PIN_ YELLOW_PIN_ GREEN_PIN_ : Z) : Type :=
  MkState {
    dht_ : DHTesp;
    servo_ : Servo;
    red : LedValue;
    yellow : LedValue;
    green : LedValue;
    servo : ServoValue;
    sensor : TempSensorValue
  }.
Arguments MkState {_ _ _ _ _} _ _ _ _ _ _ _.
Arguments dht_ {_ _ _ _ _} _.
Arguments servo_ {_ _ _ _ _} _.
Arguments red {_ _ _ _ _} _.
Arguments yellow {_ _ _ _ _} _.
Arguments green {_ _ _ _ _} _.
Arguments servo {_ _ _ _ _} _.
Arguments sensor {_ _ _ _ _} _.

(** GPIO numbers of the D1 mini pins used by the sketch. *)
Definition D3 : Z := 0.
Definition D4 : Z := 2.
Definition D5 : Z := 14.
Definition D6 : Z := 12.
Definition D7 : Z := 13.

Definition TestBoxState : Type := State D4 D5 D3 D7 D6.

(** ** SelfTester *)

Record Target : Type := MkTarget {
  target_red : Z;
  target_yellow : Z;
  target_green : Z;
  target_servo : Z;
  wait_ms : Z
}.

Record SelfTester : Type := MkSelfTester {
  targets_ : list Target;
  active_ : bool;
  step_ : Z;
  next_step_timestamp_ : Z
}.

(** ** Request *)

Inductive Status : Type := STATUS_OK | STATUS_BAD_SYNTAX.

Inductive Verb : Type :=
  VERB_EMPTY | VERB_INVALID | VERB_ID | VERB_GET | VERB_SET.

Inductive Noun : Type :=
  | NOUN_EMPTY | NOUN_INVALID | NOUN_RED_LED | NOUN_YELLOW_LED
  | NOUN_GREEN_LED | NOUN_SERVO | NOUN_TEMP_AND_HUM | NOUN_SELF_TEST.

Inductive Value : Type := VALUE_EMPTY | VALUE_INVALID | VALUE_OK.

Record Request : Type := MkRequest {
  req_status : Status;
  verb : Verb;
  noun : Noun;
  value : Value;
  value_int : Z
}.

(** [Request()] *)
Definition Request_default : Request :=
  MkRequest STATUS_OK VERB_EMPTY NOUN_EMPTY VALUE_EMPTY 0.

#[global] Instance Status_eq_dec : EqDecision Status.
Proof. solve_decision. Defined.
#[global] Instance Verb_eq_dec : EqDecision Verb.
Proof. solve_decision. Defined.
#[global] Instance Noun_eq_dec : EqDecision Noun.
Proof. solve_decision. Defined.
#[global] Instance Value_eq_dec : EqDecision Value.
Proof. solve_decision. Defined.

(** ** RequestParser<MAX_LEN> *)

Record RequestParser (MAX_LEN : Z) : Type := MkRequestParser {
  buffer_ : list ascii;
  bufferp_ : Z;
  pending_request_ : bool
}.
Arguments MkRequestParser {MAX_LEN} _ _ _.
Arguments buffer_ {MAX_LEN} _.
Arguments bufferp_ {MAX_LEN} _.
Arguments pending_request_ {MAX_LEN} _.

Definition Parser : Type := RequestParser 256.

(** ** C library functions used by the parser

    A [char *] text is the list of its characters; a [std::string] is a
    [string].  The text of a pending line is the C string at the start of
    [buffer_]: the characters before the first NUL.  Reading it from an
    array that holds no NUL would run past the array. *)

Fixpoint c_str (buf : list ascii) : option (list ascii) :=
  match buf with
  | [] => None
  | c :: buf' =>
      if Ascii.eqb c NUL then Some [] else cons c <$> c_str buf'
  end.

(** An array store; [None] when the index is outside the array. *)
Definition array_store (buf : list ascii) (i : Z) (c : ascii) : option (list ascii) :=
  if bool_decide (0 <= i < Z.of_nat (length buf))
  then Some (<[Z.to_nat i := c]> buf)
  else None.

(** [strtok]: the leading delimiters are skipped ... *)
Fixpoint skip_delims (delims : list ascii) (s : list ascii) : list ascii :=
  match s with
  | [] => []
  | c :: s' =>
      if bool_decide (c ∈ delims) then skip_delims delims s' else s
  end.

(** ... and the token runs up to the next delimiter, which [strtok]
    overwrites with NUL; the search resumes behind it.  [None] for the rest
    means that the token ran up to the end of the string. *)
Fixpoint split_token (delims : list ascii) (s : list ascii)
  : list ascii * option (list ascii) :=
  match s with
  | [] => ([], None)
  | c :: s' =>
      if bool_decide (c ∈ delims) then ([], Some s')
      else let '(tok, rest) := split_token delims s' in (c :: tok, rest)
  end.

(** [strtok delims s] is the pair of the token found ([None] for a NULL
    result) and the text at the saved pointer, from which the following call
    [strtok(NULL, ...)] resumes. *)
Definition strtok (delims : list ascii) (s : list ascii)
  : option (list ascii) * list ascii :=
  match skip_delims delims s with
  | [] => (None, [])
  | c :: s' =>
      let '(tok, rest) := split_token delims (c :: s') in
      (Some tok, default [] rest)
  end.

Definition isspace (c : ascii) : bool :=
  bool_decide (c ∈ [SP; "009"%char; LF; "011"%char; "012"%char; CR]).

Definition digit_value (c : ascii) : option Z :=
  let n := Z.of_N (N_of_ascii c) in
  if (48 <=? n) && (n <=? 57) then Some (n - 48) else None.

Fixpoint skip_spaces (s : list ascii) : list ascii * nat :=
  match s with
  | [] => ([], O)
  | c :: s' =>
      if isspace c then let '(r, n) := skip_spaces s' in (r, S n) else (s, O)
  end.

Fixpoint read_digits (acc : Z) (s : list ascii) : Z * nat :=
  match s with
  | [] => (acc, O)
  | c :: s' =>
      match digit_value c with
      | Some d => let '(v, n) := read_digits (10 * acc + d) s' in (v, S n)
      | None => (acc, O)
      end
  end.

Definition saturate_long (z : Z) : Z :=
  if z >? LONG_MAX then LONG_MAX else if z <? LONG_MIN then LONG_MIN else z.

(** [strtol(s, &end, 10)]: the value and the number of characters between
    [s] and [end]; no digits means value [0] and [end == s]. *)
Definition strtol (s : list ascii) : Z * nat :=
  let '(s1, nspace) := skip_spaces s in
  let '(negative, s2, nsign) :=
    match s1 with
    | "-"%char :: r => (true, r, 1%nat)
    | "+"%char :: r => (false, r, 1%nat)
    | _ => (false, s1, O)
    end in
  let '(v, ndigits) := read_digits 0 s2 in
  match ndigits with
  | O => (0, O)
  | S _ => (saturate_long (if negative then - v else v),
            (nspace + nsign + ndigits)%nat)
  end.

(** The keyword tables of [parse_into].  The source stores the enumerators
    as [int] and casts them back. *)
Definition VERB_MAP : gmap string Verb :=
  {[ "ID"%string := VERB_ID; "GET"%string := VERB_GET; "SET"%string := VERB_SET ]}.

Definition NOUN_MAP : gmap string Noun :=
  {[ "RED_LED"%string := NOUN_RED_LED;
     "YELLOW_LED"%string := NOUN_YELLOW_LED;
     "GREEN_LED"%string := NOUN_GREEN_LED;
     "SERVO"%string := NOUN_SERVO;
     "TEMP_AND_HUM"%string := NOUN_TEMP_AND_HUM;
     "SELF_TEST"%string := NOUN_SELF_TEST ]}.

(** ** The Arduino runtime and the global objects *)

(** One call of [Serial.print] or [Serial.println], by overload. *)
Inductive Printable : Type :=
  | PStr (s : string)
  | PInt (n : Z)
  | PFloat (f : float).

Inductive Event : Type :=
  | Print (v : Printable)
  | Println (v : Printable).

(** The globals [state], [self_tester], [parser], the function-static
    [request] of [loop], and what the runtime holds: the readings that the
    successive calls of [millis()] return, the bytes waiting in the serial
    receive queue and the duty cycle written to each PWM pin. *)
Record World : Type := MkWorld {
  state : TestBoxState;
  self_tester : SelfTester;
  parser : Parser;
  request : Request;
  millis_source : nat -> Z;
  millis_calls : nat;
  serial_rx : list ascii;
  pwm : gmap Z Z
}.

(** Computations over the world which log their serial output and fail on
    undefined behaviour. *)
Definition Eff (A : Type) : Type := World -> option (A * World * list Event).

Definition ret {A : Type} (a : A) : Eff A := fun w => Some (a, w, []).

Definition bind {A B : Type} (m : Eff A) (k : A -> Eff B) : Eff B :=
  fun w =>
    match m w with
    | None => None
    | Some (a, w1, out1) =>
        match k a w1 with
        | None => None
        | Some (b, w2, out2) => Some (b, w2, out1 ++ out2)
        end
    end.

Definition undefined_behaviour {A : Type} : Eff A := fun _ => None.

(** The notations [x ← m; k] and [m;; k] of stdpp, at [Eff]. *)
#[global] Instance Eff_ret : MRet Eff := @ret.
#[global] Instance Eff_bind : MBind Eff := fun A B k m => bind m k.

Definition get_world : Eff World := fun w => Some (w, w, []).

Definition set_state (s : TestBoxState) : Eff unit := fun w =>
  Some (tt, MkWorld s (self_tester w) (parser w) (request w)
              (millis_source w) (millis_calls w) (serial_rx w) (pwm w), []).

Definition set_self_tester (t : SelfTester) : Eff unit := fun w =>
  Some (tt, MkWorld (state w) t (parser w) (request w)
              (millis_source w) (millis_calls w) (serial_rx w) (pwm w), []).

Definition set_parser (p : Parser) : Eff unit := fun w =>
  Some (tt, MkWorld (state w) (self_tester w) p (request w)
              (millis_source w) (millis_calls w) (serial_rx w) (pwm w), []).

Definition set_request (r : Request) : Eff unit := fun w =>
  Some (tt, MkWorld (state w) (self_tester w) (parser w) r
              (millis_source w) (millis_calls w) (serial_rx w) (pwm w), []).

Definition set_serial_rx (rx : list ascii) : Eff unit := fun w =>
  Some (tt, MkWorld (state w) (self_tester w) (parser w) (request w)
              (millis_source w) (millis_calls w) rx (pwm w), []).

(** [millis()]: the next reading, as an [unsigned long]. *)
Definition millis : Eff Z := fun w =>
  Some (wrap32 (millis_source w (millis_calls w)),
        MkWorld (state w) (self_tester w) (parser w) (request w)
          (millis_source w) (S (millis_calls w)) (serial_rx w) (pwm w), []).

Definition analogWrite (pin : Z) (v : Z) : Eff unit := fun w =>
  Some (tt, MkWorld (state w) (self_tester w) (parser w) (request w)
              (millis_source w) (millis_calls w) (serial_rx w)
              (<[pin := v]> (pwm w)), []).

Definition Serial_print (v : Printable) : Eff unit := fun w =>
  Some (tt, w, [Print v]).

Definition Serial_println (v : Printable) : Eff unit := fun w =>
  Some (tt, w, [Println v]).

(** The bytes that the serial line carries for a log of calls; [println]
    ends its text with CR LF.  The formatting of floats is left to the
    caller. *)
Definition print_int (n : Z) : string := NilZero.string_of_int (Z.to_int n).

Definition render_value (fmt : float -> string) (v : Printable) : string :=
  match v with
  | PStr s => s
  | PInt n => print_int n
  | PFloat f => fmt f
  end.

Fixpoint render (fmt : float -> string) (out : list Event) : string :=
  match out with
  | [] => EmptyString
  | Print v :: out' => (render_value fmt v ++ render fmt out')%string
  | Println v :: out' =>
      (render_value fmt v ++ String CR (String LF (render fmt out')))%string
  end.

(** The board name that the build passes as [ARDUINO_BOARD]. *)
Definition ARDUINO_BOARD : string := "ESP8266_WEMOS_D1MINI".

(** ** The methods of State, at the global [state] *)

Module State.
Definition DHT_PIN : Z := D4.
Definition SERVO_PIN : Z := D5.
Definition RED_PIN : Z := D3.
Definition YELLOW_PIN : Z := D7.
Definition GREEN_PIN : Z := D6.

(** [dht_.setup] and [pinMode] configure the hardware and leave nothing
    that the sketch reads back; [servo_.attach] records the pin. *)
Definition setup : Eff unit :=
  w ← get_world;
  let s := state w in
  set_state (MkState (dht_ s) (MkServo (Some SERVO_PIN) (servo_written (servo_ s)))
               (red s) (yellow s) (green s) (servo s) (sensor s)).

Definition write : Eff unit :=
  w ← get_world;
  let s := state w in
  analogWrite RED_PIN (ClampedInt.get (red s));;
  analogWrite YELLOW_PIN (ClampedInt.get (yellow s));;
  analogWrite GREEN_PIN (ClampedInt.get (green s));;
  set_state (MkState (dht_ s)
               (MkServo (servo_attached (servo_ s)) (Some (ClampedInt.get (servo s))))
               (red s) (yellow s) (green s) (servo s) (sensor s)).

Definition read : Eff unit :=
  now ← millis;
  w ← get_world;
  let s := state w in
  (* Skip reading if not enough time has passed *)
  if wrap32 (now - timestamp (sensor s)) <? wrap32 (getMinimumSamplingPeriod (dht_ s))
  then mret tt
  else
    let ok := getStatus_is_ERROR_NONE (dht_ s) in
    set_state (MkState (dht_ s) (servo_ s) (red s) (yellow s) (green s) (servo s)
                 (MkTempSensorValue now (getStatusString (dht_ s))
                    (if ok then getTemperature (dht_ s) else float_zero)
                    (if ok then getHumidity (dht_ s) else float_zero))).

(** The four assignments [state.red = ...] and the like. *)
Definition assign_red (val : Z) : Eff unit :=
  w ← get_world;
  let s := state w in
  set_state (MkState (dht_ s) (servo_ s) (ClampedInt.assign (red s) val).2
               (yellow s) (green s) (servo s) (sensor s)).

Definition assign_yellow (val : Z) : Eff unit :=
  w ← get_world;
  let s := state w in
  set_state (MkState (dht_ s) (servo_ s) (red s)
               (ClampedInt.assign (yellow s) val).2 (green s) (servo s) (sensor s)).

Definition assign_green (val : Z) : Eff unit :=
  w ← get_world;
  let s := state w in
  set_state (MkState (dht_ s) (servo_ s) (red s) (yellow s)
               (ClampedInt.assign (green s) val).2 (servo s) (sensor s)).

Definition assign_servo (val : Z) : Eff unit :=
  w ← get_world;
  let s := state w in
  set_state (MkState (dht_ s) (servo_ s) (red s) (yellow s) (green s)
               (ClampedInt.assign (servo s) val).2 (sensor s)).
End State.

(** ** The methods of SelfTester, at the global [self_tester] *)

Module SelfTester.
(** [SelfTester(targets)] *)
Definition make (targets : list Target) : SelfTester :=
  MkSelfTester targets false 0 0.

Definition size (t : SelfTester) : Z := Z.of_nat (length (targets_ t)).

Definition is_active (t : SelfTester) : bool := active_ t.

Definition progress (t : SelfTester) : Z :=
  if negb (active_ t) || (size t =? 0) then 0
  else to_int (wrap32 (100 * step_ t) / size t).

Definition start : Eff unit :=
  w ← get_world;
  let t := self_tester w in
  if active_ t then mret tt
  else
    now ← millis;
    set_self_tester (MkSelfTester (targets_ t) true 0 now).

Definition stop : Eff unit :=
  w ← get_world;
  let t := self_tester w in
  if negb (active_ t) then mret tt
  else set_self_tester
         (MkSelfTester (targets_ t) false (step_ t) (next_step_timestamp_ t)).

Definition step : Eff bool :=
  w ← get_world;
  let t := self_tester w in
  (* Don't do anything if not self testing *)
  if negb (active_ t) then mret false
  else
    (* Check if we are done *)
    if step_ t >=? size t then stop;; mret false
    else
      now ← millis;
      (* Don't do anything if it is not time yet *)
      if now <? next_step_timestamp_ t then mret false
      else
        let overshoot := wrap32 (next_step_timestamp_ t - now) in
        (* Apply current state *)
        match targets_ t !! Z.to_nat (step_ t) with
        | None => undefined_behaviour
        | Some target =>
            State.assign_red (target_red target);;
            State.assign_yellow (target_yellow target);;
            State.assign_green (target_green target);;
            State.assign_servo (target_servo target);;
            State.write;;
            (* Schedule next step *)
            set_self_tester
              (MkSelfTester (targets_ t) (active_ t)
                 (wrap32 (step_ t + 1))
                 (wrap32 (now + wrap32 (wait_ms target) - overshoot)));;
            mret true
        end.
End SelfTester.

(** ** The methods of RequestParser *)

Module RequestParser.
Section Template.
Context {MAX_LEN : Z}.

(** [RequestParser()] initialises the cursor and the flag; the array
    keeps whatever its storage held. *)
Definition make (storage : list ascii) : RequestParser MAX_LEN :=
  MkRequestParser storage 0 false.

Definition pending (p : RequestParser MAX_LEN) : bool :=
  pending_request_ p.

Definition available (p : RequestParser MAX_LEN) : bool :=
  negb (pending p) && (bufferp_ p <? wrap32 (MAX_LEN - 1)).

Definition push (p : RequestParser MAX_LEN) (c : ascii)
  : option (RequestParser MAX_LEN) :=
  if available p then
    buf1 ← array_store (buffer_ p) (bufferp_ p) c;
    let bufferp1 := wrap32 (bufferp_ p + 1) in
    if Ascii.eqb c LF || (bufferp1 =? wrap32 (MAX_LEN - 1)) then
      buf2 ← array_store buf1 bufferp1 NUL;
      Some (MkRequestParser buf2 0 true)
    else
      Some (MkRequestParser buf1 bufferp1 (pending_request_ p))
  else Some p.
End Template.

Definition set_verb (v : Verb) (r : Request) : Request :=
  MkRequest (req_status r) v (noun r) (value r) (value_int r).
Definition set_noun (n : Noun) (r : Request) : Request :=
  MkRequest (req_status r) (verb r) n (value r) (value_int r).
Definition set_value (v : Value) (r : Request) : Request :=
  MkRequest (req_status r) (verb r) (noun r) v (value_int r).
Definition set_value_int (n : Z) (r : Request) : Request :=
  MkRequest (req_status r) (verb r) (noun r) (value r) n.

(** The body of [parse_into] from the first [strtok] on, over the text
    of the pending line.  [strtok] cuts the tokens out of [buffer_] in
    place; the array is written again from its start, and terminated,
    before it is read again, so only the text is followed here. *)
Definition parse_text (text : list ascii) (request : Request) : Eff (bool * Request) :=
  let '(pch, saved) := strtok [SP; LF] text in
  (* Parse VERB *)
  match pch with
  | None => mret (true, set_verb VERB_EMPTY request)
  | Some tok =>
  match VERB_MAP !! string_of_list_ascii tok with
  | None => mret (true, set_verb VERB_INVALID request)
  | Some v =>
  let request := set_verb v request in
  (* Parse NOUN *)
  let '(pch, saved) := strtok [SP; CR; LF] saved in
  match pch with
  | None => mret (true, set_noun NOUN_EMPTY request)
  | Some tok =>
  match NOUN_MAP !! string_of_list_ascii tok with
  | None =>
      Serial_print (PStr "Failed to find noun [");;
      Serial_print (PStr (string_of_list_ascii tok));;
      Serial_println (PStr "]");;
      mret (true, set_noun NOUN_INVALID request)
  | Some n =>
  let request := set_noun n request in
  (* Parse VALUE *)
  let '(pch, saved) := strtok [SP; CR; LF] saved in
  match pch with
  | None => mret (true, set_value VALUE_EMPTY request)
  | Some tok =>
  let '(val, consumed) := strtol tok in
  let request := set_value_int val request in
  match consumed with
  | O => mret (true, set_value VALUE_INVALID request)
  | S _ =>
  let request := set_value VALUE_OK request in
  (* Remaining tokens *)
  let '(pch, saved) := strtok [CR; LF] saved in
  match pch with
  | Some _ => mret (true, set_value VALUE_EMPTY request)
  | None => mret (true, request)
  end end end end end end end.

(** [parse_into], at the global [parser]; the request is passed by
    reference, so it is returned next to the result. *)
Definition parse_into (request : Request) : Eff (bool * Request) :=
  w ← get_world;
  let p := parser w in
  if negb (pending p) then mret (false, request)
  else
    set_parser (MkRequestParser (buffer_ p) (bufferp_ p) false);;
    match c_str (buffer_ p) with
    | None => undefined_behaviour
    | Some text => parse_text text request
    end.
End RequestParser.

Definition Parser_static : Parser := RequestParser.make (replicate 256 NUL).

(** ** The globals *)

Definition self_tester_targets : list Target :=
  let red_DEF := ClampedInt.DEF 0 in
  let red_MIN := ClampedInt.MIN 0 in
  let red_MAX := ClampedInt.MAX 1023 in
  let servo_DEF := ClampedInt.DEF 90 in
  let servo_MIN := ClampedInt.MIN 0 in
  let servo_MAX := ClampedInt.MAX 180 in
  [ MkTarget red_DEF red_DEF red_DEF servo_DEF 500;
    MkTarget red_MAX red_MIN red_MIN servo_MIN 500;
    MkTarget red_MIN red_MAX red_MIN servo_DEF 500;
    MkTarget red_MIN red_MIN red_MAX servo_MAX 500;
    MkTarget red_DEF red_DEF red_DEF servo_DEF 500 ].

(** The world before [setup()], for a step list, a DHT driver, a source of
    clock readings: statics are constructed, nothing was received or
    written. *)
Definition boot (targets : list Target) (dht : DHTesp) (clock : nat -> Z) : World :=
  MkWorld
    (MkState dht (MkServo None None)
       ClampedInt.default ClampedInt.default ClampedInt.default
       ClampedInt.default TempSensorValue_default)
    (SelfTester.make targets)
    Parser_static
    Request_default
    clock O [] ∅.

(** [Serial.begin] opens the port and leaves nothing that the sketch reads
    back. *)
Definition setup : Eff unit :=
  State.setup;;
  SelfTester.start.

Definition print_self_test : Eff unit :=
  w ← get_world;
  Serial_print (PStr "OK ");;
  Serial_print (PStr (if SelfTester.is_active (self_tester w)
                      then "ACTIVE" else "INACTIVE"));;
  Serial_print (PStr " ");;
  Serial_println (PInt (SelfTester.progress (self_tester w))).

Definition handle_request (r : Request) : Eff unit :=
  if bool_decide (req_status r = STATUS_BAD_SYNTAX) then
    Serial_println (PStr "ERR BAD_SYNTAX")
  else if bool_decide (verb r = VERB_EMPTY) || bool_decide (verb r = VERB_INVALID) then
    Serial_println (PStr "ERR BAD_VERB")
  else
    match verb r with
    | VERB_ID =>
        if bool_decide (noun r ≠ NOUN_EMPTY) then
          Serial_println (PStr "ERR BAD_NOUN")
        else
          Serial_print (PStr "OK ");;
          Serial_println (PStr ARDUINO_BOARD)
    | VERB_GET =>
        if bool_decide (value r ≠ VALUE_EMPTY) then
          Serial_println (PStr "ERR BAD_VALUE")
        else
          match noun r with
          | NOUN_RED_LED =>
              Serial_print (PStr "OK ");;
              w ← get_world;
              Serial_println (PInt (ClampedInt.get (red (state w))))
          | NOUN_YELLOW_LED =>
              Serial_print (PStr "OK ");;
              w ← get_world;
              Serial_println (PInt (ClampedInt.get (yellow (state w))))
          | NOUN_GREEN_LED =>
              Serial_print (PStr "OK ");;
              w ← get_world;
              Serial_println (PInt (ClampedInt.get (green (state w))))
          | NOUN_SERVO =>
              Serial_print (PStr "OK ");;
              w ← get_world;
              Serial_println (PInt (ClampedInt.get (servo (state w))))
          | NOUN_TEMP_AND_HUM =>
              w ← get_world;
              Serial_print (PStr "OK ");;
              Serial_print (PStr (status (sensor (state w))));;
              Serial_print (PStr " ");;
              Serial_print (PFloat (temperature (sensor (state w))));;
              Serial_print (PStr " ");;
              Serial_println (PFloat (humidity (sensor (state w))))
          | NOUN_SELF_TEST => print_self_test
          | _ => Serial_println (PStr "ERR BAD_NOUN")
          end
    | VERB_SET =>
        if bool_decide (value r ≠ VALUE_OK) then
          Serial_println (PStr "ERR BAD_VALUE")
        else
          match noun r with
          | NOUN_RED_LED =>
              State.assign_red (value_int r);;
              State.write;;
              Serial_print (PStr "OK ");;
              w ← get_world;
              Serial_println (PInt (ClampedInt.get (red (state w))))
          | NOUN_YELLOW_LED =>
              State.assign_yellow (value_int r);;
              State.write;;
              Serial_print (PStr "OK ");;
              w ← get_world;
              Serial_println (PInt (ClampedInt.get (yellow (state w))))
          | NOUN_GREEN_LED =>
              State.assign_green (value_int r);;
              State.write;;
              Serial_print (PStr "OK ");;
              w ← get_world;
              Serial_println (PInt (ClampedInt.get (green (state w))))
          | NOUN_SERVO =>
              State.assign_servo (value_int r);;
              State.write;;
              Serial_print (PStr "OK ");;
              w ← get_world;
              Serial_println (PInt (ClampedInt.get (servo (state w))))
          | NOUN_SELF_TEST =>
              if (value_int r <? 0) || (value_int r >? 1) then
                Serial_println (PStr "ERR BAD_VALUE")
              else
                (if negb (value_int r =? 0) then SelfTester.start
                 else SelfTester.stop);;
                print_self_test
          | _ => Serial_println (PStr "ERR BAD_NOUN")
          end
    | _ => Serial_println (PStr "ERR BAD_VERB")
    end.

(** [while (Serial.available() && parser.available()) parser.push(Serial.read());]
    over the receive queue. *)
Fixpoint drain (rx : list ascii) (p : Parser) : option (list ascii * Parser) :=
  match rx with
  | [] => Some ([], p)
  | c :: rx' =>
      if RequestParser.available p then
        p' ← RequestParser.push p c;
        drain rx' p'
      else Some (rx, p)
  end.

(** [loop()].  The closing [delay] only waits. *)
Definition loop : Eff unit :=
  loop_start ← millis;
  SelfTester.step;;
  State.read;;
  w ← get_world;
  match drain (serial_rx w) (parser w) with
  | None => undefined_behaviour
  | Some (rx, p) =>
      set_serial_rx rx;;
      set_parser p;;
      w ← get_world;
      bind (RequestParser.parse_into (request w)) (fun '(parsed, r) =>
      set_request r;;
      (if parsed then handle_request r else ret tt);;
      loop_end ← millis;
      mret tt)
  end.

(** What happens around the sketch between two iterations: bytes arrive on
    the serial line and the DHT driver may answer differently. *)
Record Arrival : Type := MkArrival {
  arrived : list ascii;
  dht_now : DHTesp
}.

Definition environment (a : Arrival) : Eff unit :=
  w ← get_world;
  let s := state w in
  set_serial_rx (serial_rx w ++ arrived a);;
  set_state (MkState (dht_now a) (servo_ s) (red s) (yellow s) (green s)
               (servo s) (sensor s)).

Definition tick (a : Arrival) : Eff unit :=
  environment a;; loop.

Fixpoint ticks (l : list Arrival) : Eff unit :=
  match l with
  | [] => mret tt
  | a :: l' => tick a;; ticks l'
  end.

(** The sketch from power-up: [setup()] once, then [loop()] for ever. *)
Definition run (l : list Arrival) : Eff unit :=
  setup;; ticks l.

(** * Properties *)

(** ** Vocabulary *)

(** Fixtures for the closed examples: a DHT driver that answers, a clock
    that advances half a second between two readings, and the world at
    power-up with the step list of the sketch. *)
Definition dht_ok : DHTesp := MkDHTesp 2000 true "OK" 0 0.
Definition arrival (s : string) : Arrival := MkArrival (line s) dht_ok.
Definition quiet : Arrival := MkArrival [] dht_ok.
Definition clock_500 (n : nat) : Z := 500 * Z.of_nat n.
Definition power_up : World := boot self_tester_targets dht_ok clock_500.

(** A self test that is stopped, started again, and queried in the
    iteration that executes its last step. *)
Definition restarted_self_test : list Arrival :=
  [arrival "SET SELF_TEST 0"; arrival "SET SELF_TEST 1";
   quiet; quiet; quiet; quiet; arrival "GET SELF_TEST"].

(** The serial log of a computation, and the bytes it puts on the line
    (no float is printed in the examples). *)
Definition log_of {A : Type} (m : Eff A) (w : World) : option (list Event) :=
  match m w with
  | Some (_, _, out) => Some out
  | None => None
  end.

Definition bytes_of {A : Type} (m : Eff A) (w : World) : option string :=
  render (fun _ => EmptyString) <$> log_of m w.

Definition crlf (s : string) : string := (s ++ String CR (String LF ""))%string.

(** [m] started in a world that satisfies [P] is defined, and its result,
    final world and log satisfy [Q]. *)
Definition hoare {A : Type} (P : World -> Prop) (m : Eff A)
    (Q : A -> World -> list Event -> Prop) : Prop :=
  forall w, P w -> exists a w' out, m w = Some (a, w', out) /\ Q a w' out.

(** The parser object is well formed: the array has its declared size,
    the cursor is not negative, and a pending line is terminated. *)
Definition parser_ok {MAX_LEN : Z} (p : RequestParser MAX_LEN) : Prop :=
  Z.of_nat (length (buffer_ p)) = MAX_LEN /\
  0 <= bufferp_ p /\
  (pending_request_ p = true -> is_Some (c_str (buffer_ p))).

(** The sequencer still holds the step list it was built with, and its
    cursor is within the list or just behind it. *)
Definition tester_ok (targets : list Target) (t : SelfTester) : Prop :=
  targets_ t = targets /\
  0 <= step_ t <= Z.of_nat (length targets).

Definition world_ok (targets : list Target) (w : World) : Prop :=
  parser_ok (parser w) /\
  tester_ok targets (self_tester w) /\
  req_status (request w) = STATUS_OK.

(** A sequencer whose first deadline, 100, is met five milliseconds late. *)
Definition late_world : World :=
  MkWorld (state power_up) (MkSelfTester self_tester_targets true 0 100)
    Parser_static Request_default (fun _ => 105) O [] ∅.

(** A sequence of calls of [push], one per byte. *)
Fixpoint pushes {MAX_LEN : Z} (p : RequestParser MAX_LEN) (l : list ascii)
  : option (RequestParser MAX_LEN) :=
  match l with
  | [] => Some p
  | c :: l' => p' ← RequestParser.push p c; pushes p' l'
  end.

(** The line that [parse_into] is about to consume, and the world once it
    has cleared the pending flag.  As in [parse_text], the NULs that
    [strtok] writes over the delimiters are not followed: the array of
    [consumed w] stands for the array up to those bytes, which [push]
    writes again before anything reads them. *)
Definition pending_text (w : World) (text : list ascii) : Prop :=
  pending_request_ (parser w) = true /\
  c_str (buffer_ (parser w)) = Some text.

Definition consumed (w : World) : World :=
  MkWorld (state w) (self_tester w)
    (MkRequestParser (buffer_ (parser w)) (bufferp_ (parser w)) false)
    (request w) (millis_source w) (millis_calls w) (serial_rx w) (pwm w).

(** The start of a line up to its third token: blanks, a verb keyword,
    blanks, a noun keyword, blanks.  The verb ends at a space or a line
    feed; between the later tokens a carriage return separates as well. *)
Inductive command_prefix : list ascii -> Verb -> Noun -> Prop :=
  | command_prefix_intro lead v c1 sep1 n c2 sep2 vb nn :
      Forall (fun c => c ∈ [SP; LF]) lead ->
      VERB_MAP !! v = Some vb ->
      c1 ∈ [SP; LF] ->
      Forall (fun c => c ∈ [SP; CR; LF]) sep1 ->
      NOUN_MAP !! n = Some nn ->
      c2 ∈ [SP; CR; LF] ->
      Forall (fun c => c ∈ [SP; CR; LF]) sep2 ->
      command_prefix
        (lead ++ list_ascii_of_string v ++ c1 :: sep1
              ++ list_ascii_of_string n ++ c2 :: sep2) vb nn.

(** Decimal digits and the number they denote. *)
Definition digit_char (d : Z) : ascii := ascii_of_N (Z.to_N (48 + d)).

Definition decimal (ds : list Z) : Z :=
  fold_left (fun acc d => 10 * acc + d) ds 0.

Definition starts_with (P : ascii -> Prop) (s : list ascii) : Prop :=
  match s with
  | [] => False
  | c :: _ => P c
  end.

(** A token read as blanks (tab, vertical tab, form feed), a sign, decimal
    digits, and what is left; the split is the one [strtol] makes: what is
    left does not go on with a digit, nor with a blank or a sign when
    neither sign nor digit was found. *)
Record number_token (blanks sign : list ascii) (ds : list Z) (junk : list ascii)
  : Prop := MkNumberToken {
  token_blanks : Forall (fun c => isspace c = true) blanks;
  token_sign : sign = [] \/ sign = ["-"%char] \/ sign = ["+"%char];
  token_digits : Forall (fun d => 0 <= d <= 9) ds;
  token_junk : ~ starts_with (fun c => is_Some (digit_value c)) junk;
  token_junk_bare :
    sign = [] -> ds = [] ->
    ~ starts_with (fun c => isspace c = true \/ c = "-"%char \/ c = "+"%char) junk;
  token_nonempty : blanks ++ sign ++ map digit_char ds ++ junk <> [];
  token_no_delimiter :
    Forall (fun c => c ∉ [SP; CR; LF]) (blanks ++ sign ++ map digit_char ds ++ junk)
}.

(** The value [strtol] returns for such a token. *)
Definition leading_number (sign : list ascii) (ds : list Z) : Z :=
  match ds with
  | [] => 0
  | _ :: _ =>
      saturate_long (if bool_decide (sign = ["-"%char]) then - decimal ds
                     else decimal ds)
  end.

(** What follows the third token: nothing, or a separator and the rest. *)
Definition line_tail (tail : list ascii) : Prop :=
  tail = [] \/ starts_with (fun c => c ∈ [SP; CR; LF]) tail.

(** Text other than line ends behind the separator. *)
Definition trailing_text (tail : list ascii) : bool :=
  negb (forallb (fun c => bool_decide (c ∈ [CR; LF])) (drop 1 tail)).

(** A further token in the rest of the line. *)
Definition has_token (rest : list ascii) : Prop :=
  exists c, c ∈ rest /\ c ∉ [SP; CR; LF].

(** What a call of [step] returns and the cursor and deadline it leaves. *)
Definition step_outcome (w : World) : option (bool * Z * Z) :=
  (fun '(taken, w', _) =>
     (taken, step_ (self_tester w'), next_step_timestamp_ (self_tester w')))
  <$> SelfTester.step w.

(** The world at power-up once the bytes of a line have been pushed into
    the parser, and what [parse_into] then returns for a request. *)
Definition received (s : string) : World :=
  MkWorld (state power_up) (self_tester power_up)
    (default Parser_static (pushes Parser_static (line s)))
    Request_default clock_500 O [] ∅.

Definition parsed (r0 : Request) (w : World) : option (bool * Request) :=
  (fun '(res, _, _) => res) <$> RequestParser.parse_into r0 w.

(** The request that [SET RED_LED 5] leaves in the static of [loop]. *)
Definition request_after_set : Request :=
  MkRequest STATUS_OK VERB_SET NOUN_RED_LED VALUE_OK 5.

(** The answer to a SELF_TEST request, as the calls that print it. *)
Definition self_test_report (active : bool) (progress : Z) : list Event :=
  [Print (PStr "OK ");
   Print (PStr (if active then "ACTIVE" else "INACTIVE"));
   Print (PStr " ");
   Println (PInt progress)].

(** The lines of a serial log: each ends with its [println]. *)
Fixpoint lines_of (out : list Event) : list (list Event) :=
  match out with
  | [] => []
  | Println v :: out' => [Println v] :: lines_of out'
  | Print v :: out' =>
      match lines_of out' with
      | [] => [[Print v]]
      | l :: ls => (Print v :: l) :: ls
      end
  end.

(** The log does not stop in the middle of a line. *)
Fixpoint complete (out : list Event) : bool :=
  match out with
  | [] => true
  | e :: out' =>
      match out' with
      | [] => match e with Println _ => true | Print _ => false end
      | _ :: _ => complete out'
      end
  end.

(** A line is not the report [OK INACTIVE 100], and a report [OK ACTIVE p]
    shows the progress of an active sequencer that holds the step list and
    whose cursor is within the list or just behind it. *)
Definition sound_line (targets : list Target) (l : list Event) : Prop :=
  l <> self_test_report false 100 /\
  forall p, l = self_test_report true p ->
    exists t, tester_ok targets t /\ active_ t = true /\
              p = SelfTester.progress t.

Definition sound_log (targets : list Target) (out : list Event) : Prop :=
  complete out = true /\
  Forall (sound_line targets) (lines_of out) /\
  Println (PStr "ERR BAD_SYNTAX") ∉ out.

(** A step that keeps the world well formed and prints nothing. *)
Definition silent (targets : list Target) {A : Type} (m : Eff A) : Prop :=
  hoare (world_ok targets) m (fun _ w' out => world_ok targets w' /\ out = []).

(** The sequencer that a computation leaves: its flag and its cursor. *)
Definition tester_after {A : Type} (m : Eff A) (w : World) : option (bool * Z) :=
  (fun '(_, w', _) => (active_ (self_tester w'), step_ (self_tester w'))) <$> m w.

(** ** Vocabulary of the further properties *)

(** The four nouns that name an actuator, the upper bound of each, the
    value the state holds for it and the value last handed to its driver:
    the duty cycle of its PWM pin, or the angle written to the servo. *)
Definition is_actuator (n : Noun) : bool :=
  match n with
  | NOUN_RED_LED | NOUN_YELLOW_LED | NOUN_GREEN_LED | NOUN_SERVO => true
  | _ => false
  end.

Definition actuator_MAX (n : Noun) : Z :=
  match n with
  | NOUN_SERVO => 180
  | _ => 1023
  end.

Definition actuator_value (n : Noun) (s : TestBoxState) : Z :=
  match n with
  | NOUN_RED_LED => ClampedInt.get (red s)
  | NOUN_YELLOW_LED => ClampedInt.get (yellow s)
  | NOUN_GREEN_LED => ClampedInt.get (green s)
  | NOUN_SERVO => ClampedInt.get (servo s)
  | _ => 0
  end.

Definition driven_value (n : Noun) (w : World) : option Z :=
  match n with
  | NOUN_RED_LED => pwm w !! State.RED_PIN
  | NOUN_YELLOW_LED => pwm w !! State.YELLOW_PIN
  | NOUN_GREEN_LED => pwm w !! State.GREEN_PIN
  | NOUN_SERVO => servo_written (servo_ (state w))
  | _ => None
  end.

(** The value a target of the sequencer holds for an actuator. *)
Definition target_value (n : Noun) (t : Target) : Z :=
  match n with
  | NOUN_RED_LED => target_red t
  | NOUN_YELLOW_LED => target_yellow t
  | NOUN_GREEN_LED => target_green t
  | NOUN_SERVO => target_servo t
  | _ => 0
  end.

(** Requests as the dispatcher receives them from a well-formed line. *)
Definition SET_request (n : Noun) (x : Z) : Request :=
  MkRequest STATUS_OK VERB_SET n VALUE_OK x.

Definition GET_request (n : Noun) : Request :=
  MkRequest STATUS_OK VERB_GET n VALUE_EMPTY 0.

(** An error answer: one [println] of a string. *)
Definition is_error (out : list Event) : Prop :=
  exists code, out = [Println (PStr code)].

(** The clock reading that the next call of [millis()] returns. *)
Definition next_millis (w : World) : Z :=
  wrap32 (millis_source w (millis_calls w)).

(** Whether [read] would skip the sensor now. *)
Definition too_early (w : World) : bool :=
  wrap32 (next_millis w - timestamp (sensor (state w)))
  <? wrap32 (getMinimumSamplingPeriod (dht_ (state w))).

(** The state and the PWM duty cycles once a target was applied and
    flushed by [write]. *)
Definition state_with_target (t : Target) (s : TestBoxState) : TestBoxState :=
  MkState (dht_ s)
    (MkServo (servo_attached (servo_ s))
       (Some (ClampedInt.clamped 0 180 (target_servo t))))
    (MkClampedInt (ClampedInt.clamped 0 1023 (target_red t)))
    (MkClampedInt (ClampedInt.clamped 0 1023 (target_yellow t)))
    (MkClampedInt (ClampedInt.clamped 0 1023 (target_green t)))
    (MkClampedInt (ClampedInt.clamped 0 180 (target_servo t)))
    (sensor s).

Definition pwm_with_target (t : Target) (p : gmap Z Z) : gmap Z Z :=
  <[State.GREEN_PIN := ClampedInt.clamped 0 1023 (target_green t)]>
    (<[State.YELLOW_PIN := ClampedInt.clamped 0 1023 (target_yellow t)]>
       (<[State.RED_PIN := ClampedInt.clamped 0 1023 (target_red t)]> p)).

(** What the drivers were handed, against what the state holds: every
    actuator value is within its range; only the three LED pins carry a
    duty cycle, within 0..1023; and either nothing was written yet and the
    state holds its defaults, or every driver holds the value of the
    state. *)
Definition values_ok (s : TestBoxState) : Prop :=
  forall nn, is_actuator nn = true ->
    0 <= actuator_value nn s <= actuator_MAX nn.

Definition pins_ok (p : gmap Z Z) : Prop :=
  forall pin v, p !! pin = Some v ->
    pin ∈ [State.RED_PIN; State.YELLOW_PIN; State.GREEN_PIN] /\ 0 <= v <= 1023.

Definition untouched (w : World) : Prop :=
  pwm w = ∅ /\ servo_written (servo_ (state w)) = None /\
  forall nn, is_actuator nn = true ->
    actuator_value nn (state w) = match nn with NOUN_SERVO => 90 | _ => 0 end.

Definition mirrored (w : World) : Prop :=
  forall nn, is_actuator nn = true ->
    driven_value nn w = Some (actuator_value nn (state w)).

Definition hardware_ok (w : World) : Prop :=
  values_ok (state w) /\ pins_ok (pwm w) /\ (untouched w \/ mirrored w).

(** [m] keeps [I] whenever it is defined. *)
Definition preserves (I : World -> Prop) {A : Type} (m : Eff A) : Prop :=
  forall w a w' out, m w = Some (a, w', out) -> I w -> I w'.

(** What happens to the parser over time: a byte is pushed, or
    [parse_into] takes the pending line and clears the flag (the array is
    kept up to the bytes that [strtok] overwrote, as in [consumed]). *)
Inductive parser_op : Type :=
  | Push (c : ascii)
  | Consume.

Definition consume {MAX_LEN : Z} (p : RequestParser MAX_LEN) : RequestParser MAX_LEN :=
  MkRequestParser (buffer_ p) (bufferp_ p) false.

Fixpoint parser_ops {MAX_LEN : Z} (p : RequestParser MAX_LEN) (ops : list parser_op)
  : option (RequestParser MAX_LEN) :=
  match ops with
  | [] => Some p
  | Push c :: ops' => p' ← RequestParser.push p c; parser_ops p' ops'
  | Consume :: ops' => parser_ops (consume p) ops'
  end.

(** The cursor of a live parser stays below the last slot, and it is at the
    start of the array while a line is pending. *)
Definition cursor_ok {MAX_LEN : Z} (p : RequestParser MAX_LEN) : Prop :=
  parser_ok p /\ bufferp_ p < MAX_LEN - 1 /\
  (pending_request_ p = true -> bufferp_ p = 0).

(** A driver whose last reading timed out, and the world at power-up with
    that driver once two and a half seconds have passed. *)
Definition dht_timeout : DHTesp := MkDHTesp 2000 false "TIMEOUT" 1 1.

Definition sensor_down : World :=
  boot self_tester_targets dht_timeout (fun _ => 2500).

(** The bytes of the line being collected: the array up to the cursor. *)
Definition held (w : World) : list ascii :=
  take (Z.to_nat (bufferp_ (parser w))) (buffer_ (parser w)).

(** The parser holds the bytes [done] of an unfinished line, and [rx]
    waits in the receive queue. *)
Definition collecting (done rx : list ascii) (w : World) : Prop :=
  exists todo,
    parser w = MkRequestParser (done ++ todo) (Z.of_nat (length done)) false /\
    Z.of_nat (length (done ++ todo)) = 256 /\
    serial_rx w = rx.

(** [m], when it is defined from a world in [P], ends in a world in [Q]
    and prints nothing. *)
Definition mute {A : Type} (P : World -> Prop) (m : Eff A) (Q : World -> Prop)
  : Prop :=
  forall w a w' out, m w = Some (a, w', out) -> P w -> Q w' /\ out = [].

(** A line that arrives in two pieces, without its line feed. *)
Definition unfinished_line : list Arrival :=
  [MkArrival (list_ascii_of_string "SET S") dht_ok;
   MkArrival (list_ascii_of_string "ERVO 10") dht_timeout].

(** A property of the world that reads only the parser, the receive queue
    and the request of [loop]. *)
Definition input_frame (C : World -> Prop) : Prop :=
  forall w w',
    parser w' = parser w -> serial_rx w' = serial_rx w ->
    request w' = request w -> C w -> C w'.

(** The world at power-up with two lines in the receive queue. *)
Definition two_lines_queued : World :=
  MkWorld (state power_up) (self_tester power_up) Parser_static Request_default
    clock_500 O (line "GET SERVO" ++ line "ID") ∅.

(** A sequencer whose first deadline, 100, lies fifty milliseconds ahead,
    and one that has executed its last step and whose deadline lies far
    ahead. *)
Definition early_world : World :=
  MkWorld (state power_up) (MkSelfTester self_tester_targets true 0 100)
    Parser_static Request_default (fun _ => 50) O [] ∅.

Definition finished_world : World :=
  MkWorld (state power_up) (MkSelfTester self_tester_targets true 5 1000000)
    Parser_static Request_default (fun _ => 0) O [] ∅.

(** The world once [millis()] has been read, and the world in which [loop]
    dispatches: the parser, the request and the receive queue are the ones
    that draining and [parse_into] left. *)
Definition clock_read (w : World) : World :=
  MkWorld (state w) (self_tester w) (parser w) (request w)
    (millis_source w) (S (millis_calls w)) (serial_rx w) (pwm w).

Definition dispatch_world (w : World) (p : Parser) (r : Request)
    (rx : list ascii) : World :=
  MkWorld (state w) (self_tester w) p r
    (millis_source w) (millis_calls w) rx (pwm w).

(** The answer [OK v]. *)
Definition OK_value (v : Z) : list Event :=
  [Print (PStr "OK "); Println (PInt v)].

(** The world at power-up, its sequencer inactive, with a SET line and a
    GET line in the receive queue. *)
Definition set_get_queued : World :=
  MkWorld (state power_up) (self_tester power_up) Parser_static Request_default
    clock_500 O (line "SET SERVO 200" ++ line "GET SERVO") ∅.

(** ** ClampedInt *)

Lemma clamped_range MIN_V MAX_V x :
  MIN_V <= MAX_V ->
  MIN_V <= ClampedInt.clamped MIN_V MAX_V x <= MAX_V.
Proof.
  intros H. unfold ClampedInt.clamped.
  destruct (Z.gtb_spec x MAX_V); [lia|].
  destruct (Z.ltb_spec x MIN_V); lia.
Qed.

Lemma clamped_cases MIN_V MAX_V x :
  MIN_V <= MAX_V ->
  (MIN_V <= x <= MAX_V -> ClampedInt.clamped MIN_V MAX_V x = x) /\
  (x > MAX_V -> ClampedInt.clamped MIN_V MAX_V x = MAX_V) /\
  (x < MIN_V -> ClampedInt.clamped MIN_V MAX_V x = MIN_V).
Proof.
  intros H. unfold ClampedInt.clamped.
  destruct (Z.gtb_spec x MAX_V), (Z.ltb_spec x MIN_V); repeat split; lia.
Qed.

(** The dispatcher answers a well-formed [SET RED_LED] with the clamped
    value, whatever the world. *)
Lemma handle_set_red (r : Request) (w : World) :
  req_status r = STATUS_OK -> verb r = VERB_SET -> value r = VALUE_OK ->
  noun r = NOUN_RED_LED ->
  exists w', handle_request r w =
    Some (tt, w', [Print (PStr "OK ");
                   Println (PInt (ClampedInt.clamped 0 1023 (value_int r)))]).
Proof.
  destruct r as [st v n vl vi]; simpl; intros -> -> -> ->.
  eexists. reflexivity.
Qed.

(** C7: a ClampedInt built from [x], or assigned [x], holds [x] clamped to
    [MIN_V, MAX_V]: the value lies in the range, is [x] when [x] is in the
    range, [MAX_V] above it and [MIN_V] below it; the default constructor
    yields [DEF_V], which is in the range; and from power-up the three
    requests of the README are answered [OK 1023], [OK 0] and [OK 90]. *)
Theorem C7_clamped_int (MIN_V MAX_V DEF_V : Z) (x : Z) (c : ClampedInt MIN_V MAX_V DEF_V) :
  MIN_V <= DEF_V <= MAX_V ->
  let made : ClampedInt MIN_V MAX_V DEF_V := ClampedInt.make x in
  let fresh : ClampedInt MIN_V MAX_V DEF_V := ClampedInt.default in
  let after := (ClampedInt.set c x).2 in
  (ClampedInt.get made = ClampedInt.get after /\
   (ClampedInt.set c x).1 = ClampedInt.get after /\
   ClampedInt.assign c x = ClampedInt.set c x) /\
  MIN_V <= ClampedInt.get after <= MAX_V /\
  (MIN_V <= x <= MAX_V -> ClampedInt.get after = x) /\
  (x > MAX_V -> ClampedInt.get after = MAX_V) /\
  (x < MIN_V -> ClampedInt.get after = MIN_V) /\
  ClampedInt.get fresh = DEF_V /\
  MIN_V <= ClampedInt.get fresh <= MAX_V /\
  bytes_of (run [arrival "SET RED_LED 2000"]) power_up = Some (crlf "OK 1023") /\
  bytes_of (run [arrival "SET RED_LED -100"]) power_up = Some (crlf "OK 0") /\
  bytes_of (run [arrival "SET SERVO 90"]) power_up = Some (crlf "OK 90").
Proof.
  intros Hdef made fresh after.
  assert (Hmm : MIN_V <= MAX_V) by lia.
  pose proof (clamped_range MIN_V MAX_V x Hmm) as Hr.
  destruct (clamped_cases MIN_V MAX_V x Hmm) as (Hin & Hhi & Hlo).
  repeat split; try (simpl; lia); try (simpl; auto; fail);
    try (vm_compute; reflexivity).
Qed.

Lemma C7_clamped_int_witness :
  0 <= 0 <= 1023 /\
  ClampedInt.get (ClampedInt.set (ClampedInt.default : LedValue) 2000).2 = 1023.
Proof.
  split; [lia|].
  apply (C7_clamped_int 0 1023 0 2000 ClampedInt.default); lia.
Defined.

(** ** SelfTester *)

Lemma wrap32_range z : 0 <= wrap32 z < 2 ^ 32.
Proof. unfold wrap32. apply Z.mod_pos_bound. lia. Qed.

Lemma wrap32_small z : 0 <= z < 2 ^ 32 -> wrap32 z = z.
Proof. intros H. unfold wrap32. apply Z.mod_small. exact H. Qed.

Lemma wrap32_le z : 0 <= z -> wrap32 z <= z.
Proof. intros H. unfold wrap32. apply Z.mod_le; lia. Qed.

(** The deadline that a due step schedules, in one reduction modulo
    [2^32]: the old deadline plus the wait plus twice the lateness. *)
Lemma late_deadline now next wait :
  wrap32 (now + wrap32 wait - wrap32 (next - now))
  = wrap32 (next + wait + 2 * (now - next)).
Proof.
  unfold wrap32.
  rewrite Zminus_mod_idemp_r.
  replace (now + wait mod 2 ^ 32 - (next - now))
    with (now - (next - now) + wait mod 2 ^ 32) by ring.
  rewrite Zplus_mod_idemp_r. f_equal. ring.
Qed.

(** What [step] does when a step is due. *)
Lemma step_due (w : World) (target : Target) :
  let t := self_tester w in
  let now := wrap32 (millis_source w (millis_calls w)) in
  active_ t = true ->
  targets_ t !! Z.to_nat (step_ t) = Some target ->
  step_ t < SelfTester.size t ->
  next_step_timestamp_ t <= now ->
  exists w',
    SelfTester.step w = Some (true, w', []) /\
    self_tester w' =
      MkSelfTester (targets_ t) true (wrap32 (step_ t + 1))
        (wrap32 (next_step_timestamp_ t + wait_ms target
                 + 2 * (now - next_step_timestamp_ t))) /\
    parser w' = parser w /\ request w' = request w /\
    serial_rx w' = serial_rx w /\
    ClampedInt.get (red (state w')) = ClampedInt.clamped 0 1023 (target_red target) /\
    ClampedInt.get (servo (state w')) = ClampedInt.clamped 0 180 (target_servo target).
Proof.
  destruct w as [s t p r src calls rx pw]; simpl.
  destruct t as [targets active stp next]; simpl.
  intros -> Hlook Hlt Hdue.
  unfold SelfTester.step; simpl.
  unfold mbind, Eff_bind, bind; simpl.
  destruct (Z.geb_spec stp (SelfTester.size (MkSelfTester targets true stp next)))
    as [Hge|_]; [lia|]. simpl.
  destruct (Z.ltb_spec (wrap32 (src calls)) next) as [Hl|_]; [lia|].
  rewrite Hlook. simpl.
  eexists. split; [reflexivity|]. simpl.
  rewrite late_deadline. repeat split.
Qed.


(** C1: at a step that is due five milliseconds late (deadline 100, clock
    105, wait 500) [step] schedules the deadline 610, whereas the old
    deadline plus the wait is 600: the lateness is added, not taken off. *)
Theorem C1_late_step_deadline :
  next_step_timestamp_ (self_tester late_world) = 100 /\
  wait_ms <$> targets_ (self_tester late_world) !! 0%nat = Some 500 /\
  step_outcome late_world = Some (true, 1, 610) /\
  wrap32 (100 + 500) = 600.
Proof. repeat split; vm_compute; reflexivity. Qed.



(** At the end of the list the next call of [step] stops the sequencer and
    takes no step. *)
Lemma step_at_end (w : World) :
  active_ (self_tester w) = true ->
  step_ (self_tester w) = SelfTester.size (self_tester w) ->
  exists w',
    SelfTester.step w = Some (false, w', []) /\
    active_ (self_tester w') = false /\
    step_ (self_tester w') = step_ (self_tester w).
Proof.
  destruct w as [s t p r src calls rx pw]; simpl.
  destruct t as [targets active stp next]; simpl.
  intros -> Hend.
  unfold SelfTester.step, mbind, Eff_bind, bind; simpl.
  destruct (Z.geb_spec stp (SelfTester.size (MkSelfTester targets true stp next)))
    as [Hge|Hlt]; [|lia]; simpl.
  eexists. split; [reflexivity|]. split; reflexivity.
Qed.

(** C10: [start] twice is [start] once; [start] on an active sequencer and
    [stop] on an inactive one change nothing; [stop] clears the active flag
    and nothing else. *)
Theorem C10_start_stop_idempotent (w : World) :
  (SelfTester.start;; SelfTester.start) w = SelfTester.start w /\
  (active_ (self_tester w) = true -> SelfTester.start w = Some (tt, w, [])) /\
  (active_ (self_tester w) = false -> SelfTester.stop w = Some (tt, w, [])) /\
  (SelfTester.stop;; SelfTester.stop) w = SelfTester.stop w /\
  SelfTester.stop w =
    Some (tt,
          MkWorld (state w)
            (MkSelfTester (targets_ (self_tester w)) false
               (step_ (self_tester w)) (next_step_timestamp_ (self_tester w)))
            (parser w) (request w) (millis_source w) (millis_calls w)
            (serial_rx w) (pwm w),
          []).
Proof.
  destruct w as [s t p r src calls rx pw].
  destruct t as [targets active stp next].
  unfold SelfTester.start, SelfTester.stop, mbind, Eff_bind, bind; simpl.
  destruct active; simpl; repeat split; try reflexivity; intros; congruence.
Qed.

(** ** RequestParser: the byte accumulator *)

Lemma array_store_in_range (buf : list ascii) (i : Z) (c : ascii) :
  0 <= i < Z.of_nat (length buf) ->
  array_store buf i c = Some (<[Z.to_nat i := c]> buf).
Proof.
  intros H. unfold array_store. rewrite bool_decide_eq_true_2; auto.
Qed.

Lemma c_str_terminated (buf : list ascii) (i : nat) :
  (i < length buf)%nat -> is_Some (c_str (<[i := NUL]> buf)).
Proof.
  revert i. induction buf as [|c buf IH]; intros i Hi; simpl in Hi; [lia|].
  destruct i as [|i]; simpl.
  - eexists; reflexivity.
  - destruct (Ascii.eqb c NUL); [eexists; reflexivity|].
    destruct (IH i) as [s Hs]; [lia|]. rewrite Hs. eexists; reflexivity.
Qed.

Section Push.
Context {MAX_LEN : Z}.
Hypothesis MAX_LEN_range : 1 <= MAX_LEN < 2 ^ 32.

Lemma sizeof_minus_1 : wrap32 (MAX_LEN - 1) = MAX_LEN - 1.
Proof. apply wrap32_small. lia. Qed.

Lemma push_pending (p : RequestParser MAX_LEN) (c : ascii) :
  pending_request_ p = true -> RequestParser.push p c = Some p.
Proof.
  intros H. unfold RequestParser.push, RequestParser.available,
    RequestParser.pending. rewrite H. reflexivity.
Qed.

(** Both stores of [push] fall inside the array. *)
Lemma push_ok (p : RequestParser MAX_LEN) (c : ascii) :
  parser_ok p ->
  exists p', RequestParser.push p c = Some p' /\ parser_ok p'.
Proof.
  intros Hok. pose proof Hok as (Hlen & Hpos & Hterm).
  unfold RequestParser.push, RequestParser.available, RequestParser.pending.
  rewrite sizeof_minus_1.
  destruct (pending_request_ p) eqn:Hpend; simpl.
  { exists p. split; [reflexivity|exact Hok]. }
  destruct (Z.ltb_spec (bufferp_ p) (MAX_LEN - 1)) as [Hlt|Hge]; simpl.
  2: { exists p. split; [reflexivity|exact Hok]. }
  rewrite array_store_in_range by lia. simpl.
  rewrite (wrap32_small (bufferp_ p + 1)) by lia.
  destruct (Ascii.eqb c LF || (bufferp_ p + 1 =? MAX_LEN - 1)).
  - rewrite array_store_in_range by (rewrite length_insert; lia). simpl.
    eexists. split; [reflexivity|].
    split; [|split]; simpl.
    + rewrite !length_insert. exact Hlen.
    + lia.
    + intros _. apply c_str_terminated. rewrite length_insert. lia.
  - eexists. split; [reflexivity|].
    split; [|split]; simpl.
    + rewrite length_insert. exact Hlen.
    + lia.
    + discriminate.
Qed.

Lemma pushes_ok (l : list ascii) (p : RequestParser MAX_LEN) :
  parser_ok p ->
  exists p', pushes p l = Some p' /\ parser_ok p'.
Proof.
  revert p. induction l as [|c l IH]; intros p Hp; simpl.
  - exists p. auto.
  - destruct (push_ok p c Hp) as (p1 & -> & Hp1). simpl. apply IH, Hp1.
Qed.

Lemma pushes_pending (l : list ascii) (p : RequestParser MAX_LEN) :
  pending_request_ p = true -> pushes p l = Some p.
Proof.
  intros H. induction l as [|c l IH]; simpl; [reflexivity|].
  rewrite push_pending by exact H. simpl. exact IH.
Qed.

Lemma pushes_app (l1 l2 : list ascii) (p : RequestParser MAX_LEN) :
  pushes p (l1 ++ l2) = p' ← pushes p l1; pushes p' l2.
Proof.
  revert p. induction l1 as [|c l1 IH]; intros p; simpl; [reflexivity|].
  destruct (RequestParser.push p c) as [p1|]; simpl; [apply IH|reflexivity].
Qed.

(** Bytes that neither end the line nor fill the array are stored one
    after the other. *)
Lemma pushes_fill (l done todo : list ascii) :
  Z.of_nat (length (done ++ todo)) = MAX_LEN ->
  LF ∉ l ->
  Z.of_nat (length done + length l) < MAX_LEN - 1 ->
  pushes (MkRequestParser (done ++ todo) (Z.of_nat (length done)) false
            : RequestParser MAX_LEN) l
  = Some (MkRequestParser (done ++ l ++ drop (length l) todo)
            (Z.of_nat (length done + length l)) false).
Proof.
  revert done todo. induction l as [|c l IH]; intros done todo Hlen Hlf Hfit.
  - simpl. rewrite drop_0, Nat.add_0_r. reflexivity.
  - simpl in Hfit. rewrite length_app in Hlen.
    destruct todo as [|t todo]; [simpl in Hlen; lia|].
    apply not_elem_of_cons in Hlf as [Hc Hlf].
    simpl. unfold RequestParser.push at 1, RequestParser.available,
      RequestParser.pending. simpl.
    rewrite sizeof_minus_1.
    destruct (Z.ltb_spec (Z.of_nat (length done)) (MAX_LEN - 1)) as [_|?]; [|lia].
    rewrite array_store_in_range by (rewrite length_app; simpl; lia). simpl.
    rewrite wrap32_small by lia.
    replace (Ascii.eqb c LF) with false
      by (symmetry; apply Ascii.eqb_neq; congruence).
    destruct (Z.eqb_spec (Z.of_nat (length done) + 1) (MAX_LEN - 1)) as [?|_]; [lia|].
    simpl. rewrite Nat2Z.id.
    rewrite insert_app_r_alt, Nat.sub_diag by lia. simpl.
    replace (done ++ c :: todo) with ((done ++ [c]) ++ todo)
      by (rewrite <- app_assoc; reflexivity).
    replace (Z.of_nat (length done) + 1) with (Z.of_nat (length (done ++ [c])))
      by (rewrite length_app; simpl; lia).
    rewrite IH.
    + rewrite <- app_assoc. simpl. rewrite length_app. simpl.
      do 2 f_equal. lia.
    + rewrite !length_app in *. simpl in *. lia.
    + exact Hlf.
    + rewrite length_app. simpl. lia.
Qed.

(** The byte that fills the last free slot completes the line, line feed
    or not. *)
Lemma push_last_slot (done : list ascii) (t1 t2 c : ascii) :
  Z.of_nat (length done) + 2 = MAX_LEN ->
  RequestParser.push
    (MkRequestParser (done ++ [t1; t2]) (Z.of_nat (length done)) false
       : RequestParser MAX_LEN) c
  = Some (MkRequestParser (done ++ [c; NUL]) 0 true).
Proof.
  intros Hlen.
  unfold RequestParser.push, RequestParser.available, RequestParser.pending.
  simpl. rewrite sizeof_minus_1.
  destruct (Z.ltb_spec (Z.of_nat (length done)) (MAX_LEN - 1)) as [_|?]; [|lia].
  rewrite array_store_in_range by (rewrite length_app; simpl; lia). simpl.
  rewrite wrap32_small by lia.
  destruct (Z.eqb_spec (Z.of_nat (length done) + 1) (MAX_LEN - 1)) as [_|?]; [|lia].
  rewrite orb_true_r.
  rewrite array_store_in_range
    by (rewrite length_insert, length_app; simpl; lia).
  simpl. rewrite Nat2Z.id.
  rewrite insert_app_r_alt, Nat.sub_diag by lia. simpl.
  replace (Z.to_nat (Z.of_nat (length done) + 1)) with (length done + 1)%nat by lia.
  rewrite insert_app_r. reflexivity.
Qed.
End Push.

(** ** RequestParser: tokens *)

Section Strtok.
Variable delims : list ascii.

Lemma skip_delims_app (d s : list ascii) :
  Forall (fun c => c ∈ delims) d ->
  skip_delims delims (d ++ s) = skip_delims delims s.
Proof.
  induction 1 as [|c d Hc _ IH]; simpl; [reflexivity|].
  rewrite bool_decide_eq_true_2 by exact Hc. exact IH.
Qed.

Lemma skip_delims_all (s : list ascii) :
  Forall (fun c => c ∈ delims) s -> skip_delims delims s = [].
Proof.
  intros H. rewrite <- (app_nil_r s). rewrite skip_delims_app by exact H.
  reflexivity.
Qed.

Lemma skip_delims_some (s : list ascii) :
  ~ Forall (fun c => c ∈ delims) s ->
  exists c s', skip_delims delims s = c :: s' /\ c ∉ delims.
Proof.
  induction s as [|c s IH]; intros H.
  - destruct H. constructor.
  - simpl. destruct (bool_decide_reflect (c ∈ delims)) as [Hc|Hc].
    + apply IH. intros Hs. apply H. constructor; assumption.
    + exists c, s. split; [reflexivity|exact Hc].
Qed.

Lemma split_token_app (tok s : list ascii) :
  Forall (fun c => c ∉ delims) tok ->
  split_token delims (tok ++ s) =
    ((tok ++ (split_token delims s).1), (split_token delims s).2).
Proof.
  induction 1 as [|c tok Hc _ IH]; simpl.
  - destruct (split_token delims s); reflexivity.
  - rewrite bool_decide_eq_false_2 by exact Hc. rewrite IH. reflexivity.
Qed.

(** A token between delimiters is found whole and the search resumes
    behind the delimiter that ends it. *)
Lemma strtok_token (d tok rest : list ascii) (c : ascii) :
  Forall (fun c => c ∈ delims) d ->
  tok <> [] ->
  Forall (fun c => c ∉ delims) tok ->
  c ∈ delims ->
  strtok delims (d ++ tok ++ c :: rest) = (Some tok, rest).
Proof.
  intros Hd Hne Htok Hc. unfold strtok.
  rewrite skip_delims_app by exact Hd.
  destruct tok as [|t tok]; [congruence|].
  inversion Htok as [|? ? Ht Htok']; subst.
  simpl skip_delims. rewrite bool_decide_eq_false_2 by exact Ht.
  change (t :: tok ++ c :: rest) with ((t :: tok) ++ c :: rest).
  rewrite split_token_app by exact Htok.
  simpl. rewrite bool_decide_eq_true_2 by exact Hc. simpl.
  rewrite app_nil_r. reflexivity.
Qed.

(** A token at the end of the text. *)
Lemma strtok_last (d tok : list ascii) :
  Forall (fun c => c ∈ delims) d ->
  tok <> [] ->
  Forall (fun c => c ∉ delims) tok ->
  strtok delims (d ++ tok) = (Some tok, []).
Proof.
  intros Hd Hne Htok. unfold strtok.
  rewrite skip_delims_app by exact Hd.
  destruct tok as [|t tok]; [congruence|].
  inversion Htok as [|? ? Ht Htok']; subst.
  simpl skip_delims. rewrite bool_decide_eq_false_2 by exact Ht.
  rewrite <- (app_nil_r (t :: tok)) at 1.
  rewrite split_token_app by exact Htok.
  simpl. rewrite app_nil_r. reflexivity.
Qed.

Lemma strtok_none (s : list ascii) :
  Forall (fun c => c ∈ delims) s -> strtok delims s = (None, []).
Proof.
  intros H. unfold strtok. rewrite skip_delims_all by exact H. reflexivity.
Qed.

Lemma strtok_some (s : list ascii) :
  ~ Forall (fun c => c ∈ delims) s ->
  exists tok rest, strtok delims s = (Some tok, rest).
Proof.
  intros H. unfold strtok.
  destruct (skip_delims_some s H) as (c & s' & -> & _).
  destruct (split_token delims (c :: s')) as [tok rest].
  eexists _, _. reflexivity.
Qed.
End Strtok.

(** *** The keyword tables *)

Lemma VERB_MAP_keys (v : string) (vb : Verb) :
  VERB_MAP !! v = Some vb ->
  v = "ID"%string \/ v = "GET"%string \/ v = "SET"%string.
Proof.
  unfold VERB_MAP. rewrite !lookup_insert_Some, lookup_singleton_Some.
  intuition congruence.
Qed.

Lemma NOUN_MAP_keys (n : string) (nn : Noun) :
  NOUN_MAP !! n = Some nn ->
  n ∈ ["RED_LED"; "YELLOW_LED"; "GREEN_LED"; "SERVO"; "TEMP_AND_HUM";
       "SELF_TEST"]%string.
Proof.
  unfold NOUN_MAP. rewrite !lookup_insert_Some, lookup_singleton_Some.
  rewrite !elem_of_cons. intuition (subst; auto 10).
Qed.

Lemma verb_keyword_token (v : string) (vb : Verb) :
  VERB_MAP !! v = Some vb ->
  list_ascii_of_string v <> [] /\
  Forall (fun c => c ∉ [SP; LF]) (list_ascii_of_string v).
Proof.
  intros H. apply VERB_MAP_keys in H.
  destruct H as [->|[->| ->]]; (split; [discriminate|]);
    apply (bool_decide_unpack _); by vm_compute.
Qed.

Lemma noun_keyword_token (n : string) (nn : Noun) :
  NOUN_MAP !! n = Some nn ->
  list_ascii_of_string n <> [] /\
  Forall (fun c => c ∉ [SP; CR; LF]) (list_ascii_of_string n).
Proof.
  intros H. apply NOUN_MAP_keys in H.
  rewrite !elem_of_cons, elem_of_nil in H.
  destruct H as [->|[->|[->|[->|[->|[->|[]]]]]]]; (split; [discriminate|]);
    apply (bool_decide_unpack _); by vm_compute.
Qed.

(** *** [strtol] *)

Lemma digit_value_digit_char (d : Z) :
  0 <= d <= 9 -> digit_value (digit_char d) = Some d.
Proof.
  intros H.
  assert (d = 0 \/ d = 1 \/ d = 2 \/ d = 3 \/ d = 4 \/ d = 5 \/ d = 6 \/
          d = 7 \/ d = 8 \/ d = 9) as Hd by lia.
  repeat (destruct Hd as [->|Hd]; [reflexivity|]). subst. reflexivity.
Qed.

Lemma digit_char_not_space (d : Z) :
  0 <= d <= 9 ->
  isspace (digit_char d) = false /\
  digit_char d <> "-"%char /\ digit_char d <> "+"%char.
Proof.
  intros H.
  assert (d = 0 \/ d = 1 \/ d = 2 \/ d = 3 \/ d = 4 \/ d = 5 \/ d = 6 \/
          d = 7 \/ d = 8 \/ d = 9) as Hd by lia.
  repeat (destruct Hd as [->|Hd]; [apply (bool_decide_unpack _); by vm_compute|]).
  subst. apply (bool_decide_unpack _); by vm_compute.
Qed.

Lemma skip_spaces_blanks (blanks s : list ascii) :
  Forall (fun c => isspace c = true) blanks ->
  ~ starts_with (fun c => isspace c = true) s ->
  skip_spaces (blanks ++ s) = (s, length blanks).
Proof.
  intros Hb Hs. induction Hb as [|c blanks Hc _ IH]; simpl.
  - destruct s as [|c s]; [reflexivity|]. simpl in *.
    destruct (isspace c); [tauto|reflexivity].
  - rewrite Hc, IH. reflexivity.
Qed.

Lemma read_digits_app (ds : list Z) (junk : list ascii) (acc : Z) :
  Forall (fun d => 0 <= d <= 9) ds ->
  ~ starts_with (fun c => is_Some (digit_value c)) junk ->
  read_digits acc (map digit_char ds ++ junk)
  = (fold_left (fun acc d => 10 * acc + d) ds acc, length ds).
Proof.
  intros Hds Hj. revert acc.
  induction Hds as [|d ds Hd _ IH]; intros acc; simpl.
  - destruct junk as [|c junk]; [reflexivity|]. simpl in *.
    destruct (digit_value c); [|reflexivity].
    destruct Hj. eexists; reflexivity.
  - rewrite digit_value_digit_char by exact Hd. rewrite IH. reflexivity.
Qed.

(** [strtol] on a token split as [number_token] describes. *)
Lemma strtol_number_token (blanks sign : list ascii) (ds : list Z) (junk : list ascii) :
  number_token blanks sign ds junk ->
  strtol (blanks ++ sign ++ map digit_char ds ++ junk)
  = (leading_number sign ds,
     match ds with
     | [] => O
     | _ :: _ => (length blanks + length sign + length ds)%nat
     end).
Proof.
  intros [Hb Hs Hd Hj Hbare _ _]. unfold strtol.
  assert (Hstart : ~ starts_with (fun c => isspace c = true)
                     (sign ++ map digit_char ds ++ junk)).
  { destruct Hs as [->|[->| ->]]; simpl; try discriminate.
    destruct ds as [|d ds]; simpl.
    - intros H. apply (Hbare eq_refl eq_refl).
      destruct junk; simpl in *; [tauto|]. left; exact H.
    - inversion Hd; subst.
      destruct (digit_char_not_space d) as (-> & _); [assumption|discriminate]. }
  rewrite skip_spaces_blanks by assumption.
  destruct Hs as [->|[->| ->]]; simpl.
  - assert (Hnosign : forall r, map digit_char ds ++ junk = "-"%char :: r -> False).
    { intros r Hr. destruct ds as [|d ds]; simpl in Hr.
      - apply (Hbare eq_refl eq_refl). rewrite Hr. simpl. auto.
      - inversion Hd; subst. injection Hr as Hr _.
        destruct (digit_char_not_space d) as (_ & ? & _); auto. }
    assert (Hnoplus : forall r, map digit_char ds ++ junk = "+"%char :: r -> False).
    { intros r Hr. destruct ds as [|d ds]; simpl in Hr.
      - apply (Hbare eq_refl eq_refl). rewrite Hr. simpl. auto.
      - inversion Hd; subst. injection Hr as Hr _.
        destruct (digit_char_not_space d) as (_ & _ & ?); auto. }
    destruct (map digit_char ds ++ junk) as [|c r] eqn:E.
    + destruct ds; [reflexivity|discriminate].
    + assert (c <> "-"%char) by (intros ->; eapply Hnosign; reflexivity).
      assert (c <> "+"%char) by (intros ->; eapply Hnoplus; reflexivity).
      assert (E' : match c :: r with
                   | "-"%char :: r0 => (true, r0, 1%nat)
                   | "+"%char :: r0 => (false, r0, 1%nat)
                   | _ => (false, c :: r, O)
                   end = (false, c :: r, O)).
      { destruct c as [[] [] [] [] [] [] [] []]; try reflexivity; congruence. }
      rewrite E'. rewrite <- E. rewrite read_digits_app by assumption.
      destruct ds as [|d ds]; [reflexivity|].
      unfold leading_number, decimal. simpl.
      repeat f_equal; lia.
  - rewrite read_digits_app by assumption.
    destruct ds as [|d ds]; [reflexivity|].
    unfold leading_number, decimal. simpl. repeat f_equal; lia.
  - rewrite read_digits_app by assumption.
    destruct ds as [|d ds]; [reflexivity|].
    unfold leading_number, decimal. simpl. repeat f_equal; lia.
Qed.

(** Every token splits as [number_token] describes, so the lemmas on
    [strtol] cover every third token. *)
Lemma digit_value_inv (c : ascii) (d : Z) :
  digit_value c = Some d -> 0 <= d <= 9 /\ c = digit_char d.
Proof.
  unfold digit_value, digit_char.
  destruct (Z.leb_spec 48 (Z.of_N (N_of_ascii c))) as [H1|]; [|discriminate].
  destruct (Z.leb_spec (Z.of_N (N_of_ascii c)) 57) as [H2|]; [|discriminate].
  simpl. intros [= <-]. split; [lia|].
  replace (48 + (Z.of_N (N_of_ascii c) - 48)) with (Z.of_N (N_of_ascii c)) by lia.
  rewrite N2Z.id, ascii_N_embedding. reflexivity.
Qed.

Lemma blanks_split (x : list ascii) :
  exists blanks r,
    x = blanks ++ r /\ Forall (fun c => isspace c = true) blanks /\
    ~ starts_with (fun c => isspace c = true) r.
Proof.
  induction x as [|c x (blanks & r & -> & Hb & Hr)].
  - exists [], []. split; [reflexivity|]. split; [constructor|]. simpl. tauto.
  - destruct (isspace c) eqn:E.
    + exists (c :: blanks), r. split; [reflexivity|].
      split; [constructor; assumption|exact Hr].
    + exists [], (c :: blanks ++ r). split; [reflexivity|].
      split; [constructor|]. simpl. congruence.
Qed.

Lemma digits_split (x : list ascii) :
  exists ds junk,
    x = map digit_char ds ++ junk /\ Forall (fun d => 0 <= d <= 9) ds /\
    ~ starts_with (fun c => is_Some (digit_value c)) junk.
Proof.
  induction x as [|c x (ds & junk & -> & Hd & Hj)].
  - exists [], []. split; [reflexivity|]. split; [constructor|]. simpl. tauto.
  - destruct (digit_value c) as [d|] eqn:E.
    + destruct (digit_value_inv c d E) as [Hr ->].
      exists (d :: ds), junk. split; [reflexivity|].
      split; [constructor; assumption|exact Hj].
    + exists [], (c :: map digit_char ds ++ junk). split; [reflexivity|].
      split; [constructor|]. simpl. rewrite E. intros [? ?]. discriminate.
Qed.

Lemma number_token_exists (x : list ascii) :
  x <> [] ->
  Forall (fun c => c ∉ [SP; CR; LF]) x ->
  exists blanks sign ds junk,
    x = blanks ++ sign ++ map digit_char ds ++ junk /\
    number_token blanks sign ds junk.
Proof.
  intros Hne Hnd.
  destruct (blanks_split x) as (blanks & r & -> & Hb & Hr).
  assert (Hsign : exists sign r',
            r = sign ++ r' /\
            (sign = [] \/ sign = ["-"%char] \/ sign = ["+"%char]) /\
            (sign = [] -> ~ starts_with (fun c => c = "-"%char \/ c = "+"%char) r')).
  { destruct r as [|c r]; [exists [], []; simpl; tauto|].
    destruct (decide (c = "-"%char)) as [->|Hm].
    { exists ["-"%char], r. split; [reflexivity|]. split; [tauto|discriminate]. }
    destruct (decide (c = "+"%char)) as [->|Hp].
    { exists ["+"%char], r. split; [reflexivity|]. split; [tauto|discriminate]. }
    exists [], (c :: r). split; [reflexivity|]. split; [tauto|]. simpl. tauto. }
  destruct Hsign as (sign & r' & -> & Hs & Hbare).
  destruct (digits_split r') as (ds & junk & -> & Hd & Hj).
  exists blanks, sign, ds, junk. split; [reflexivity|].
  constructor; try assumption.
  intros -> ->. simpl in *. specialize (Hbare eq_refl).
  destruct junk as [|c junk]; simpl in *; tauto.
Qed.

(** *** [parse_into] *)

(** The line printed for an unknown noun. *)
Lemma parse_text_total (text : list ascii) (r : Request) (w : World) :
  exists r' out,
    RequestParser.parse_text text r w = Some ((true, r'), w, out) /\
    req_status r' = req_status r /\
    (out = [] \/
     exists tok, out = [Print (PStr "Failed to find noun [");
                        Print (PStr tok); Println (PStr "]")]).
Proof.
  unfold RequestParser.parse_text.
  destruct (strtok [SP; LF] text) as [[tok1|] s1];
    [|eexists _, _; split; [reflexivity|]; split; [reflexivity|left; reflexivity]].
  destruct (VERB_MAP !! string_of_list_ascii tok1) as [v|];
    [|eexists _, _; split; [reflexivity|]; split; [reflexivity|left; reflexivity]].
  destruct (strtok [SP; CR; LF] s1) as [[tok2|] s2];
    [|eexists _, _; split; [reflexivity|]; split; [reflexivity|left; reflexivity]].
  destruct (NOUN_MAP !! string_of_list_ascii tok2) as [n|];
    [|eexists _, _; split; [reflexivity|]; split; [reflexivity|right; eexists; reflexivity]].
  destruct (strtok [SP; CR; LF] s2) as [[tok3|] s3];
    [|eexists _, _; split; [reflexivity|]; split; [reflexivity|left; reflexivity]].
  destruct (strtol tok3) as [val [|k]];
    [eexists _, _; split; [reflexivity|]; split; [reflexivity|left; reflexivity]|].
  destruct (strtok [CR; LF] s3) as [[tok4|] s4];
    eexists _, _; (split; [reflexivity|]); (split; [reflexivity|left; reflexivity]).
Qed.

Lemma parse_into_pending (w : World) (text : list ascii) (r : Request) :
  pending_text w text ->
  RequestParser.parse_into r w = RequestParser.parse_text text r (consumed w).
Proof.
  intros [Hp Ht]. unfold RequestParser.parse_into, RequestParser.pending.
  unfold mbind, Eff_bind, bind; simpl. rewrite Hp, Ht. simpl.
  fold (consumed w).
  destruct (RequestParser.parse_text text r (consumed w)) as [[[a w'] out]|];
    reflexivity.
Qed.

Lemma parse_into_idle (w : World) (r : Request) :
  pending_request_ (parser w) = false ->
  RequestParser.parse_into r w = Some ((false, r), w, []).
Proof.
  intros Hp. unfold RequestParser.parse_into, RequestParser.pending.
  unfold mbind, Eff_bind, bind; simpl. rewrite Hp. reflexivity.
Qed.

Lemma forallb_line_ends (s : list ascii) :
  forallb (fun c => bool_decide (c ∈ [CR; LF])) s = true <->
  Forall (fun c => c ∈ [CR; LF]) s.
Proof.
  induction s as [|c s IH]; simpl.
  - split; [constructor|reflexivity].
  - rewrite andb_true_iff, IH, Forall_cons, bool_decide_eq_true. reflexivity.
Qed.

(** The fields that [parse_into] writes for a line with a third token. *)
Lemma parse_value_field (w : World) (r0 : Request)
    (pre blanks sign junk tail : list ascii) (ds : list Z) (vb : Verb) (nn : Noun) :
  command_prefix pre vb nn ->
  number_token blanks sign ds junk ->
  line_tail tail ->
  pending_text w (pre ++ (blanks ++ sign ++ map digit_char ds ++ junk) ++ tail) ->
  RequestParser.parse_into r0 w =
    Some ((true,
           MkRequest (req_status r0) vb nn
             (match ds with
              | [] => VALUE_INVALID
              | _ :: _ => if trailing_text tail then VALUE_EMPTY else VALUE_OK
              end)
             (leading_number sign ds)),
          consumed w, []).
Proof.
  intros Hpre Htok Htail Hpend.
  rewrite (parse_into_pending _ _ _ Hpend).
  pose proof (strtol_number_token _ _ _ _ Htok) as Hstrtol.
  destruct Htok as [_ _ _ _ _ Hne Hnodelim].
  set (x := blanks ++ sign ++ map digit_char ds ++ junk) in *.
  destruct Hpre as [lead v c1 sep1 n c2 sep2 vb nn Hlead Hv Hc1 Hsep1 Hn Hc2 Hsep2].
  destruct (verb_keyword_token v vb Hv) as [Hv1 Hv2].
  destruct (noun_keyword_token n nn Hn) as [Hn1 Hn2].
  unfold RequestParser.parse_text.
  rewrite <- !app_assoc. rewrite <- app_comm_cons. rewrite <- !app_assoc.
  rewrite <- app_comm_cons.
  rewrite (strtok_token [SP; LF] lead (list_ascii_of_string v)) by assumption.
  cbn beta iota zeta.
  rewrite string_of_list_ascii_of_string, Hv.
  rewrite (strtok_token [SP; CR; LF] sep1 (list_ascii_of_string n)) by assumption.
  cbn beta iota zeta.
  rewrite string_of_list_ascii_of_string, Hn.
  assert (Hx : strtok [SP; CR; LF] (sep2 ++ x ++ tail) = (Some x, drop 1 tail)).
  { destruct Htail as [->|Hstart].
    - rewrite app_nil_r. apply strtok_last; assumption.
    - destruct tail as [|c3 rest]; [destruct Hstart|]. simpl in Hstart.
      simpl. rewrite drop_0. apply strtok_token; assumption. }
  rewrite Hx, Hstrtol. cbn beta iota zeta.
  destruct ds as [|d ds]; [reflexivity|].
  replace (length blanks + length sign + length (d :: ds))%nat
    with (S (length blanks + length sign + length ds)) by (simpl; lia).
  cbn beta iota zeta.
  unfold trailing_text.
  destruct (forallb (fun c => bool_decide (c ∈ [CR; LF])) (drop 1 tail)) eqn:E.
  - apply forallb_line_ends in E. rewrite strtok_none by exact E. reflexivity.
  - destruct (strtok_some [CR; LF] (drop 1 tail)) as (tok & rest & ->);
      [|reflexivity].
    intros H. apply forallb_line_ends in H. congruence.
Qed.

(** ** RequestParser: the claims *)

(** C3: [parse_into] writes only the fields it reaches.  After
    [SET RED_LED 5] the line [GET] leaves the value field [VALUE_OK] (and
    the integer 5), where a fresh request would hold [VALUE_EMPTY]; the
    dispatcher then answers [ERR BAD_VALUE] instead of [ERR BAD_NOUN]. *)
Theorem C3_stale_value_field :
  parsed Request_default (received "SET RED_LED 5") =
    Some (true, request_after_set) /\
  parsed request_after_set (received "GET") =
    Some (true, MkRequest STATUS_OK VERB_GET NOUN_EMPTY VALUE_OK 5) /\
  parsed Request_default (received "GET") =
    Some (true, MkRequest STATUS_OK VERB_GET NOUN_EMPTY VALUE_EMPTY 0) /\
  bytes_of (run [arrival "SET RED_LED 5"; arrival "GET"]) power_up =
    Some (crlf "OK 5" ++ crlf "ERR BAD_VALUE")%string /\
  bytes_of (run [arrival "GET"]) power_up = Some (crlf "ERR BAD_NOUN").
Proof. repeat split; vm_compute; reflexivity. Qed.

(** C4: the third token [12abc] is not a signed decimal integer, and yet
    [parse_into] sets the value field to [VALUE_OK] with the integer 12,
    and the line is answered [OK 12], as [SET RED_LED 12] is.  The only
    test on the token is whether [strtol] converted anything, so what
    follows the digits inside the token is never looked at.  The sibling
    inputs are refused: [12 abc], where a space stands before the letters,
    is answered [ERR BAD_VALUE], and so is [abc], whose value field is
    [VALUE_INVALID]. *)
Theorem C4_digits_then_letters_accepted :
  parsed Request_default (received "SET RED_LED 12abc")
    = Some (true, MkRequest STATUS_OK VERB_SET NOUN_RED_LED VALUE_OK 12) /\
  bytes_of (run [arrival "SET RED_LED 12abc"]) power_up = Some (crlf "OK 12") /\
  bytes_of (run [arrival "SET RED_LED 12"]) power_up = Some (crlf "OK 12") /\
  parsed Request_default (received "SET RED_LED 12 abc")
    = Some (true, MkRequest STATUS_OK VERB_SET NOUN_RED_LED VALUE_EMPTY 12) /\
  bytes_of (run [arrival "SET RED_LED 12 abc"]) power_up
    = Some (crlf "ERR BAD_VALUE") /\
  parsed Request_default (received "SET RED_LED abc")
    = Some (true, MkRequest STATUS_OK VERB_SET NOUN_RED_LED VALUE_INVALID 0) /\
  bytes_of (run [arrival "SET RED_LED abc"]) power_up
    = Some (crlf "ERR BAD_VALUE").
Proof. repeat split; vm_compute; reflexivity. Qed.

(** The value field of a line that starts with a verb and a noun keyword,
    in general: it follows the number at the start of the third token.
    Every third token splits into blanks, a sign, decimal digits and a
    remainder, as [strtol] reads it.  Without a digit the field is
    [VALUE_INVALID] and the integer 0; with digits the integer is their
    value, saturated to the range of [long], and the field is [VALUE_OK],
    or [VALUE_EMPTY] when text follows the token, whatever the remainder of
    the token is. *)
Theorem value_follows_leading_number (w : World) (r0 : Request)
    (pre x tail : list ascii) (vb : Verb) (nn : Noun) :
  command_prefix pre vb nn ->
  x <> [] ->
  Forall (fun c => c ∉ [SP; CR; LF]) x ->
  line_tail tail ->
  pending_text w (pre ++ x ++ tail) ->
  exists blanks sign ds junk r,
    x = blanks ++ sign ++ map digit_char ds ++ junk /\
    number_token blanks sign ds junk /\
    RequestParser.parse_into r0 w = Some ((true, r), consumed w, []) /\
    verb r = vb /\ noun r = nn /\
    value_int r = leading_number sign ds /\
    value r = match ds with
              | [] => VALUE_INVALID
              | _ :: _ => if trailing_text tail then VALUE_EMPTY else VALUE_OK
              end.
Proof.
  intros Hpre Hne Hnd Htail Hpend.
  destruct (number_token_exists x Hne Hnd) as (blanks & sign & ds & junk & -> & Htok).
  exists blanks, sign, ds, junk.
  rewrite (parse_value_field w r0 _ _ _ _ _ _ _ _ Hpre Htok Htail Hpend).
  eexists. split; [reflexivity|]. split; [exact Htok|].
  split; [reflexivity|]. repeat split.
Qed.

(** C5: a token behind a parsed value sets the value field back to
    [VALUE_EMPTY], and a SET request is then answered [ERR BAD_VALUE]. *)
Theorem C5_trailing_token_erases_value (w : World) (r0 : Request)
    (pre blanks sign junk rest : list ascii) (c : ascii) (ds : list Z)
    (vb : Verb) (nn : Noun) :
  command_prefix pre vb nn ->
  number_token blanks sign ds junk ->
  ds <> [] ->
  c ∈ [SP; CR; LF] ->
  has_token rest ->
  pending_text w
    (pre ++ (blanks ++ sign ++ map digit_char ds ++ junk) ++ c :: rest) ->
  exists r,
    RequestParser.parse_into r0 w = Some ((true, r), consumed w, []) /\
    value r = VALUE_EMPTY /\
    (vb = VERB_SET -> req_status r0 = STATUS_OK ->
     handle_request r (consumed w)
     = Some (tt, consumed w, [Println (PStr "ERR BAD_VALUE")])).
Proof.
  intros Hpre Htok Hds Hc (c' & Hin & Hc') Hpend.
  assert (Htail : line_tail (c :: rest)) by (right; exact Hc).
  rewrite (parse_value_field w r0 _ _ _ _ _ _ _ _ Hpre Htok Htail Hpend).
  assert (Htrail : trailing_text (c :: rest) = true).
  { unfold trailing_text. simpl. rewrite drop_0.
    destruct (forallb _ rest) eqn:E; [|reflexivity].
    apply forallb_line_ends in E. rewrite Forall_forall in E.
    specialize (E c' Hin). destruct Hc'.
    rewrite !elem_of_cons in *. tauto. }
  destruct ds as [|d ds]; [congruence|]. rewrite Htrail.
  eexists. split; [reflexivity|]. split; [reflexivity|].
  intros -> Hst. unfold handle_request. simpl. rewrite Hst. reflexivity.
Qed.
Lemma command_prefix_set_red :
  command_prefix (list_ascii_of_string "SET RED_LED ") VERB_SET NOUN_RED_LED.
Proof.
  change (list_ascii_of_string "SET RED_LED ")
    with ([] ++ list_ascii_of_string "SET" ++ SP :: []
             ++ list_ascii_of_string "RED_LED" ++ SP :: []).
  constructor; try (apply (bool_decide_unpack _); vm_compute; exact I);
    reflexivity.
Defined.

Lemma value_follows_leading_number_example :
  exists blanks sign ds junk r,
    list_ascii_of_string "12abc" = blanks ++ sign ++ map digit_char ds ++ junk /\
    number_token blanks sign ds junk /\
    RequestParser.parse_into Request_default (received "SET RED_LED 12abc")
    = Some ((true, r), consumed (received "SET RED_LED 12abc"), []) /\
    verb r = VERB_SET /\ noun r = NOUN_RED_LED /\
    value_int r = leading_number sign ds /\
    value r = match ds with
              | [] => VALUE_INVALID
              | _ :: _ => if trailing_text [LF] then VALUE_EMPTY else VALUE_OK
              end.
Proof.
  apply (value_follows_leading_number (received "SET RED_LED 12abc")
           Request_default (list_ascii_of_string "SET RED_LED ")
           (list_ascii_of_string "12abc") [LF] VERB_SET NOUN_RED_LED).
  - exact command_prefix_set_red.
  - discriminate.
  - apply (bool_decide_unpack _). vm_compute. exact I.
  - right. simpl. apply (bool_decide_unpack _). vm_compute. exact I.
  - split; vm_compute; reflexivity.
Defined.

Lemma C5_trailing_token_erases_value_witness :
  exists r,
    RequestParser.parse_into Request_default (received "SET RED_LED 5 x")
    = Some ((true, r), consumed (received "SET RED_LED 5 x"), []) /\
    value r = VALUE_EMPTY /\
    (VERB_SET = VERB_SET -> req_status Request_default = STATUS_OK ->
     handle_request r (consumed (received "SET RED_LED 5 x"))
     = Some (tt, consumed (received "SET RED_LED 5 x"),
             [Println (PStr "ERR BAD_VALUE")])).
Proof.
  apply (C5_trailing_token_erases_value (received "SET RED_LED 5 x")
           Request_default (list_ascii_of_string "SET RED_LED ")
           [] [] [] [ "x"%char; LF ] SP [5] VERB_SET NOUN_RED_LED).
  - exact command_prefix_set_red.
  - constructor; apply (bool_decide_unpack _); vm_compute; exact I.
  - discriminate.
  - apply (bool_decide_unpack _). vm_compute. exact I.
  - exists "x"%char. split; apply (bool_decide_unpack _); vm_compute; exact I.
  - split; vm_compute; reflexivity.
Defined.

(** C8: [push] never stores outside the array and keeps the parser well
    formed; on a pending parser it changes nothing, so the bytes are
    dropped; a line with no line feed among its first [MAX_LEN - 1] bytes
    is completed by the byte that fills the last free slot, the terminator
    goes into the last element and the later bytes are dropped; and the
    line stays pending until [parse_into] consumes it. *)
Theorem C8_push_bounded (MAX_LEN : Z) (p : RequestParser MAX_LEN)
    (storage l : list ascii) :
  2 <= MAX_LEN < 2 ^ 32 ->
  parser_ok p ->
  Z.of_nat (length storage) = MAX_LEN ->
  (exists p',
     pushes p l = Some p' /\ parser_ok p' /\
     length (buffer_ p') = length (buffer_ p)) /\
  (pending_request_ p = true ->
     RequestParser.available p = false /\
     (forall c, RequestParser.push p c = Some p) /\
     pushes p l = Some p) /\
  (LF ∉ take (Z.to_nat (MAX_LEN - 1)) l ->
   MAX_LEN - 1 <= Z.of_nat (length l) ->
     pushes (@RequestParser.make MAX_LEN storage) l =
       Some (MkRequestParser (take (Z.to_nat (MAX_LEN - 1)) l ++ [NUL]) 0 true) /\
     pushes (@RequestParser.make MAX_LEN storage) (take (Z.to_nat (MAX_LEN - 1)) l) =
       pushes (@RequestParser.make MAX_LEN storage) l) /\
  (forall (w : World) (r : Request),
     parser_ok (parser w) -> pending_request_ (parser w) = true ->
     exists r' out,
       RequestParser.parse_into r w = Some ((true, r'), consumed w, out) /\
       pending_request_ (parser (consumed w)) = false).
Proof.
  intros Hrange Hok Hstorage.
  assert (Hrange1 : 1 <= MAX_LEN < 2 ^ 32) by lia.
  split; [|split; [|split]].
  - destruct (pushes_ok Hrange1 l p Hok) as (p' & Hp' & Hok').
    exists p'. split; [exact Hp'|]. split; [exact Hok'|].
    destruct Hok as (H1 & _), Hok' as (H2 & _). lia.
  - intros Hpend. split; [|split].
    + unfold RequestParser.available, RequestParser.pending.
      rewrite Hpend. reflexivity.
    + intros c. apply push_pending, Hpend.
    + apply pushes_pending, Hpend.
  - intros Hlf Hlong.
    set (k := Z.to_nat (MAX_LEN - 1)) in *.
    assert (Hfull : pushes (@RequestParser.make MAX_LEN storage)
                      (take k l)
                    = Some (MkRequestParser (take k l ++ [NUL]) 0 true)).
    { assert (Hk : length (take k l) = k) by (rewrite length_take; lia).
      destruct (take k l) as [|c0 l0] eqn:Etake using rev_ind;
        [simpl in Hk; lia|]. clear IHl0.
      rewrite length_app in Hk. simpl in Hk.
      apply not_elem_of_app in Hlf as [Hlf _].
      destruct storage as [|t1 storage] using rev_ind;
        [simpl in Hstorage; lia|]. clear IHstorage.
      destruct storage as [|t2 storage] using rev_ind;
        [simpl in Hstorage; lia|]. clear IHstorage.
      rewrite !length_app in Hstorage. simpl in Hstorage.
      rewrite pushes_app.
      unfold RequestParser.make.
      pose proof (pushes_fill Hrange1 l0 [] ((storage ++ [t2]) ++ [t1])) as Hfill.
      cbn in Hfill. change (Z.of_nat 0) with 0 in Hfill.
      rewrite Hfill; clear Hfill.
      2: { rewrite !length_app. simpl. lia. }
      2: { exact Hlf. }
      2: { lia. }
      simpl.
      assert (Hdrop : drop (length l0) ((storage ++ [t2]) ++ [t1]) = [t2; t1]).
      { rewrite <- app_assoc. rewrite drop_app_length'; [reflexivity|lia]. }
      rewrite Hdrop.
      rewrite (push_last_slot Hrange1 l0 t2 t1 c0) by lia.
      simpl. rewrite <- app_assoc. reflexivity. }
    split.
    + rewrite <- (take_drop k l) at 1. rewrite pushes_app, Hfull. simpl.
      apply pushes_pending. reflexivity.
    + rewrite Hfull. symmetry.
      rewrite <- (take_drop k l) at 1. rewrite pushes_app, Hfull. simpl.
      apply pushes_pending. reflexivity.
  - intros w r (_ & _ & Hterm) Hpend.
    destruct (Hterm Hpend) as [text Htext].
    rewrite (parse_into_pending w text r) by (split; assumption).
    destruct (parse_text_total text r (consumed w)) as (r' & out & -> & _).
    exists r', out. split; reflexivity.
Qed.
Lemma C8_push_bounded_witness :
  pushes (@RequestParser.make 4 [NUL; NUL; NUL; NUL])
    (list_ascii_of_string "abcdef")
  = Some (MkRequestParser (list_ascii_of_string "abc" ++ [NUL]) 0 true).
Proof.
  assert (Hok : parser_ok (@RequestParser.make 4 [NUL; NUL; NUL; NUL])).
  { split; [reflexivity|]. split; [simpl; lia|]. simpl. discriminate. }
  destruct (C8_push_bounded 4 (RequestParser.make [NUL; NUL; NUL; NUL])
              [NUL; NUL; NUL; NUL] (list_ascii_of_string "abcdef")
              ltac:(lia) Hok eq_refl) as (_ & _ & H & _).
  apply H.
  - apply (bool_decide_unpack _). vm_compute. exact I.
  - simpl. lia.
Defined.

(** ** The loop *)

Lemma lines_of_nil (out : list Event) : lines_of out = [] -> out = [].
Proof.
  destruct out as [|[v|v] out]; simpl; [reflexivity| |discriminate].
  destruct (lines_of out); discriminate.
Qed.

Lemma complete_cons (e : Event) (out : list Event) :
  out <> [] -> complete (e :: out) = complete out.
Proof. destruct out; [congruence|reflexivity]. Qed.

Lemma lines_of_app (a b : list Event) :
  complete a = true -> lines_of (a ++ b) = lines_of a ++ lines_of b.
Proof.
  induction a as [|e a IH]; intros Ha; [reflexivity|].
  destruct a as [|e' a].
  - destruct e; [discriminate|reflexivity].
  - rewrite complete_cons in Ha by discriminate. specialize (IH Ha).
    destruct e as [v|v].
    + change (lines_of ((Print v :: e' :: a) ++ b))
        with (match lines_of ((e' :: a) ++ b) with
              | [] => [[Print v]]
              | l :: ls => (Print v :: l) :: ls
              end).
      rewrite IH.
      change (lines_of (Print v :: e' :: a))
        with (match lines_of (e' :: a) with
              | [] => [[Print v]]
              | l :: ls => (Print v :: l) :: ls
              end).
      destruct (lines_of (e' :: a)) as [|l ls] eqn:E; [|reflexivity].
      apply lines_of_nil in E. discriminate.
    + change (lines_of ((Println v :: e' :: a) ++ b))
        with ([Println v] :: lines_of ((e' :: a) ++ b)).
      rewrite IH. reflexivity.
Qed.

Lemma complete_app (a b : list Event) :
  complete a = true -> complete b = true -> complete (a ++ b) = true.
Proof.
  intros Ha Hb. induction a as [|e a IH]; [exact Hb|].
  destruct a as [|e' a].
  - destruct e; [discriminate|]. simpl app.
    destruct b; [reflexivity|]. rewrite complete_cons by discriminate. exact Hb.
  - rewrite complete_cons in Ha by discriminate.
    change ((e :: e' :: a) ++ b) with (e :: (e' :: a) ++ b).
    rewrite complete_cons by discriminate. apply IH, Ha.
Qed.

(** *** Sequencing *)

Lemma hoare_bind {A B : Type} (P : World -> Prop) (m : Eff A) (k : A -> Eff B)
    (Q1 : A -> World -> list Event -> Prop) (Q : B -> World -> list Event -> Prop) :
  hoare P m Q1 ->
  (forall a out1,
     hoare (fun w => Q1 a w out1) (k a) (fun b w' out2 => Q b w' (out1 ++ out2))) ->
  hoare P (m ≫= k) Q.
Proof.
  intros Hm Hk w HP.
  destruct (Hm w HP) as (a & w1 & out1 & Em & HQ1).
  destruct (Hk a out1 w1 HQ1) as (b & w2 & out2 & Ek & HQ).
  exists b, w2, (out1 ++ out2). split; [|exact HQ].
  unfold mbind, Eff_bind, bind. rewrite Em, Ek. reflexivity.
Qed.

Section Run.
Variable targets : list Target.

Lemma sound_log_nil : sound_log targets [].
Proof.
  split; [reflexivity|]. split; [constructor|]. apply not_elem_of_nil.
Qed.

Lemma sound_log_app (a b : list Event) :
  sound_log targets a -> sound_log targets b -> sound_log targets (a ++ b).
Proof.
  intros (Ha1 & Ha2 & Ha3) (Hb1 & Hb2 & Hb3). split; [|split].
  - apply complete_app; assumption.
  - rewrite lines_of_app by exact Ha1. apply Forall_app. split; assumption.
  - rewrite elem_of_app. tauto.
Qed.

Lemma hoare_after_silent {A B : Type} (m : Eff A) (k : A -> Eff B)
    (Q : B -> World -> list Event -> Prop) :
  silent targets m ->
  (forall a, hoare (world_ok targets) (k a) Q) ->
  hoare (world_ok targets) (m ≫= k) Q.
Proof.
  intros Hm Hk. eapply hoare_bind; [exact Hm|].
  intros a out1 w [Hw ->]. simpl. apply Hk, Hw.
Qed.

Lemma hoare_get_world {B : Type} (P : World -> Prop) (k : World -> Eff B)
    (Q : B -> World -> list Event -> Prop) :
  (forall w, P w -> exists b w' out, k w w = Some (b, w', out) /\ Q b w' out) ->
  hoare P (get_world ≫= k) Q.
Proof.
  intros Hk w HP.
  destruct (Hk w HP) as (b & w' & out & Ek & HQ).
  exists b, w', out. split; [|exact HQ].
  unfold mbind, Eff_bind, bind, get_world. rewrite Ek. reflexivity.
Qed.

(** [step] is defined in every well-formed world, prints nothing and
    leaves a well-formed world. *)
Lemma step_ok : silent targets SelfTester.step.
Proof.
  intros w (Hp & Ht & Hr).
  destruct w as [s t p r src calls rx pw]; simpl in Hp, Ht, Hr.
  destruct t as [tgs active stp next].
  assert (Hsame : forall s' calls' pw',
            world_ok targets (MkWorld s' (MkSelfTester tgs active stp next) p r
                                src calls' rx pw')).
  { intros. split; [exact Hp|]. split; [exact Ht|exact Hr]. }
  destruct Ht as [Htgs Ht]; simpl in Htgs, Ht. subst tgs.
  unfold SelfTester.step, mbind, Eff_bind, bind; simpl.
  destruct active; simpl.
  2: { do 3 eexists. split; [reflexivity|]. split; [apply Hsame|reflexivity]. }
  destruct (Z.geb_spec stp (SelfTester.size (MkSelfTester targets true stp next)))
    as [Hge|Hlt]; simpl.
  { do 3 eexists. split; [reflexivity|]. split; [|reflexivity].
    split; [exact Hp|]. split; [|exact Hr].
    split; [reflexivity|exact Ht]. }
  destruct (Z.ltb_spec (wrap32 (src calls)) next) as [Hl|Hl]; simpl.
  { do 3 eexists. split; [reflexivity|]. split; [apply Hsame|reflexivity]. }
  unfold SelfTester.size in Hlt; simpl in Hlt.
  destruct (lookup_lt_is_Some_2 targets (Z.to_nat stp)) as [target Hlook]; [lia|].
  rewrite Hlook. simpl.
  do 3 eexists. split; [reflexivity|]. split; [|reflexivity].
  split; [exact Hp|]. split; [|exact Hr].
  split; [reflexivity|]. simpl. split.
  - apply wrap32_range.
  - etransitivity; [apply wrap32_le; lia|lia].
Qed.

Lemma world_ok_fields (w w' : World) :
  parser w' = parser w -> self_tester w' = self_tester w ->
  request w' = request w -> (world_ok targets) w -> (world_ok targets) w'.
Proof.
  intros Hp Ht Hr (H1 & H2 & H3). unfold world_ok.
  rewrite Hp, Ht, Hr. auto.
Qed.

Lemma millis_silent : silent targets millis.
Proof.
  intros w Hw. do 3 eexists. split; [reflexivity|]. split; [|reflexivity].
  revert Hw. apply world_ok_fields; reflexivity.
Qed.

Lemma read_silent : silent targets State.read.
Proof.
  intros w Hw. unfold State.read, mbind, Eff_bind, bind. simpl.
  match goal with |- context [if ?b then _ else _] => destruct b end;
    do 3 eexists; (split; [reflexivity|]); (split; [|reflexivity]);
    revert Hw; apply world_ok_fields; reflexivity.
Qed.

Lemma state_setup_silent : silent targets State.setup.
Proof.
  intros w Hw. do 3 eexists. split; [reflexivity|]. split; [|reflexivity].
  revert Hw. apply world_ok_fields; reflexivity.
Qed.

Lemma start_silent : silent targets SelfTester.start.
Proof.
  intros w (Hp & Ht & Hr). unfold SelfTester.start, mbind, Eff_bind, bind. simpl.
  destruct (active_ (self_tester w)); simpl;
    do 3 eexists; (split; [reflexivity|]); (split; [|reflexivity]).
  - split; [exact Hp|]. split; [exact Ht|exact Hr].
  - split; [exact Hp|]. split; [|exact Hr].
    destruct Ht as [Htgs Ht]. split; [exact Htgs|]. simpl. lia.
Qed.

Lemma stop_silent : silent targets SelfTester.stop.
Proof.
  intros w (Hp & Ht & Hr). unfold SelfTester.stop, mbind, Eff_bind, bind. simpl.
  destruct (active_ (self_tester w)); simpl;
    do 3 eexists; (split; [reflexivity|]); (split; [|reflexivity]).
  - split; [exact Hp|]. split; [exact Ht|exact Hr].
  - split; [exact Hp|]. split; [exact Ht|exact Hr].
Qed.

Lemma environment_silent (a : Arrival) : silent targets (environment a).
Proof.
  intros w Hw. do 3 eexists. split; [reflexivity|]. split; [|reflexivity].
  revert Hw. apply world_ok_fields; reflexivity.
Qed.

Lemma drain_ok (rx : list ascii) (p : Parser) :
  parser_ok p ->
  exists rx' p', drain rx p = Some (rx', p') /\ parser_ok p'.
Proof.
  revert p. induction rx as [|c rx IH]; intros p Hp; simpl.
  - exists [], p. auto.
  - destruct (RequestParser.available p).
    + destruct (@push_ok 256 ltac:(lia) p c Hp) as (p1 & -> & Hp1). simpl.
      apply IH, Hp1.
    + exists (c :: rx), p. auto.
Qed.
(** *** The dispatcher *)

Lemma progress_inactive (t : SelfTester) :
  active_ t = false -> SelfTester.progress t = 0.
Proof. intros H. unfold SelfTester.progress. rewrite H. reflexivity. Qed.

Lemma to_int_small (z : Z) : 0 <= z < 2 ^ 31 -> to_int z = z.
Proof.
  intros H. unfold to_int. rewrite Z.mod_small by lia. lia.
Qed.

Lemma progress_range (t : SelfTester) :
  tester_ok targets t -> 0 <= SelfTester.progress t <= 100.
Proof.
  intros [Htgs [H0 Hn]]. unfold SelfTester.progress.
  assert (Hlen : SelfTester.size t = Z.of_nat (length targets))
    by (unfold SelfTester.size; rewrite Htgs; reflexivity).
  destruct (negb (active_ t) || (SelfTester.size t =? 0)) eqn:E; [lia|].
  apply orb_false_elim in E as [_ E]. apply Z.eqb_neq in E.
  assert (Hsize : 0 < SelfTester.size t) by lia.
  assert (Hq : 0 <= wrap32 (100 * step_ t) / SelfTester.size t <= 100).
  { split.
    - apply Z.div_pos; [apply wrap32_range|exact Hsize].
    - apply Z.div_le_upper_bound; [exact Hsize|].
      etransitivity; [apply wrap32_le; lia|]. nia. }
  rewrite to_int_small by lia. exact Hq.
Qed.

Lemma print_self_test_report (w : World) :
  print_self_test w =
    Some (tt, w, self_test_report (active_ (self_tester w))
                   (SelfTester.progress (self_tester w))).
Proof. reflexivity. Qed.

Lemma sound_self_test_report (t : SelfTester) :
  tester_ok targets t ->
  sound_log targets (self_test_report (active_ t) (SelfTester.progress t)).
Proof.
  intros Ht. split; [reflexivity|]. split.
  - simpl. constructor; [|constructor]. split.
    + unfold self_test_report. intros H.
      destruct (active_ t) eqn:Ha; [discriminate|].
      rewrite progress_inactive in H by exact Ha. discriminate.
    + unfold self_test_report. intros p H. exists t.
      split; [exact Ht|].
      destruct (active_ t); [|discriminate].
      split; [reflexivity|]. congruence.
  - unfold self_test_report. rewrite !elem_of_cons, elem_of_nil.
    intuition discriminate.
Qed.

(** Logs made of one short line. *)
Lemma sound_err (code : string) :
  code <> "ERR BAD_SYNTAX"%string -> sound_log targets [Println (PStr code)].
Proof.
  intros H. split; [reflexivity|]. split.
  - simpl. constructor; [|constructor].
    split; unfold self_test_report; intros; discriminate.
  - rewrite elem_of_cons, elem_of_nil. intuition congruence.
Qed.

Lemma sound_ok_value (v : Printable) :
  v <> PStr "ERR BAD_SYNTAX" -> sound_log targets [Print (PStr "OK "); Println v].
Proof.
  intros H. split; [reflexivity|]. split.
  - simpl. constructor; [|constructor].
    split; unfold self_test_report; intros; discriminate.
  - rewrite !elem_of_cons, elem_of_nil. intuition congruence.
Qed.

Lemma sound_sensor (s : string) (t h : float) :
  sound_log targets [Print (PStr "OK "); Print (PStr s); Print (PStr " ");
             Print (PFloat t); Print (PStr " "); Println (PFloat h)].
Proof.
  split; [reflexivity|]. split.
  - simpl. constructor; [|constructor].
    split; unfold self_test_report; intros; discriminate.
  - rewrite !elem_of_cons, elem_of_nil. intuition discriminate.
Qed.

Lemma sound_unknown_noun (tok : string) :
  sound_log targets [Print (PStr "Failed to find noun ["); Print (PStr tok);
             Println (PStr "]")].
Proof.
  split; [reflexivity|]. split.
  - simpl. constructor; [|constructor].
    split; unfold self_test_report; intros; discriminate.
  - rewrite !elem_of_cons, elem_of_nil. intuition discriminate.
Qed.
Ltac finish_response Hw :=
  do 3 eexists; split; [reflexivity|];
  split; [revert Hw; apply world_ok_fields; reflexivity|];
  split; [first [apply sound_err; discriminate
                |apply sound_ok_value; discriminate
                |apply sound_sensor]
         |reflexivity].

Lemma self_test_response_ok (m : Eff unit) :
  silent targets m ->
  hoare (world_ok targets) (m;; print_self_test)
    (fun _ w' out => (world_ok targets) w' /\ sound_log targets out /\ length (lines_of out) = 1%nat).
Proof.
  intros Hm w Hw.
  destruct (Hm w Hw) as ([] & w1 & out1 & E & Hw1 & ->).
  do 3 eexists. split.
  - unfold mbind, Eff_bind, bind. rewrite E, print_self_test_report. reflexivity.
  - split; [exact Hw1|]. simpl. split; [|reflexivity].
    apply sound_self_test_report. apply Hw1.
Qed.

(** The dispatcher is defined for every request and every well-formed
    world, and answers with sound lines. *)
Lemma handle_request_ok (r : Request) :
  req_status r = STATUS_OK ->
  hoare (world_ok targets) (handle_request r)
    (fun _ w' out => (world_ok targets) w' /\ sound_log targets out /\ length (lines_of out) = 1%nat).
Proof.
  intros Hst w Hw.
  destruct r as [st vb nn vl vi]; simpl in Hst; subst st.
  unfold handle_request; simpl.
  destruct vb; simpl; try (finish_response Hw).
  - destruct nn; simpl; finish_response Hw.
  - destruct vl; simpl; try (finish_response Hw).
    destruct nn; simpl; try (finish_response Hw).
    rewrite print_self_test_report. do 3 eexists. split; [reflexivity|].
    split; [exact Hw|]. split; [|reflexivity].
    apply sound_self_test_report, Hw.
  - destruct vl; simpl; try (finish_response Hw).
    destruct nn; simpl; try (finish_response Hw).
    destruct ((vi <? 0) || (vi >? 1)); [finish_response Hw|].
    destruct (negb (vi =? 0)).
    + apply (self_test_response_ok _ start_silent w Hw).
    + apply (self_test_response_ok _ stop_silent w Hw).
Qed.
Lemma consumed_ok (w : World) : (world_ok targets) w -> (world_ok targets) (consumed w).
Proof.
  intros ((Hlen & Hpos & _) & Ht & Hr).
  split; [|split; [exact Ht|exact Hr]].
  split; [exact Hlen|]. split; [exact Hpos|]. simpl. discriminate.
Qed.

Lemma parse_into_ok (r : Request) :
  req_status r = STATUS_OK ->
  hoare (world_ok targets) (RequestParser.parse_into r)
    (fun res w' out =>
       (world_ok targets) w' /\ req_status res.2 = STATUS_OK /\ sound_log targets out).
Proof.
  intros Hst w Hw.
  destruct (pending_request_ (parser w)) eqn:Hp.
  - destruct Hw as (Hpar & Hrest). pose proof Hpar as (_ & _ & Hterm).
    destruct (Hterm Hp) as [text Htext].
    rewrite (parse_into_pending w text r) by (split; assumption).
    destruct (parse_text_total text r (consumed w)) as (r' & out & -> & Hr' & Hout).
    do 3 eexists. split; [reflexivity|].
    split; [apply consumed_ok; split; assumption|].
    split; [simpl; congruence|].
    destruct Hout as [->|[tok ->]];
      [apply sound_log_nil|apply sound_unknown_noun].
  - rewrite parse_into_idle by exact Hp.
    do 3 eexists. split; [reflexivity|].
    split; [exact Hw|]. split; [exact Hst|apply sound_log_nil].
Qed.

Lemma loop_ok :
  hoare (world_ok targets) loop (fun _ w' out => (world_ok targets) w' /\ sound_log targets out).
Proof.
  unfold loop.
  apply hoare_after_silent; [apply millis_silent|]. intros _.
  apply hoare_after_silent; [apply step_ok|]. intros _.
  apply hoare_after_silent; [apply read_silent|]. intros _.
  apply hoare_get_world. intros w Hw.
  destruct (drain_ok (serial_rx w) (parser w)) as (rx & p & -> & Hp);
    [apply Hw|].
  set (w2 := MkWorld (state w) (self_tester w) p (request w)
               (millis_source w) (millis_calls w) rx (pwm w)).
  assert (Hw2 : (world_ok targets) w2).
  { split; [exact Hp|]. split; apply Hw. }
  destruct (parse_into_ok (request w2) (proj2 (proj2 Hw2)) w2 Hw2)
    as ([parsed r'] & w3 & out3 & E3 & Hw3 & Hr' & Hs3).
  simpl in Hr'.
  set (w4 := MkWorld (state w3) (self_tester w3) (parser w3) r'
               (millis_source w3) (millis_calls w3) (serial_rx w3) (pwm w3)).
  assert (Hw4 : (world_ok targets) w4).
  { split; [apply Hw3|]. split; [apply Hw3|exact Hr']. }
  assert (Hdispatch : exists w5 out5,
            (if parsed then handle_request r' else ret tt) w4 = Some (tt, w5, out5)
            /\ (world_ok targets) w5 /\ sound_log targets out5).
  { destruct parsed.
    - destruct (handle_request_ok r' Hr' w4 Hw4) as ([] & w5 & out5 & E & H1 & H2 & _).
      eauto.
    - exists w4, []. split; [reflexivity|]. split; [exact Hw4|apply sound_log_nil]. }
  destruct Hdispatch as (w5 & out5 & E5 & Hw5 & Hs5).
  destruct (millis_silent w5 Hw5) as (t6 & w6 & out6 & E6 & Hw6 & ->).
  exists tt, w6, (out3 ++ out5). split.
  - unfold mbind, Eff_bind, bind, set_serial_rx, set_parser, get_world, set_request.
    cbn [state self_tester parser request millis_source millis_calls serial_rx pwm].
    fold w2. change (request w2) with (request w) in E3. rewrite E3.
    cbn beta iota zeta. fold w4. rewrite E5, E6.
    unfold mret, Eff_ret, ret. simpl. rewrite !app_nil_r. reflexivity.
  - split; [exact Hw6|]. apply sound_log_app; assumption.
Qed.

Lemma tick_ok (a : Arrival) :
  hoare (world_ok targets) (tick a)
    (fun _ w' out => world_ok targets w' /\ sound_log targets out).
Proof.
  unfold tick. apply hoare_after_silent; [apply environment_silent|].
  intros _. apply loop_ok.
Qed.

Lemma ticks_ok (l : list Arrival) :
  hoare (world_ok targets) (ticks l)
    (fun _ w' out => world_ok targets w' /\ sound_log targets out).
Proof.
  induction l as [|a l IH]; simpl.
  - intros w Hw. exists tt, w, []. split; [reflexivity|].
    split; [exact Hw|apply sound_log_nil].
  - eapply hoare_bind; [apply tick_ok|].
    intros [] out1 w [Hw Hs].
    destruct (IH w Hw) as ([] & w' & out2 & E & Hw' & Hs').
    exists tt, w', out2. split; [exact E|].
    split; [exact Hw'|apply sound_log_app; assumption].
Qed.

Lemma boot_ok (dht : DHTesp) (clock : nat -> Z) :
  world_ok targets (boot targets dht clock).
Proof.
  split; [|split].
  - split; [reflexivity|]. split; [simpl; lia|]. simpl. discriminate.
  - split; [reflexivity|]. simpl. lia.
  - reflexivity.
Qed.

Lemma setup_silent : silent targets setup.
Proof.
  unfold setup. apply hoare_after_silent; [apply state_setup_silent|].
  intros _. apply start_silent.
Qed.

(** From power-up the sketch runs for ever without undefined behaviour,
    stays well formed and logs sound lines. *)
Lemma run_ok (dht : DHTesp) (clock : nat -> Z) (l : list Arrival) :
  exists w out,
    run l (boot targets dht clock) = Some (tt, w, out) /\
    world_ok targets w /\ sound_log targets out.
Proof.
  assert (H : hoare (world_ok targets) (run l)
                (fun _ w' out => world_ok targets w' /\ sound_log targets out)).
  { unfold run. apply hoare_after_silent; [apply setup_silent|].
    intros _. apply ticks_ok. }
  destruct (H _ (boot_ok dht clock)) as ([] & w & out & E & Hw & Hs).
  exists w, out. auto.
Qed.
End Run.

(** ** The loop: the claims *)

(** The progress of an active sequencer when [100 * n] fits the width of
    [size_t]. *)
Lemma progress_exact (t : SelfTester) :
  active_ t = true ->
  0 <= step_ t <= SelfTester.size t ->
  0 < SelfTester.size t ->
  100 * SelfTester.size t < 2 ^ 32 ->
  SelfTester.progress t = 100 * step_ t / SelfTester.size t.
Proof.
  intros Ha Hstep Hpos Hfit. unfold SelfTester.progress. rewrite Ha. simpl.
  destruct (Z.eqb_spec (SelfTester.size t) 0) as [?|_]; [lia|].
  rewrite wrap32_small by nia.
  apply to_int_small. split.
  - apply Z.div_pos; lia.
  - apply Z.le_lt_trans with 100; [|lia].
    apply Z.div_le_upper_bound; nia.
Qed.

(** Below the end of the list the progress stays at or below
    [100 * (n - 1) / n]; at the end it is 100. *)
Lemma progress_below_end (n k : Z) :
  0 < n -> k < n -> 100 * k / n <= 100 * (n - 1) / n.
Proof. intros Hn Hk. apply Z.div_le_mono; lia. Qed.

Lemma progress_at_end (n : Z) : 0 < n -> 100 * n / n = 100.
Proof. intros Hn. apply Z.div_mul. lia. Qed.

(** C2, counterexample: the self test of the sketch (five steps) is
    stopped and started again with [SET SELF_TEST 1], which is answered
    [OK ACTIVE 0]; the [GET SELF_TEST] in the iteration that executes the
    last step is answered [OK ACTIVE 100], above [100 * (5 - 1) / 5 = 80],
    and the sequencer is then still active with its cursor at 5. *)
Lemma C2_active_at_100 :
  bytes_of (run restarted_self_test) power_up
    = Some (crlf "OK INACTIVE 0" ++ crlf "OK ACTIVE 0" ++ crlf "OK ACTIVE 100")%string /\
  log_of (run restarted_self_test) power_up
    = Some (self_test_report false 0 ++ self_test_report true 0
              ++ self_test_report true 100) /\
  tester_after (run restarted_self_test) power_up = Some (true, 5) /\
  Z.of_nat (length self_tester_targets) = 5 /\
  ~ 100 <= 100 * (5 - 1) / 5.
Proof.
  repeat split; try (vm_compute; reflexivity).
  vm_compute. intros H. apply H. reflexivity.
Qed.

(** C2, amended: for a step list of length [n] with [0 < n] and
    [100 * n < 2 ^ 32].  From power-up, whatever arrives and whatever the
    clock reads, the sequencer keeps its step list and its cursor stays
    within [0, n]; no line of the log is [OK INACTIVE 100]; every line
    [OK ACTIVE p] of the log has [p = 100 * k / n] for a cursor [k] within
    [0, n], which is at most [100 * (n - 1) / n] when [k < n].  In every
    world whose sequencer is so formed, the world reached included, a
    [GET SELF_TEST] is answered [INACTIVE 0] when the sequencer is inactive
    and [ACTIVE 100 * step / n] when it is active: at most
    [100 * (n - 1) / n] while the cursor is below [n], and 100 with the
    cursor at [n]; there the next call of [step] takes no step and clears
    the active flag. *)
Theorem C2_self_test_reports (targets : list Target) (dht : DHTesp)
    (clock : nat -> Z) (l : list Arrival) :
  0 < Z.of_nat (length targets) ->
  100 * Z.of_nat (length targets) < 2 ^ 32 ->
  (exists w out,
     run l (boot targets dht clock) = Some (tt, w, out) /\
     targets_ (self_tester w) = targets /\
     0 <= step_ (self_tester w) <= Z.of_nat (length targets) /\
     (self_test_report false 100 ∉ lines_of out) /\
     (forall p, self_test_report true p ∈ lines_of out ->
        exists k,
          0 <= k <= Z.of_nat (length targets) /\
          p = 100 * k / Z.of_nat (length targets) /\
          (k < Z.of_nat (length targets) ->
           p <= 100 * (Z.of_nat (length targets) - 1) / Z.of_nat (length targets)))) /\
  (forall w : World,
     targets_ (self_tester w) = targets ->
     0 <= step_ (self_tester w) <= Z.of_nat (length targets) ->
     handle_request (GET_request NOUN_SELF_TEST) w
     = Some (tt, w,
             self_test_report (active_ (self_tester w))
               (if active_ (self_tester w)
                then 100 * step_ (self_tester w) / Z.of_nat (length targets)
                else 0)) /\
     (step_ (self_tester w) < Z.of_nat (length targets) ->
      100 * step_ (self_tester w) / Z.of_nat (length targets)
      <= 100 * (Z.of_nat (length targets) - 1) / Z.of_nat (length targets)) /\
     (step_ (self_tester w) = Z.of_nat (length targets) ->
      100 * step_ (self_tester w) / Z.of_nat (length targets) = 100 /\
      (active_ (self_tester w) = true ->
       exists w',
         SelfTester.step w = Some (false, w', []) /\
         active_ (self_tester w') = false /\
         step_ (self_tester w') = Z.of_nat (length targets)))).
Proof.
  intros Hpos Hfit. split.
  - destruct (run_ok targets dht clock l) as (w & out & E & Hw & Hs).
    exists w, out. split; [exact E|].
    destruct Hw as (_ & (Htgs & Hstep) & _).
    destruct Hs as (_ & Hlines & _). rewrite Forall_forall in Hlines.
    split; [exact Htgs|]. split; [exact Hstep|]. split.
    + intros Hin. destruct (Hlines _ Hin) as [Hne _]. apply Hne. reflexivity.
    + intros p Hin. destruct (Hlines _ Hin) as [_ Hp].
      destruct (Hp p eq_refl) as (t & (Ht & Hk) & Ha & ->).
      assert (Hsize : SelfTester.size t = Z.of_nat (length targets))
        by (unfold SelfTester.size; rewrite Ht; reflexivity).
      exists (step_ t). split; [exact Hk|].
      rewrite progress_exact by (rewrite ?Hsize; assumption).
      rewrite Hsize. split; [reflexivity|].
      intros Hlt. apply progress_below_end; assumption.
  - intros w Htgs Hstep.
    assert (Hsize : SelfTester.size (self_tester w) = Z.of_nat (length targets))
      by (unfold SelfTester.size; rewrite Htgs; reflexivity).
    split; [|split].
    + change (handle_request (GET_request NOUN_SELF_TEST) w)
        with (print_self_test w).
      rewrite print_self_test_report.
      destruct (active_ (self_tester w)) eqn:Ha.
      * rewrite progress_exact by (rewrite ?Hsize; assumption).
        rewrite Hsize. reflexivity.
      * rewrite progress_inactive by exact Ha. reflexivity.
    + intros Hlt. apply progress_below_end; assumption.
    + intros Hend. split.
      * rewrite Hend. apply progress_at_end, Hpos.
      * intros Ha.
        destruct (step_at_end w Ha) as (w' & Estep & Hoff & Hsame);
          [congruence|].
        exists w'. split; [exact Estep|]. split; [exact Hoff|]. congruence.
Qed.

Lemma C2_self_test_reports_witness :
  (exists w out,
     run restarted_self_test (boot self_tester_targets dht_ok clock_500)
     = Some (tt, w, out) /\
     targets_ (self_tester w) = self_tester_targets /\
     0 <= step_ (self_tester w) <= Z.of_nat (length self_tester_targets) /\
     (self_test_report false 100 ∉ lines_of out) /\
     (forall p, self_test_report true p ∈ lines_of out ->
        exists k,
          0 <= k <= Z.of_nat (length self_tester_targets) /\
          p = 100 * k / Z.of_nat (length self_tester_targets) /\
          (k < Z.of_nat (length self_tester_targets) ->
           p <= 100 * (Z.of_nat (length self_tester_targets) - 1)
                / Z.of_nat (length self_tester_targets)))) /\
  (forall w : World,
     targets_ (self_tester w) = self_tester_targets ->
     0 <= step_ (self_tester w) <= Z.of_nat (length self_tester_targets) ->
     handle_request (GET_request NOUN_SELF_TEST) w
     = Some (tt, w,
             self_test_report (active_ (self_tester w))
               (if active_ (self_tester w)
                then 100 * step_ (self_tester w)
                     / Z.of_nat (length self_tester_targets)
                else 0)) /\
     (step_ (self_tester w) < Z.of_nat (length self_tester_targets) ->
      100 * step_ (self_tester w) / Z.of_nat (length self_tester_targets)
      <= 100 * (Z.of_nat (length self_tester_targets) - 1)
         / Z.of_nat (length self_tester_targets)) /\
     (step_ (self_tester w) = Z.of_nat (length self_tester_targets) ->
      100 * step_ (self_tester w) / Z.of_nat (length self_tester_targets) = 100 /\
      (active_ (self_tester w) = true ->
       exists w',
         SelfTester.step w = Some (false, w', []) /\
         active_ (self_tester w') = false /\
         step_ (self_tester w') = Z.of_nat (length self_tester_targets)))).
Proof.
  apply (C2_self_test_reports self_tester_targets dht_ok clock_500
           restarted_self_test); vm_compute; reflexivity.
Defined.

(** C6: the line [GET FOO] is answered with two lines, the first of which
    is neither [OK ...] nor [ERR ...]: [parse_into] prints the unknown noun
    before the dispatcher prints its error. *)
Theorem C6_unknown_noun_two_lines :
  log_of (run [arrival "GET FOO"]) power_up
    = Some [Print (PStr "Failed to find noun ["); Print (PStr "FOO");
            Println (PStr "]"); Println (PStr "ERR BAD_NOUN")] /\
  bytes_of (run [arrival "GET FOO"]) power_up
    = Some (crlf "Failed to find noun [FOO]" ++ crlf "ERR BAD_NOUN")%string /\
  (fun out => length (lines_of out)) <$> log_of (run [arrival "GET FOO"]) power_up
    = Some 2%nat.
Proof. repeat split; vm_compute; reflexivity. Qed.

(** C9: [parse_into] leaves the status of the request as it was, so from
    power-up the request of [loop] keeps [STATUS_OK] and the log never
    holds the line [ERR BAD_SYNTAX]. *)
Theorem C9_bad_syntax_never_emitted (targets : list Target) (dht : DHTesp)
    (clock : nat -> Z) (l : list Arrival) :
  (forall (text : list ascii) (r : Request) (w : World),
     exists r' out,
       RequestParser.parse_text text r w = Some ((true, r'), w, out) /\
       req_status r' = req_status r) /\
  (forall (r : Request) (w : World),
     pending_request_ (parser w) = false ->
     RequestParser.parse_into r w = Some ((false, r), w, [])) /\
  exists w out,
    run l (boot targets dht clock) = Some (tt, w, out) /\
    req_status (request w) = STATUS_OK /\
    Println (PStr "ERR BAD_SYNTAX") ∉ out.
Proof.
  split; [|split].
  - intros text r w.
    destruct (parse_text_total text r w) as (r' & out & E & Hr & _).
    exists r', out. auto.
  - intros r w Hp. apply parse_into_idle, Hp.
  - destruct (run_ok targets dht clock l) as (w & out & E & Hw & Hs).
    exists w, out. split; [exact E|]. split; [apply Hw|apply Hs].
Qed.

(** * Further properties *)

(** ** ClampedInt and the dispatcher *)

(** X1: clamping is idempotent and monotone when the range is not empty. *)
Theorem X1_clamped_idempotent_monotone (MIN_V MAX_V x y : Z) :
  MIN_V <= MAX_V ->
  ClampedInt.clamped MIN_V MAX_V (ClampedInt.clamped MIN_V MAX_V x)
  = ClampedInt.clamped MIN_V MAX_V x /\
  (x <= y ->
   ClampedInt.clamped MIN_V MAX_V x <= ClampedInt.clamped MIN_V MAX_V y).
Proof.
  intros H. unfold ClampedInt.clamped.
  destruct (Z.gtb_spec x MAX_V), (Z.ltb_spec x MIN_V),
    (Z.gtb_spec y MAX_V), (Z.ltb_spec y MIN_V);
    repeat match goal with
           | |- context [?a >? ?b] => destruct (Z.gtb_spec a b)
           | |- context [?a <? ?b] => destruct (Z.ltb_spec a b)
           end; split; lia.
Qed.

Lemma X1_clamped_idempotent_monotone_witness :
  ClampedInt.clamped 0 1023 (ClampedInt.clamped 0 1023 2000)
  = ClampedInt.clamped 0 1023 2000 /\
  (2000 <= 3000 ->
   ClampedInt.clamped 0 1023 2000 <= ClampedInt.clamped 0 1023 3000).
Proof. apply (X1_clamped_idempotent_monotone 0 1023 2000 3000). lia. Defined.

(** X2: a request that is not a SET, and any request answered with an
    error, leaves the whole world as it was. *)
Theorem X2_only_accepted_SET_changes_world (r : Request) (w w' : World)
    (out : list Event) :
  handle_request r w = Some (tt, w', out) ->
  verb r <> VERB_SET \/ is_error out ->
  w' = w.
Proof.
  destruct r as [st vb nn vl vi]. unfold handle_request; simpl.
  destruct st; simpl; [|intros [= <- _]; reflexivity].
  destruct vb; simpl; try (intros [= <- _]; reflexivity).
  - destruct nn; simpl; intros [= <- _]; reflexivity.
  - destruct vl; simpl; try (intros [= <- _]; reflexivity).
    destruct nn; simpl; intros [= <- _]; reflexivity.
  - intros H [Hv|[code ->]]; [congruence|]. revert H.
    destruct vl; simpl; try (intros [= <- _]; reflexivity).
    destruct nn; simpl; try (intros [= <- _]; reflexivity);
      try (intros H; discriminate H).
    destruct ((vi <? 0) || (vi >? 1)); [intros [= <- _]; reflexivity|].
    unfold mbind, Eff_bind, bind.
    destruct ((if negb (vi =? 0) then SelfTester.start else SelfTester.stop) w)
      as [[[[] w1] out1]|]; [|discriminate].
    rewrite print_self_test_report. unfold self_test_report.
    intros H. exfalso. injection H as _ H.
    destruct out1 as [|e [|e' o]]; simpl in H; discriminate H.
Qed.

Lemma X2_only_accepted_SET_changes_world_witness :
  handle_request (GET_request NOUN_SERVO) power_up
  = Some (tt, power_up, [Print (PStr "OK "); Println (PInt 90)]) /\
  power_up = power_up.
Proof.
  split; [reflexivity|].
  apply (X2_only_accepted_SET_changes_world (GET_request NOUN_SERVO)
           power_up power_up [Print (PStr "OK "); Println (PInt 90)]).
  - reflexivity.
  - left. discriminate.
Defined.


(** ** The sensor snapshot *)

(** X4: while the minimum sampling period of the driver has not elapsed
    since the snapshot was taken, [read] changes nothing but the count of
    clock readings, so a GET TEMP_AND_HUM is answered from the old
    snapshot. *)
Theorem X4_read_rate_limited (w : World) :
  too_early w = true ->
  exists w',
    State.read w = Some (tt, w', []) /\
    state w' = state w /\ self_tester w' = self_tester w /\
    parser w' = parser w /\ request w' = request w /\
    serial_rx w' = serial_rx w /\ pwm w' = pwm w /\
    log_of (handle_request (GET_request NOUN_TEMP_AND_HUM)) w'
    = log_of (handle_request (GET_request NOUN_TEMP_AND_HUM)) w.
Proof.
  intros H. unfold too_early, next_millis in H.
  unfold State.read, mbind, Eff_bind, bind. simpl. rewrite H.
  eexists. split; [reflexivity|]. repeat split.
Qed.

(** X5: once the period has elapsed, [read] takes the time and the status
    string from the driver; when the driver reports a failure, the
    temperature and the humidity of the snapshot are zero, whatever the
    driver returns for them, and GET TEMP_AND_HUM prints the status and two
    zeros. *)
Theorem X5_failed_read_clears_readings (w : World) :
  too_early w = false ->
  getStatus_is_ERROR_NONE (dht_ (state w)) = false ->
  exists w',
    State.read w = Some (tt, w', []) /\
    sensor (state w')
    = MkTempSensorValue (next_millis w) (getStatusString (dht_ (state w)))
        float_zero float_zero /\
    log_of (handle_request (GET_request NOUN_TEMP_AND_HUM)) w'
    = Some [Print (PStr "OK "); Print (PStr (getStatusString (dht_ (state w))));
            Print (PStr " "); Print (PFloat float_zero); Print (PStr " ");
            Println (PFloat float_zero)].
Proof.
  intros H Hfail. unfold too_early, next_millis in H.
  unfold State.read, mbind, Eff_bind, bind. simpl. rewrite H, Hfail.
  eexists. split; [reflexivity|]. split; reflexivity.
Qed.


Lemma X4_read_rate_limited_witness :
  exists w',
    State.read power_up = Some (tt, w', []) /\
    state w' = state power_up /\ self_tester w' = self_tester power_up /\
    parser w' = parser power_up /\ request w' = request power_up /\
    serial_rx w' = serial_rx power_up /\ pwm w' = pwm power_up /\
    log_of (handle_request (GET_request NOUN_TEMP_AND_HUM)) w'
    = log_of (handle_request (GET_request NOUN_TEMP_AND_HUM)) power_up.
Proof. apply (X4_read_rate_limited power_up). vm_compute. reflexivity. Defined.

Lemma X5_failed_read_clears_readings_witness :
  exists w',
    State.read sensor_down = Some (tt, w', []) /\
    sensor (state w')
    = MkTempSensorValue (next_millis sensor_down)
        (getStatusString (dht_ (state sensor_down))) float_zero float_zero /\
    log_of (handle_request (GET_request NOUN_TEMP_AND_HUM)) w'
    = Some [Print (PStr "OK ");
            Print (PStr (getStatusString (dht_ (state sensor_down))));
            Print (PStr " "); Print (PFloat float_zero); Print (PStr " ");
            Println (PFloat float_zero)].
Proof.
  apply (X5_failed_read_clears_readings sensor_down); vm_compute; reflexivity.
Defined.


(** ** The sequencer *)

(** The three ways a call of [step] ends: nothing to do or not yet time,
    the list is finished and the sequencer stops, or one step is taken. *)
Lemma step_cases (w : World) (b : bool) (w' : World) (out : list Event) :
  SelfTester.step w = Some (b, w', out) ->
  let t := self_tester w in
  out = [] /\ parser w' = parser w /\ request w' = request w /\
  serial_rx w' = serial_rx w /\ millis_source w' = millis_source w /\
  targets_ (self_tester w') = targets_ t /\
  ((b = false /\ state w' = state w /\ pwm w' = pwm w /\
    self_tester w' = t /\
    (active_ t = false \/
     (step_ t < SelfTester.size t /\ next_millis w < next_step_timestamp_ t)))
   \/
   (b = false /\ state w' = state w /\ pwm w' = pwm w /\
    active_ t = true /\ SelfTester.size t <= step_ t /\
    self_tester w' =
      MkSelfTester (targets_ t) false (step_ t) (next_step_timestamp_ t))
   \/
   (b = true /\ active_ t = true /\ step_ t < SelfTester.size t /\
    next_step_timestamp_ t <= next_millis w /\
    exists target,
      targets_ t !! Z.to_nat (step_ t) = Some target /\
      state w' = state_with_target target (state w) /\
      pwm w' = pwm_with_target target (pwm w) /\
      self_tester w' =
        MkSelfTester (targets_ t) true (wrap32 (step_ t + 1))
          (wrap32 (next_step_timestamp_ t + wait_ms target
                   + 2 * (next_millis w - next_step_timestamp_ t))))).
Proof.
  destruct w as [s t p r src calls rx pw].
  destruct t as [targets active stp next].
  unfold next_millis. simpl.
  unfold SelfTester.step, mbind, Eff_bind, bind; simpl.
  destruct active; simpl.
  2: { intros [= <- <- <-]. repeat split. left. repeat split. left. reflexivity. }
  destruct (Z.geb_spec stp (SelfTester.size (MkSelfTester targets true stp next)))
    as [Hge|Hlt]; simpl.
  { intros [= <- <- <-]. repeat split. right. left. repeat split. lia. }
  destruct (Z.ltb_spec (wrap32 (src calls)) next) as [Hl|Hl]; simpl.
  { intros [= <- <- <-]. repeat split. left. repeat split. right. split; assumption. }
  destruct (targets !! Z.to_nat stp) as [target|] eqn:Hlook; simpl;
    [|discriminate].
  intros [= <- <- <-]. repeat split. right. right.
  repeat split; try assumption.
  exists target. split; [reflexivity|]. split; [reflexivity|].
  split; [reflexivity|]. rewrite late_deadline. reflexivity.
Qed.

(** X6: the three ways in which [step] takes no step; in each it returns
    false, prints nothing and leaves the state, the pins, the parser, the
    request and the receive queue as they were.  On an inactive sequencer
    it changes nothing at all.  On an active sequencer whose cursor is
    within the list and whose deadline lies ahead, only a clock reading is
    consumed.  On an active sequencer whose cursor is at the end of the
    list it clears the active flag, wherever the deadline lies and without
    reading the clock, and changes nothing else. *)
Theorem X6_step_idle (w : World) :
  (active_ (self_tester w) = false ->
   SelfTester.step w = Some (false, w, [])) /\
  (active_ (self_tester w) = true ->
   step_ (self_tester w) < SelfTester.size (self_tester w) ->
   next_millis w < next_step_timestamp_ (self_tester w) ->
   exists now w',
     millis w = Some (now, w', []) /\
     SelfTester.step w = Some (false, w', [])) /\
  (active_ (self_tester w) = true ->
   SelfTester.size (self_tester w) <= step_ (self_tester w) ->
   SelfTester.step w
   = Some (false,
           MkWorld (state w)
             (MkSelfTester (targets_ (self_tester w)) false
                (step_ (self_tester w)) (next_step_timestamp_ (self_tester w)))
             (parser w) (request w) (millis_source w) (millis_calls w)
             (serial_rx w) (pwm w),
           [])).
Proof.
  destruct w as [s t p r src calls rx pw].
  destruct t as [targets active stp next].
  unfold next_millis. simpl.
  unfold SelfTester.step, mbind, Eff_bind, bind; simpl.
  split; [|split].
  - intros ->. reflexivity.
  - intros -> Hlt Hearly. simpl.
    destruct (Z.geb_spec stp (SelfTester.size (MkSelfTester targets true stp next)))
      as [Hge|_]; [lia|]. simpl.
    destruct (Z.ltb_spec (wrap32 (src calls)) next) as [_|Hl]; [|lia]. simpl.
    eexists _, _. split; reflexivity.
  - intros -> Hend. simpl.
    destruct (Z.geb_spec stp (SelfTester.size (MkSelfTester targets true stp next)))
      as [_|Hlt]; [|lia]. reflexivity.
Qed.

Lemma X6_step_idle_witness :
  SelfTester.step power_up = Some (false, power_up, []) /\
  (exists now w',
     millis early_world = Some (now, w', []) /\
     SelfTester.step early_world = Some (false, w', [])) /\
  SelfTester.step finished_world
  = Some (false,
          MkWorld (state finished_world)
            (MkSelfTester self_tester_targets false 5 1000000)
            (parser finished_world) (request finished_world)
            (millis_source finished_world) (millis_calls finished_world)
            (serial_rx finished_world) (pwm finished_world),
          []).
Proof.
  split; [|split].
  - destruct (X6_step_idle power_up) as (H & _ & _). apply H. reflexivity.
  - destruct (X6_step_idle early_world) as (_ & H & _).
    apply H; vm_compute; reflexivity.
  - destruct (X6_step_idle finished_world) as (_ & _ & H).
    apply H; vm_compute; [reflexivity|discriminate].
Defined.

(** X7: a due step on an active sequencer takes exactly one step: the
    cursor advances by one, the four values of the target at the cursor,
    clamped, are stored in the state and handed to the drivers, nothing is
    printed, and the parser, the request and the receive queue are left
    alone. *)
Theorem X7_step_takes_one_step (w : World) :
  active_ (self_tester w) = true ->
  0 <= step_ (self_tester w) < SelfTester.size (self_tester w) ->
  SelfTester.size (self_tester w) < 2 ^ 32 ->
  next_step_timestamp_ (self_tester w) <= next_millis w ->
  exists target w',
    targets_ (self_tester w) !! Z.to_nat (step_ (self_tester w)) = Some target /\
    SelfTester.step w = Some (true, w', []) /\
    step_ (self_tester w') = step_ (self_tester w) + 1 /\
    active_ (self_tester w') = true /\
    (forall nn, is_actuator nn = true ->
       actuator_value nn (state w')
       = ClampedInt.clamped 0 (actuator_MAX nn) (target_value nn target) /\
       driven_value nn w' = Some (actuator_value nn (state w'))) /\
    sensor (state w') = sensor (state w) /\
    parser w' = parser w /\ request w' = request w /\
    serial_rx w' = serial_rx w.
Proof.
  intros Hactive Hstep Hsize Hdue.
  destruct (lookup_lt_is_Some_2 (targets_ (self_tester w))
              (Z.to_nat (step_ (self_tester w)))) as [target Hlook].
  { unfold SelfTester.size in Hstep. lia. }
  destruct (step_due w target Hactive Hlook (proj2 Hstep) Hdue)
    as (w' & Estep & Htester & Hp & Hr & Hrx & _).
  pose proof (step_cases w true w' [] Estep) as (_ & _ & _ & _ & _ & _ & Hcases).
  destruct Hcases as [(? & _)|[(? & _)|(_ & _ & _ & _ & target' & Hlook' & Hs & Hpwm & _)]];
    try discriminate.
  assert (target' = target) as -> by congruence.
  exists target, w'. split; [exact Hlook|]. split; [exact Estep|].
  rewrite Htester. simpl.
  split; [apply wrap32_small; lia|]. split; [reflexivity|].
  split; [|rewrite Hs; auto].
  intros nn Hnn. rewrite Hs.
  destruct nn; try discriminate; simpl; (split; [reflexivity|]);
    rewrite ?Hpwm; unfold pwm_with_target, State.RED_PIN, State.YELLOW_PIN,
      State.GREEN_PIN, D3, D6, D7.
  - rewrite !lookup_insert_ne by discriminate. apply lookup_insert_eq.
  - rewrite lookup_insert_ne by discriminate. apply lookup_insert_eq.
  - apply lookup_insert_eq.
  - rewrite Hs. reflexivity.
Qed.


Lemma X7_step_takes_one_step_witness :
  exists target w',
    targets_ (self_tester late_world) !! Z.to_nat (step_ (self_tester late_world))
    = Some target /\
    SelfTester.step late_world = Some (true, w', []) /\
    step_ (self_tester w') = step_ (self_tester late_world) + 1 /\
    active_ (self_tester w') = true /\
    (forall nn, is_actuator nn = true ->
       actuator_value nn (state w')
       = ClampedInt.clamped 0 (actuator_MAX nn) (target_value nn target) /\
       driven_value nn w' = Some (actuator_value nn (state w'))) /\
    sensor (state w') = sensor (state late_world) /\
    parser w' = parser late_world /\ request w' = request late_world /\
    serial_rx w' = serial_rx late_world.
Proof.
  apply (X7_step_takes_one_step late_world).
  - reflexivity.
  - vm_compute. split; [discriminate|reflexivity].
  - vm_compute. reflexivity.
  - vm_compute. discriminate.
Defined.

(** X8: the progress of a sequencer that stays active never goes down at a
    call of [step], and it is [100 * step / n] rounded down; an inactive
    sequencer and an empty list report 0, so nothing is divided by zero. *)
Theorem X8_progress_monotone (w w' : World) (b : bool) (out : list Event) :
  let t := self_tester w in
  0 <= step_ t <= SelfTester.size t ->
  100 * SelfTester.size t < 2 ^ 32 ->
  SelfTester.step w = Some (b, w', out) ->
  (active_ t = false \/ SelfTester.size t = 0 -> SelfTester.progress t = 0) /\
  (active_ t = true -> 0 < SelfTester.size t ->
   SelfTester.progress t = 100 * step_ t / SelfTester.size t) /\
  (active_ (self_tester w') = true ->
   SelfTester.progress t <= SelfTester.progress (self_tester w')).
Proof.
  intros t Hstep Hfit Estep. split; [|split].
  - intros [Ha|Hz]; unfold SelfTester.progress.
    + rewrite Ha. reflexivity.
    + rewrite Hz, orb_true_r. reflexivity.
  - intros Ha Hpos. apply progress_exact; assumption.
  - intros Ha'.
    pose proof (step_cases w b w' out Estep) as (_ & _ & _ & _ & _ & _ & Hcases).
    fold t in Hcases.
    destruct Hcases as [(_ & _ & _ & -> & _)
                       |[(_ & _ & _ & _ & _ & Hstop)
                        |(_ & Ha & Hlt & _ & target & _ & _ & _ & Hnext)]].
    + lia.
    + rewrite Hstop in Ha'. discriminate.
    + assert (Hpos : 0 < SelfTester.size t) by lia.
      rewrite (progress_exact t) by (auto; lia).
      assert (Hsize : SelfTester.size (self_tester w') = SelfTester.size t)
        by (rewrite Hnext; reflexivity).
      rewrite (progress_exact (self_tester w')); rewrite ?Hsize; auto;
        rewrite Hnext; simpl; rewrite ?wrap32_small by lia; try lia.
      apply Z.div_le_mono; lia.
Qed.

Lemma X8_progress_monotone_witness :
  exists w',
    SelfTester.step late_world = Some (true, w', []) /\
    (active_ (self_tester w') = true ->
     SelfTester.progress (self_tester late_world)
     <= SelfTester.progress (self_tester w')).
Proof.
  destruct (SelfTester.step late_world) as [[[b w'] out]|] eqn:E;
    [|vm_compute in E; discriminate E].
  assert (Hb : b = true /\ out = []).
  { vm_compute in E. injection E as <- _ <-. split; reflexivity. }
  destruct Hb as [-> ->].
  exists w'. split; [reflexivity|].
  apply (X8_progress_monotone late_world w' true []).
  - vm_compute. split; discriminate.
  - vm_compute. reflexivity.
  - exact E.
Defined.


Lemma progress_at_start (targets : list Target) (next : Z) :
  SelfTester.progress (MkSelfTester targets true 0 next) = 0.
Proof.
  unfold SelfTester.progress. simpl.
  destruct (SelfTester.size _ =? 0); [reflexivity|].
  change (wrap32 (100 * 0)) with 0. rewrite Zdiv_0_l. reflexivity.
Qed.

(** X9: SET SELF_TEST 1 on an inactive sequencer restarts it from the first
    step, with the clock reading as deadline, and answers [OK ACTIVE 0]; on
    an active sequencer it changes nothing and answers with the current
    progress.  SET SELF_TEST 0 always answers [OK INACTIVE 0] and keeps the
    cursor.  Any other value is answered [ERR BAD_VALUE]. *)
Theorem X9_self_test_switch (w : World) (x : Z) :
  let t := self_tester w in
  (exists w',
     handle_request (SET_request NOUN_SELF_TEST 1) w
     = Some (tt, w',
             self_test_report true
               (if active_ t then SelfTester.progress t else 0)) /\
     self_tester w'
     = (if active_ t then t
        else MkSelfTester (targets_ t) true 0 (next_millis w)) /\
     state w' = state w /\ pwm w' = pwm w) /\
  (exists w',
     handle_request (SET_request NOUN_SELF_TEST 0) w
     = Some (tt, w', self_test_report false 0) /\
     active_ (self_tester w') = false /\
     step_ (self_tester w') = step_ t /\
     targets_ (self_tester w') = targets_ t /\
     state w' = state w /\ pwm w' = pwm w) /\
  (x <> 0 -> x <> 1 ->
   handle_request (SET_request NOUN_SELF_TEST x) w
   = Some (tt, w, [Println (PStr "ERR BAD_VALUE")])).
Proof.
  destruct w as [s t p r src calls rx pw].
  destruct t as [targets active stp next].
  unfold next_millis. simpl. split; [|split].
  - unfold handle_request, SelfTester.start, print_self_test, mbind, Eff_bind, bind.
    simpl. destruct active; simpl.
    + eexists. split; [reflexivity|]. repeat split.
    + rewrite progress_at_start. eexists. split; [reflexivity|]. repeat split.
  - unfold handle_request, SelfTester.stop, print_self_test, mbind, Eff_bind, bind.
    simpl. destruct active; simpl; eexists; (split; [reflexivity|]); repeat split.
  - intros H0 H1. unfold handle_request. simpl.
    destruct (Z.ltb_spec x 0); simpl; [reflexivity|].
    destruct (Z.gtb_spec x 1); simpl; [reflexivity|]. lia.
Qed.

Lemma X9_self_test_switch_witness :
  handle_request (SET_request NOUN_SELF_TEST 2) power_up
  = Some (tt, power_up, [Println (PStr "ERR BAD_VALUE")]).
Proof.
  apply (X9_self_test_switch power_up 2); discriminate.
Defined.


(** ** The drivers *)

Lemma preserves_bind {A B : Type} (I : World -> Prop) (m : Eff A) (k : A -> Eff B) :
  preserves I m -> (forall a, preserves I (k a)) -> preserves I (m ≫= k).
Proof.
  intros Hm Hk w b w' out E HI.
  unfold mbind, Eff_bind, bind in E.
  destruct (m w) as [[[a w1] out1]|] eqn:Em; [|discriminate].
  destruct (k a w1) as [[[b' w2] out2]|] eqn:Ek; [|discriminate].
  injection E as <- <- <-.
  eapply Hk; [exact Ek|]. eapply Hm; [exact Em|exact HI].
Qed.

Lemma preserves_get_world {B : Type} (I : World -> Prop) (k : World -> Eff B) :
  (forall w0, preserves I (k w0)) -> preserves I (get_world ≫= k).
Proof.
  intros Hk. apply preserves_bind; [|exact Hk].
  intros w a w' out [= <- <- <-] HI. exact HI.
Qed.

Lemma preserves_ret {A : Type} (I : World -> Prop) (a : A) : preserves I (ret a).
Proof. intros w a' w' out [= <- <- <-] HI. exact HI. Qed.

(** The invariant reads the four values, the angle written and the pins. *)
Lemma hardware_frame (w w' : World) :
  red (state w') = red (state w) -> yellow (state w') = yellow (state w) ->
  green (state w') = green (state w) -> servo (state w') = servo (state w) ->
  servo_written (servo_ (state w')) = servo_written (servo_ (state w)) ->
  pwm w' = pwm w ->
  hardware_ok w -> hardware_ok w'.
Proof.
  destruct w as [[d [a sw] r y g sv se] t p rq src calls rx pw].
  destruct w' as [[d' [a' sw'] r' y' g' sv' se'] t' p' rq' src' calls' rx' pw'].
  simpl. intros -> -> -> -> -> ->. intros H. exact H.
Qed.

Ltac frame_step :=
  let w := fresh "w" in let a := fresh "a" in let w' := fresh "w'" in
  let out := fresh "out" in let E := fresh "E" in
  intros w a w' out E; injection E as <- <- <-;
  apply hardware_frame; reflexivity.

Lemma millis_keeps_hardware : preserves hardware_ok millis.
Proof. frame_step. Qed.

Lemma set_serial_rx_keeps_hardware rx : preserves hardware_ok (set_serial_rx rx).
Proof. frame_step. Qed.

Lemma set_parser_keeps_hardware p : preserves hardware_ok (set_parser p).
Proof. frame_step. Qed.

Lemma set_request_keeps_hardware r : preserves hardware_ok (set_request r).
Proof. frame_step. Qed.

Lemma environment_keeps_hardware a : preserves hardware_ok (environment a).
Proof. frame_step. Qed.

Lemma state_setup_keeps_hardware : preserves hardware_ok State.setup.
Proof. frame_step. Qed.

Lemma read_keeps_hardware : preserves hardware_ok State.read.
Proof.
  intros w a w' out E. unfold State.read, mbind, Eff_bind, bind in E.
  simpl in E.
  match type of E with context [if ?b then _ else _] => destruct b end;
    injection E as <- <- <-; apply hardware_frame; reflexivity.
Qed.

Lemma start_keeps_hardware : preserves hardware_ok SelfTester.start.
Proof.
  intros w a w' out E. unfold SelfTester.start, mbind, Eff_bind, bind in E.
  simpl in E. destruct (active_ (self_tester w));
    injection E as <- <- <-; apply hardware_frame; reflexivity.
Qed.

Lemma stop_keeps_hardware : preserves hardware_ok SelfTester.stop.
Proof.
  intros w a w' out E. unfold SelfTester.stop, mbind, Eff_bind, bind in E.
  simpl in E. destruct (active_ (self_tester w));
    injection E as <- <- <-; apply hardware_frame; reflexivity.
Qed.

Lemma print_self_test_keeps_hardware : preserves hardware_ok print_self_test.
Proof.
  intros w a w' out E. rewrite print_self_test_report in E.
  injection E as <- <- <-. auto.
Qed.

Lemma parse_into_keeps_hardware r : preserves hardware_ok (RequestParser.parse_into r).
Proof.
  intros w a w' out E.
  unfold RequestParser.parse_into, mbind, Eff_bind, bind in E. simpl in E.
  destruct (negb (RequestParser.pending (parser w))).
  - injection E as <- <- <-. auto.
  - destruct (c_str (buffer_ (parser w))) as [text|]; [|discriminate].
    match type of E with
    | context [RequestParser.parse_text text r ?w0] =>
        destruct (parse_text_total text r w0) as (r' & out' & Et & _);
        rewrite Et in E
    end.
    injection E as <- <- <-. apply hardware_frame; reflexivity.
Qed.


(** After [write] every driver holds the value of the state. *)
Lemma hardware_after_write (w0 w : World) :
  values_ok (state w) ->
  pins_ok (pwm w0) ->
  servo_written (servo_ (state w)) = Some (ClampedInt.get (servo (state w))) ->
  pwm w = <[State.GREEN_PIN := ClampedInt.get (green (state w))]>
            (<[State.YELLOW_PIN := ClampedInt.get (yellow (state w))]>
               (<[State.RED_PIN := ClampedInt.get (red (state w))]> (pwm w0))) ->
  hardware_ok w.
Proof.
  intros Hv Hp Hs Hpwm. split; [exact Hv|]. split.
  - intros pin v. rewrite Hpwm.
    rewrite !lookup_insert_Some.
    intros [[<- <-]|[_ [[<- <-]|[_ [[<- <-]|[_ H]]]]]].
    + split; [set_solver|]. apply (Hv NOUN_GREEN_LED eq_refl).
    + split; [set_solver|]. apply (Hv NOUN_YELLOW_LED eq_refl).
    + split; [set_solver|]. apply (Hv NOUN_RED_LED eq_refl).
    + apply Hp, H.
  - right. intros nn Hnn. destruct nn; try discriminate; simpl; rewrite ?Hpwm.
    + unfold State.RED_PIN, State.YELLOW_PIN, State.GREEN_PIN, D3, D6, D7.
      rewrite !lookup_insert_ne by discriminate. apply lookup_insert_eq.
    + unfold State.RED_PIN, State.YELLOW_PIN, State.GREEN_PIN, D3, D6, D7.
      rewrite lookup_insert_ne by discriminate. apply lookup_insert_eq.
    + apply lookup_insert_eq.
    + exact Hs.
Qed.

Lemma values_ok_assign (s s' : TestBoxState) (nn : Noun) (x : Z) :
  values_ok s ->
  is_actuator nn = true ->
  actuator_value nn s' = ClampedInt.clamped 0 (actuator_MAX nn) x ->
  (forall n', n' <> nn -> actuator_value n' s' = actuator_value n' s) ->
  values_ok s'.
Proof.
  intros Hv Hnn Hnew Hold n' Hn'.
  destruct (decide (n' = nn)) as [->|Hne].
  - rewrite Hnew. apply clamped_range. destruct nn; simpl; lia.
  - rewrite Hold by exact Hne. apply Hv, Hn'.
Qed.

Lemma step_keeps_hardware : preserves hardware_ok SelfTester.step.
Proof.
  intros w b w' out E H.
  pose proof (step_cases w b w' out E) as (_ & _ & _ & _ & _ & _ & Hcases).
  destruct Hcases as [(_ & Hs & Hp & _)|[(_ & Hs & Hp & _)
                     |(_ & _ & _ & _ & target & _ & Hs & Hp & _)]].
  - revert H. apply hardware_frame; rewrite ?Hs, ?Hp; reflexivity.
  - revert H. apply hardware_frame; rewrite ?Hs, ?Hp; reflexivity.
  - destruct H as (_ & Hpins & _).
    apply (hardware_after_write w w'); rewrite ?Hs, ?Hp; try reflexivity;
      [|exact Hpins].
    intros nn Hnn. destruct nn; try discriminate; simpl;
      apply clamped_range; lia.
Qed.

Lemma handle_request_keeps_hardware r : preserves hardware_ok (handle_request r).
Proof.
  intros w a w' out E H.
  destruct (decide (verb r = VERB_SET /\ value r = VALUE_OK /\
                    req_status r = STATUS_OK)) as [(Hv & Hvl & Hst)|Hno].
  - destruct r as [st vb nn vl vi]. simpl in Hv, Hvl, Hst. subst.
    unfold handle_request in E. simpl in E.
    destruct H as (Hval & Hpins & Hm).
    destruct nn; simpl in E;
      try (injection E as <- <- <-; split; [exact Hval|split; [exact Hpins|exact Hm]]).
    + injection E as <- <- <-.
      apply (hardware_after_write w); try reflexivity; [|exact Hpins].
      eapply (values_ok_assign (state w)) with (nn := NOUN_RED_LED) (x := vi);
        [exact Hval|reflexivity|reflexivity|].
      intros n' Hn'. destruct n'; try reflexivity; congruence.
    + injection E as <- <- <-.
      apply (hardware_after_write w); try reflexivity; [|exact Hpins].
      eapply (values_ok_assign (state w)) with (nn := NOUN_YELLOW_LED) (x := vi);
        [exact Hval|reflexivity|reflexivity|].
      intros n' Hn'. destruct n'; try reflexivity; congruence.
    + injection E as <- <- <-.
      apply (hardware_after_write w); try reflexivity; [|exact Hpins].
      eapply (values_ok_assign (state w)) with (nn := NOUN_GREEN_LED) (x := vi);
        [exact Hval|reflexivity|reflexivity|].
      intros n' Hn'. destruct n'; try reflexivity; congruence.
    + injection E as <- <- <-.
      apply (hardware_after_write w); try reflexivity; [|exact Hpins].
      eapply (values_ok_assign (state w)) with (nn := NOUN_SERVO) (x := vi);
        [exact Hval|reflexivity|reflexivity|].
      intros n' Hn'. destruct n'; try reflexivity; congruence.
    + destruct ((vi <? 0) || (vi >? 1)).
      { injection E as <- <- <-. split; [exact Hval|split; [exact Hpins|exact Hm]]. }
      refine (preserves_bind hardware_ok _ _ _ _ w a w' out E _).
      * destruct (negb (vi =? 0)); [apply start_keeps_hardware|apply stop_keeps_hardware].
      * intros _. apply print_self_test_keeps_hardware.
      * split; [exact Hval|split; [exact Hpins|exact Hm]].
  - assert (w' = w) as ->; [|exact H].
    destruct r as [st vb nn vl vi]. simpl in Hno.
    unfold handle_request in E. simpl in E.
    destruct st; simpl in E; [|injection E as <- <- <-; reflexivity].
    destruct vb; simpl in E; try (injection E as <- <- <-; reflexivity).
    + destruct nn; simpl in E; injection E as <- <- <-; reflexivity.
    + destruct vl; simpl in E; try (injection E as <- <- <-; reflexivity).
      destruct nn; simpl in E; injection E as <- <- <-; reflexivity.
    + destruct vl; simpl in E; try (injection E as <- <- <-; reflexivity).
      tauto.
Qed.


Lemma loop_keeps_hardware : preserves hardware_ok loop.
Proof.
  unfold loop.
  apply preserves_bind; [apply millis_keeps_hardware|]. intros _.
  apply preserves_bind; [apply step_keeps_hardware|]. intros _.
  apply preserves_bind; [apply read_keeps_hardware|]. intros _.
  apply preserves_get_world. intros w0.
  destruct (drain (serial_rx w0) (parser w0)) as [[rx p]|];
    [|intros w a w' out E; discriminate E].
  apply preserves_bind; [apply set_serial_rx_keeps_hardware|]. intros _.
  apply preserves_bind; [apply set_parser_keeps_hardware|]. intros _.
  apply preserves_get_world. intros w1.
  apply (preserves_bind hardware_ok (RequestParser.parse_into (request w1)));
    [apply parse_into_keeps_hardware|].
  intros [parsed r].
  apply preserves_bind; [apply set_request_keeps_hardware|]. intros _.
  apply preserves_bind.
  { destruct parsed; [apply handle_request_keeps_hardware|apply preserves_ret]. }
  intros _.
  apply preserves_bind; [apply millis_keeps_hardware|]. intros _.
  apply preserves_ret.
Qed.

Lemma ticks_keep_hardware (l : list Arrival) : preserves hardware_ok (ticks l).
Proof.
  induction l as [|a l IH]; simpl; [apply preserves_ret|].
  apply preserves_bind; [|intros _; exact IH].
  unfold tick. apply preserves_bind; [apply environment_keeps_hardware|].
  intros _. apply loop_keeps_hardware.
Qed.

Lemma boot_hardware_ok (targets : list Target) (dht : DHTesp) (clock : nat -> Z) :
  hardware_ok (boot targets dht clock).
Proof.
  split; [|split].
  - intros nn Hnn. destruct nn; try discriminate; simpl; lia.
  - intros pin v H. simpl in H. rewrite lookup_empty in H. discriminate.
  - left. split; [reflexivity|]. split; [reflexivity|].
    intros nn Hnn. destruct nn; try discriminate; reflexivity.
Qed.

(** From power-up the drivers stay consistent with the state. *)
Lemma run_hardware_ok (targets : list Target) (dht : DHTesp)
    (clock : nat -> Z) (l : list Arrival) :
  exists w out,
    run l (boot targets dht clock) = Some (tt, w, out) /\ hardware_ok w.
Proof.
  destruct (run_ok targets dht clock l) as (w & out & E & _).
  exists w, out. split; [exact E|].
  assert (Hrun : preserves hardware_ok (run l)).
  { unfold run, setup.
    apply preserves_bind; [|intros _; apply ticks_keep_hardware].
    apply preserves_bind; [apply state_setup_keeps_hardware|].
    intros _. apply start_keeps_hardware. }
  eapply Hrun; [exact E|apply boot_hardware_ok].
Qed.

(** X10: whatever is received and whatever the step list holds, the
    actuator values of the state stay within their ranges, only the three
    LED pins are ever written, with duty cycles within 0..1023, and the
    angle written to the servo is within 0..180. *)
Theorem X10_drivers_within_range (targets : list Target) (dht : DHTesp)
    (clock : nat -> Z) (l : list Arrival) :
  exists w out,
    run l (boot targets dht clock) = Some (tt, w, out) /\
    (forall nn, is_actuator nn = true ->
       0 <= actuator_value nn (state w) <= actuator_MAX nn) /\
    (forall pin v, pwm w !! pin = Some v ->
       pin ∈ [State.RED_PIN; State.YELLOW_PIN; State.GREEN_PIN] /\
       0 <= v <= 1023) /\
    (forall v, servo_written (servo_ (state w)) = Some v -> 0 <= v <= 180).
Proof.
  destruct (run_hardware_ok targets dht clock l) as (w & out & E & Hv & Hp & Hm).
  exists w, out. split; [exact E|]. split; [exact Hv|]. split; [exact Hp|].
  intros v Hs. destruct Hm as [(_ & Hnone & _)|Hm]; [congruence|].
  specialize (Hm NOUN_SERVO eq_refl). simpl in Hm.
  rewrite Hs in Hm. injection Hm as ->. apply (Hv NOUN_SERVO eq_refl).
Qed.

(** X11: between two iterations the drivers mirror the state: either
    nothing was written yet and the state holds its defaults, or each LED
    pin carries the intensity, and the servo the angle, that a GET of that
    actuator reports. *)
Theorem X11_drivers_mirror_state (targets : list Target) (dht : DHTesp)
    (clock : nat -> Z) (l : list Arrival) :
  exists w out,
    run l (boot targets dht clock) = Some (tt, w, out) /\
    (untouched w \/
     forall nn, is_actuator nn = true ->
       exists v,
         driven_value nn w = Some v /\
         handle_request (GET_request nn) w
         = Some (tt, w, [Print (PStr "OK "); Println (PInt v)])).
Proof.
  destruct (run_hardware_ok targets dht clock l) as (w & out & E & _ & _ & Hm).
  exists w, out. split; [exact E|].
  destruct Hm as [Hu|Hm]; [left; exact Hu|right].
  intros nn Hnn. exists (actuator_value nn (state w)).
  split; [apply Hm, Hnn|].
  destruct nn; try discriminate; reflexivity.
Qed.


(** ** The parser *)

Section PushMore.
Context {MAX_LEN : Z}.
Hypothesis MAX_LEN_range : 2 <= MAX_LEN < 2 ^ 32.

Lemma sizeof_minus_1' : wrap32 (MAX_LEN - 1) = MAX_LEN - 1.
Proof. apply wrap32_small. lia. Qed.

Lemma push_cursor_ok (p : RequestParser MAX_LEN) (c : ascii) :
  cursor_ok p ->
  exists p', RequestParser.push p c = Some p' /\ cursor_ok p'.
Proof.
  intros (Hok & Hlt & Hpend).
  destruct (@push_ok MAX_LEN ltac:(lia) p c Hok) as (p' & E & Hok').
  exists p'. split; [exact E|]. split; [exact Hok'|].
  revert E. unfold RequestParser.push, RequestParser.available,
    RequestParser.pending. rewrite sizeof_minus_1'.
  destruct Hok as (Hlen & Hpos & _).
  destruct (pending_request_ p) eqn:Ep; simpl.
  { intros [= <-]. split; [exact Hlt|]. intros _. apply Hpend. reflexivity. }
  destruct (Z.ltb_spec (bufferp_ p) (MAX_LEN - 1)) as [_|?]; [|lia].
  rewrite array_store_in_range by lia. simpl.
  rewrite (wrap32_small (bufferp_ p + 1)) by lia.
  destruct (Ascii.eqb c LF) eqn:Ec; simpl.
  - rewrite array_store_in_range by (rewrite length_insert; lia). simpl.
    intros [= <-]. simpl. split; [lia|reflexivity].
  - destruct (Z.eqb_spec (bufferp_ p + 1) (MAX_LEN - 1)) as [Heq|Hne].
    + rewrite array_store_in_range by (rewrite length_insert; lia). simpl.
      intros [= <-]. simpl. split; [lia|reflexivity].
    + intros [= <-]. simpl. split; [lia|]. discriminate.
Qed.

Lemma consume_cursor_ok (p : RequestParser MAX_LEN) :
  cursor_ok p -> cursor_ok (consume p).
Proof.
  intros ((Hlen & Hpos & _) & Hlt & _). split; [|split].
  - split; [exact Hlen|]. split; [exact Hpos|]. simpl. discriminate.
  - exact Hlt.
  - simpl. discriminate.
Qed.

Lemma parser_ops_cursor_ok (ops : list parser_op) (p : RequestParser MAX_LEN) :
  cursor_ok p ->
  exists p', parser_ops p ops = Some p' /\ cursor_ok p'.
Proof.
  revert p. induction ops as [|[c|] ops IH]; intros p Hp; simpl.
  - exists p. auto.
  - destruct (push_cursor_ok p c Hp) as (p1 & -> & Hp1). simpl. apply IH, Hp1.
  - apply IH, consume_cursor_ok, Hp.
Qed.

(** A byte other than a line feed, away from the last slot, is stored at
    the cursor. *)
Lemma push_store (done todo : list ascii) (t c : ascii) :
  Z.of_nat (length (done ++ t :: todo)) = MAX_LEN ->
  c <> LF ->
  Z.of_nat (length done) + 1 < MAX_LEN - 1 ->
  RequestParser.push
    (MkRequestParser (done ++ t :: todo) (Z.of_nat (length done)) false
       : RequestParser MAX_LEN) c
  = Some (MkRequestParser ((done ++ [c]) ++ todo)
            (Z.of_nat (length (done ++ [c]))) false).
Proof.
  intros Hlen Hc Hfit. rewrite length_app in Hlen. simpl in Hlen.
  unfold RequestParser.push, RequestParser.available, RequestParser.pending.
  simpl. rewrite sizeof_minus_1'.
  destruct (Z.ltb_spec (Z.of_nat (length done)) (MAX_LEN - 1)) as [_|?]; [|lia].
  rewrite array_store_in_range by (rewrite length_app; simpl; lia). simpl.
  rewrite wrap32_small by lia.
  replace (Ascii.eqb c LF) with false
    by (symmetry; apply Ascii.eqb_neq; exact Hc).
  destruct (Z.eqb_spec (Z.of_nat (length done) + 1) (MAX_LEN - 1)) as [?|_]; [lia|].
  simpl. rewrite Nat2Z.id.
  rewrite insert_app_r_alt, Nat.sub_diag by lia. simpl.
  rewrite <- app_assoc. simpl. rewrite length_app. simpl.
  do 2 f_equal. lia.
Qed.

(** A line feed is stored, the terminator goes behind it, and the line is
    pending. *)
Lemma push_line_feed (done todo : list ascii) (t1 t2 : ascii) :
  Z.of_nat (length (done ++ t1 :: t2 :: todo)) = MAX_LEN ->
  RequestParser.push
    (MkRequestParser (done ++ t1 :: t2 :: todo) (Z.of_nat (length done)) false
       : RequestParser MAX_LEN) LF
  = Some (MkRequestParser (done ++ LF :: NUL :: todo) 0 true).
Proof.
  intros Hlen. rewrite length_app in Hlen. simpl in Hlen.
  unfold RequestParser.push, RequestParser.available, RequestParser.pending.
  simpl. rewrite sizeof_minus_1'.
  destruct (Z.ltb_spec (Z.of_nat (length done)) (MAX_LEN - 1)) as [_|?]; [|lia].
  rewrite array_store_in_range by (rewrite length_app; simpl; lia). simpl.
  rewrite wrap32_small by lia.
  rewrite array_store_in_range
    by (rewrite length_insert, length_app; simpl; lia).
  simpl. rewrite Nat2Z.id.
  rewrite insert_app_r_alt, Nat.sub_diag by lia. simpl.
  replace (Z.to_nat (Z.of_nat (length done) + 1)) with (length done + 1)%nat by lia.
  rewrite insert_app_r. reflexivity.
Qed.
End PushMore.

Lemma c_str_app (s rest : list ascii) :
  NUL ∉ s -> c_str (s ++ NUL :: rest) = Some s.
Proof.
  induction s as [|c s IH]; intros H; simpl; [reflexivity|].
  apply not_elem_of_cons in H as [Hc Hs].
  replace (Ascii.eqb c NUL) with false
    by (symmetry; apply Ascii.eqb_neq; congruence).
  rewrite IH by exact Hs. reflexivity.
Qed.


(** X12: however bytes are pushed and lines consumed, every push is
    defined, the cursor stays below the last slot and returns to the start
    when a line completes; so [available()] is true exactly when no line is
    pending, and right after [parse_into] took a line the parser accepts
    bytes again. *)
Theorem X12_available_iff_not_pending (MAX_LEN : Z) (storage : list ascii)
    (ops : list parser_op) :
  2 <= MAX_LEN < 2 ^ 32 ->
  Z.of_nat (length storage) = MAX_LEN ->
  exists p,
    parser_ops (@RequestParser.make MAX_LEN storage) ops = Some p /\
    0 <= bufferp_ p < MAX_LEN - 1 /\
    (pending_request_ p = true -> bufferp_ p = 0) /\
    RequestParser.available p = negb (RequestParser.pending p) /\
    RequestParser.available (consume p) = true.
Proof.
  intros Hrange Hlen.
  assert (Hinit : cursor_ok (@RequestParser.make MAX_LEN storage)).
  { split; [|split]; simpl; [|lia|discriminate].
    split; [exact Hlen|]. split; [simpl; lia|]. simpl. discriminate. }
  destruct (parser_ops_cursor_ok Hrange ops _ Hinit)
    as (p & E & (_ & Hpos & _) & Hlt & Hpend).
  exists p. split; [exact E|]. split; [lia|]. split; [exact Hpend|].
  unfold RequestParser.available, RequestParser.pending.
  rewrite (wrap32_small (MAX_LEN - 1)) by lia. simpl.
  destruct (Z.ltb_spec (bufferp_ p) (MAX_LEN - 1)) as [_|?]; [|lia].
  rewrite andb_true_r. split; reflexivity.
Qed.

Lemma X12_available_iff_not_pending_witness :
  exists p,
    parser_ops (@RequestParser.make 4 [NUL; NUL; NUL; NUL])
      [Push "a"%char; Push LF; Push "b"%char; Consume; Push "c"%char] = Some p /\
    0 <= bufferp_ p < 4 - 1 /\
    (pending_request_ p = true -> bufferp_ p = 0) /\
    RequestParser.available p = negb (RequestParser.pending p) /\
    RequestParser.available (consume p) = true.
Proof.
  apply (X12_available_iff_not_pending 4 [NUL; NUL; NUL; NUL]); [lia|reflexivity].
Defined.

(** Bytes that neither end the line nor reach the last slot are drained
    one after the other. *)
Lemma drain_fill (l rest done todo : list ascii) :
  Z.of_nat (length (done ++ todo)) = 256 ->
  LF ∉ l ->
  Z.of_nat (length done + length l) < 255 ->
  drain (l ++ rest) (MkRequestParser (done ++ todo) (Z.of_nat (length done)) false)
  = drain rest (MkRequestParser (done ++ l ++ drop (length l) todo)
                  (Z.of_nat (length done + length l)) false).
Proof.
  revert done todo. induction l as [|c l IH]; intros done todo Hlen Hlf Hfit.
  - simpl. rewrite drop_0, Nat.add_0_r. reflexivity.
  - simpl in Hfit. pose proof Hlen as Hlen'. rewrite length_app in Hlen'.
    destruct todo as [|t todo]; [simpl in Hlen'; lia|].
    apply not_elem_of_cons in Hlf as [Hc Hlf].
    simpl drain.
    replace (RequestParser.available
               (MkRequestParser (done ++ t :: todo) (Z.of_nat (length done)) false
                  : Parser)) with true.
    2: { unfold RequestParser.available, RequestParser.pending. simpl.
         symmetry. apply Z.ltb_lt. rewrite wrap32_small by lia. lia. }
    rewrite (@push_store 256 ltac:(lia) done todo t c Hlen) by (congruence || lia).
    simpl. rewrite IH.
    + rewrite <- !app_assoc. simpl. rewrite length_app. simpl.
      do 3 f_equal. lia.
    + rewrite !length_app in *. simpl in *. lia.
    + exact Hlf.
    + rewrite length_app. simpl. lia.
Qed.

(** The line feed ends the draining: the bytes behind it stay in the
    queue. *)
Lemma drain_line (l more done todo : list ascii) :
  Z.of_nat (length (done ++ todo)) = 256 ->
  LF ∉ l ->
  Z.of_nat (length done + length l) < 255 ->
  exists todo',
    drain (l ++ LF :: more)
      (MkRequestParser (done ++ todo) (Z.of_nat (length done)) false)
    = Some (more, MkRequestParser ((done ++ l) ++ LF :: NUL :: todo') 0 true) /\
    length ((done ++ l) ++ LF :: NUL :: todo') = length (done ++ todo).
Proof.
  intros Hlen Hlf Hfit.
  rewrite (drain_fill l (LF :: more) done todo Hlen Hlf Hfit).
  rewrite length_app in Hlen.
  destruct (drop (length l) todo) as [|t1 [|t2 todo']] eqn:Hdrop;
    try (apply (f_equal length) in Hdrop; rewrite length_drop in Hdrop;
         simpl in Hdrop; lia).
  exists todo'.
  assert (Hlen2 : Z.of_nat (length ((done ++ l) ++ t1 :: t2 :: todo')) = 256).
  { rewrite <- Hdrop, !length_app, length_drop. lia. }
  rewrite (app_assoc done l), <- length_app.
  simpl drain.
  replace (RequestParser.available
             (MkRequestParser ((done ++ l) ++ t1 :: t2 :: todo')
                (Z.of_nat (length (done ++ l))) false : Parser)) with true.
  2: { unfold RequestParser.available, RequestParser.pending. simpl.
       symmetry. apply Z.ltb_lt. rewrite wrap32_small by lia.
       rewrite length_app. lia. }
  rewrite (@push_line_feed 256 ltac:(lia) (done ++ l) todo' t1 t2 Hlen2). simpl.
  split; [destruct more; reflexivity|].
  rewrite !length_app in *. simpl in *. lia.
Qed.

(** X13: a line of at most 254 bytes followed by its line feed, drained
    into an idle parser whose cursor is at the start, becomes the pending
    text exactly (when it holds no NUL), and the bytes behind the line feed
    stay in the receive queue for a later iteration: nothing of them is
    dropped. *)
Theorem X13_line_framing (storage l more : list ascii) :
  Z.of_nat (length storage) = 256 ->
  LF ∉ l -> NUL ∉ l ->
  Z.of_nat (length l) < 255 ->
  exists p,
    drain (l ++ LF :: more) (MkRequestParser storage 0 false) = Some (more, p) /\
    pending_request_ p = true /\ bufferp_ p = 0 /\
    c_str (buffer_ p) = Some (l ++ [LF]).
Proof.
  intros Hlen Hlf Hnul Hfit.
  destruct (drain_line l more [] storage Hlen Hlf) as (todo' & E & _);
    [simpl; lia|].
  simpl in E. change (Z.of_nat 0) with 0 in E. rewrite E.
  eexists. split; [reflexivity|]. simpl.
  split; [reflexivity|]. split; [reflexivity|].
  replace (l ++ LF :: NUL :: todo') with ((l ++ [LF]) ++ NUL :: todo')
    by (rewrite <- app_assoc; reflexivity).
  apply c_str_app. rewrite elem_of_app, elem_of_cons, elem_of_nil.
  intros [?|[?|[]]]; [tauto|discriminate].
Qed.

Lemma X13_line_framing_witness :
  exists p,
    drain (list_ascii_of_string "GET SERVO" ++ LF :: list_ascii_of_string "ID")
      (MkRequestParser (replicate 256 NUL) 0 false)
    = Some (list_ascii_of_string "ID", p) /\
    pending_request_ p = true /\ bufferp_ p = 0 /\
    c_str (buffer_ p) = Some (list_ascii_of_string "GET SERVO" ++ [LF]).
Proof.
  apply (X13_line_framing (replicate 256 NUL) (list_ascii_of_string "GET SERVO")
           (list_ascii_of_string "ID")).
  - reflexivity.
  - apply (bool_decide_unpack _). vm_compute. exact I.
  - apply (bool_decide_unpack _). vm_compute. exact I.
  - vm_compute. reflexivity.
Defined.


(** X19: a line longer than the array is cut, not dropped: the byte that
    fills slot 254 completes a line of 255 bytes, line feed or not, and
    the bytes behind it stay in the receive queue, where they start the
    next line. *)
Theorem X19_long_line_split (storage l more : list ascii) (c : ascii) :
  Z.of_nat (length storage) = 256 ->
  Z.of_nat (length l) = 254 ->
  LF ∉ l -> NUL ∉ l -> c <> NUL ->
  exists p,
    drain (l ++ c :: more) (MkRequestParser storage 0 false) = Some (more, p) /\
    pending_request_ p = true /\ bufferp_ p = 0 /\
    c_str (buffer_ p) = Some (l ++ [c]) /\
    RequestParser.available p = false.
Proof.
  intros Hlen Hl Hlf Hnul Hc.
  pose proof (drain_fill l (c :: more) [] storage Hlen Hlf) as Hfill.
  simpl in Hfill. change (Z.of_nat 0) with 0 in Hfill.
  rewrite Hfill by lia. clear Hfill.
  destruct (drop (length l) storage) as [|t1 [|t2 [|t3 todo]]] eqn:Hdrop;
    try (apply (f_equal length) in Hdrop; rewrite length_drop in Hdrop;
         simpl in Hdrop; lia).
  simpl drain.
  replace (RequestParser.available
             (MkRequestParser (l ++ [t1; t2]) (Z.of_nat (length l)) false
                : Parser)) with true.
  2: { unfold RequestParser.available, RequestParser.pending. simpl.
       symmetry. apply Z.ltb_lt. rewrite wrap32_small by lia. lia. }
  rewrite (@push_last_slot 256 ltac:(lia) l t1 t2 c) by lia. simpl.
  eexists. split.
  - destruct more; reflexivity.
  - simpl. split; [reflexivity|]. split; [reflexivity|]. split; [|reflexivity].
    replace (l ++ [c; NUL]) with ((l ++ [c]) ++ NUL :: [])
      by (rewrite <- app_assoc; reflexivity).
    apply c_str_app. rewrite elem_of_app, elem_of_cons, elem_of_nil.
    intros [?|[?|[]]]; [tauto|congruence].
Qed.

Lemma X19_long_line_split_witness :
  exists p,
    drain (replicate 254 "a"%char ++ "b"%char :: list_ascii_of_string "cd")
      (MkRequestParser (replicate 256 NUL) 0 false)
    = Some (list_ascii_of_string "cd", p) /\
    pending_request_ p = true /\ bufferp_ p = 0 /\
    c_str (buffer_ p) = Some (replicate 254 "a"%char ++ ["b"%char]) /\
    RequestParser.available p = false.
Proof.
  apply (X19_long_line_split (replicate 256 NUL) (replicate 254 "a"%char)
           (list_ascii_of_string "cd") "b"%char).
  - reflexivity.
  - reflexivity.
  - apply (bool_decide_unpack _). vm_compute. exact I.
  - apply (bool_decide_unpack _). vm_compute. exact I.
  - discriminate.
Defined.


(** ** Lines and their answers *)

(** X14: a line of spaces and line feeds only has no verb: [parse_into]
    writes [VERB_EMPTY] and nothing else, and the dispatcher answers
    [ERR BAD_VERB] without touching the world. *)
Theorem X14_blank_line (w : World) (r0 : Request) (text : list ascii) :
  Forall (fun c => c ∈ [SP; LF]) text ->
  pending_text w text ->
  req_status r0 = STATUS_OK ->
  RequestParser.parse_into r0 w
  = Some ((true, RequestParser.set_verb VERB_EMPTY r0), consumed w, []) /\
  handle_request (RequestParser.set_verb VERB_EMPTY r0) (consumed w)
  = Some (tt, consumed w, [Println (PStr "ERR BAD_VERB")]).
Proof.
  intros Hblank Hpend Hst.
  rewrite (parse_into_pending _ _ _ Hpend). unfold RequestParser.parse_text.
  rewrite strtok_none by exact Hblank. split; [reflexivity|].
  unfold handle_request. simpl. rewrite Hst. reflexivity.
Qed.

Lemma X14_blank_line_witness :
  RequestParser.parse_into request_after_set (received "  ")
  = Some ((true, RequestParser.set_verb VERB_EMPTY request_after_set),
          consumed (received "  "), []) /\
  handle_request (RequestParser.set_verb VERB_EMPTY request_after_set)
    (consumed (received "  "))
  = Some (tt, consumed (received "  "), [Println (PStr "ERR BAD_VERB")]).
Proof.
  apply (X14_blank_line (received "  ") request_after_set [SP; SP; LF]).
  - apply (bool_decide_unpack _). vm_compute. exact I.
  - split; vm_compute; reflexivity.
  - reflexivity.
Defined.

(** The first token of a line: what stands between the leading spaces and
    line feeds and the next one. *)
Lemma strtok_first (d lead tok tail : list ascii) :
  Forall (fun c => c ∈ d) lead ->
  tok <> [] ->
  Forall (fun c => c ∉ d) tok ->
  tail = [] \/ starts_with (fun c => c ∈ d) tail ->
  strtok d (lead ++ tok ++ tail) = (Some tok, drop 1 tail).
Proof.
  intros Hlead Hne Htok [->|Hstart].
  - rewrite app_nil_r. apply strtok_last; assumption.
  - destruct tail as [|c rest]; [destruct Hstart|]. simpl in Hstart.
    simpl. rewrite drop_0. apply strtok_token; assumption.
Qed.

(** X15: the verb is matched whole and by case, and it ends at a space or
    a line feed only: a first token that is not exactly [ID], [GET] or
    [SET] (a keyword in lower case, or one followed at once by a carriage
    return) makes the verb [VERB_INVALID], and the answer is
    [ERR BAD_VERB]. *)
Theorem X15_unknown_verb (w : World) (r0 : Request) (lead tok tail : list ascii) :
  Forall (fun c => c ∈ [SP; LF]) lead ->
  tok <> [] ->
  Forall (fun c => c ∉ [SP; LF]) tok ->
  tail = [] \/ starts_with (fun c => c ∈ [SP; LF]) tail ->
  tok ∉ map list_ascii_of_string ["ID"; "GET"; "SET"]%string ->
  pending_text w (lead ++ tok ++ tail) ->
  req_status r0 = STATUS_OK ->
  RequestParser.parse_into r0 w
  = Some ((true, RequestParser.set_verb VERB_INVALID r0), consumed w, []) /\
  handle_request (RequestParser.set_verb VERB_INVALID r0) (consumed w)
  = Some (tt, consumed w, [Println (PStr "ERR BAD_VERB")]).
Proof.
  intros Hlead Hne Htok Htail Hkey Hpend Hst.
  rewrite (parse_into_pending _ _ _ Hpend). unfold RequestParser.parse_text.
  rewrite (strtok_first [SP; LF] lead tok tail) by assumption.
  destruct (VERB_MAP !! string_of_list_ascii tok) as [vb|] eqn:E.
  - exfalso. apply Hkey. apply VERB_MAP_keys in E.
    rewrite <- (list_ascii_of_string_of_list_ascii tok).
    simpl. rewrite !elem_of_cons.
    destruct E as [->|[->| ->]]; auto.
  - split; [reflexivity|].
    unfold handle_request. simpl. rewrite Hst. reflexivity.
Qed.

Lemma X15_unknown_verb_witness :
  RequestParser.parse_into Request_default
    (received (String "I" (String "D" (String CR ""))))
  = Some ((true, RequestParser.set_verb VERB_INVALID Request_default),
          consumed (received (String "I" (String "D" (String CR "")))), []) /\
  handle_request (RequestParser.set_verb VERB_INVALID Request_default)
    (consumed (received (String "I" (String "D" (String CR "")))))
  = Some (tt, consumed (received (String "I" (String "D" (String CR "")))),
          [Println (PStr "ERR BAD_VERB")]).
Proof.
  apply (X15_unknown_verb (received (String "I" (String "D" (String CR ""))))
           Request_default [] ["I"%char; "D"%char; CR] [LF]).
  - constructor.
  - discriminate.
  - apply (bool_decide_unpack _). vm_compute. exact I.
  - right. simpl. apply (bool_decide_unpack _). vm_compute. exact I.
  - apply (bool_decide_unpack _). vm_compute. exact I.
  - split; vm_compute; reflexivity.
  - reflexivity.
Defined.

(** X16: an [ID] line, whatever the blanks around the keyword and whatever
    the request before it left in the fields, gets the noun [NOUN_EMPTY]
    and is answered with the board name: the value field, stale or not, is
    not looked at. *)
Theorem X16_id_line (w : World) (r0 : Request) (lead sep : list ascii) (c : ascii) :
  Forall (fun c => c ∈ [SP; LF]) lead ->
  c ∈ [SP; LF] ->
  Forall (fun c => c ∈ [SP; CR; LF]) sep ->
  pending_text w (lead ++ list_ascii_of_string "ID" ++ c :: sep) ->
  req_status r0 = STATUS_OK ->
  exists r,
    RequestParser.parse_into r0 w = Some ((true, r), consumed w, []) /\
    verb r = VERB_ID /\ noun r = NOUN_EMPTY /\
    value r = value r0 /\ value_int r = value_int r0 /\
    handle_request r (consumed w)
    = Some (tt, consumed w,
            [Print (PStr "OK "); Println (PStr "ESP8266_WEMOS_D1MINI")]).
Proof.
  intros Hlead Hc Hsep Hpend Hst.
  rewrite (parse_into_pending _ _ _ Hpend). unfold RequestParser.parse_text.
  rewrite (strtok_token [SP; LF] lead (list_ascii_of_string "ID") sep c);
    [|exact Hlead|discriminate
     |apply (bool_decide_unpack _); by vm_compute|exact Hc].
  cbn beta iota zeta.
  change (VERB_MAP !! string_of_list_ascii (list_ascii_of_string "ID"))
    with (Some VERB_ID).
  cbn beta iota zeta.
  rewrite strtok_none by exact Hsep. cbn beta iota zeta.
  eexists. split; [reflexivity|]. simpl.
  repeat (split; [reflexivity|]).
  unfold handle_request. simpl. rewrite Hst. reflexivity.
Qed.

Lemma X16_id_line_witness :
  exists r,
    RequestParser.parse_into request_after_set (received " ID ")
    = Some ((true, r), consumed (received " ID "), []) /\
    verb r = VERB_ID /\ noun r = NOUN_EMPTY /\
    value r = value request_after_set /\
    value_int r = value_int request_after_set /\
    handle_request r (consumed (received " ID "))
    = Some (tt, consumed (received " ID "),
            [Print (PStr "OK "); Println (PStr "ESP8266_WEMOS_D1MINI")]).
Proof.
  apply (X16_id_line (received " ID ") request_after_set [SP] [LF] SP).
  - apply (bool_decide_unpack _). vm_compute. exact I.
  - apply (bool_decide_unpack _). vm_compute. exact I.
  - apply (bool_decide_unpack _). vm_compute. exact I.
  - split; vm_compute; reflexivity.
  - reflexivity.
Defined.


(** A line that ends behind its noun: the value field is set to
    [VALUE_EMPTY] and the integer of the request before is kept. *)
Lemma parse_two_tokens (w : World) (r0 : Request) (text : list ascii)
    (vb : Verb) (nn : Noun) :
  command_prefix text vb nn ->
  pending_text w text ->
  RequestParser.parse_into r0 w
  = Some ((true, MkRequest (req_status r0) vb nn VALUE_EMPTY (value_int r0)),
          consumed w, []).
Proof.
  intros Hpre Hpend.
  rewrite (parse_into_pending _ _ _ Hpend).
  destruct Hpre as [lead v c1 sep1 n c2 sep2 vb nn Hlead Hv Hc1 Hsep1 Hn Hc2 Hsep2].
  destruct (verb_keyword_token v vb Hv) as [Hv1 Hv2].
  destruct (noun_keyword_token n nn Hn) as [Hn1 Hn2].
  unfold RequestParser.parse_text.
  rewrite (strtok_token [SP; LF] lead (list_ascii_of_string v)) by assumption.
  cbn beta iota zeta.
  rewrite string_of_list_ascii_of_string, Hv.
  rewrite (strtok_token [SP; CR; LF] sep1 (list_ascii_of_string n)) by assumption.
  cbn beta iota zeta.
  rewrite string_of_list_ascii_of_string, Hn.
  rewrite strtok_none by exact Hsep2. reflexivity.
Qed.

(** The answer to a GET of an actuator, and to an accepted SET of one. *)
Lemma handle_get_actuator (nn : Noun) (x : Z) (w : World) :
  is_actuator nn = true ->
  handle_request (MkRequest STATUS_OK VERB_GET nn VALUE_EMPTY x) w
  = Some (tt, w, [Print (PStr "OK "); Println (PInt (actuator_value nn (state w)))]).
Proof. destruct nn; try discriminate; reflexivity. Qed.

Lemma handle_set_actuator (nn : Noun) (x : Z) (w : World) :
  is_actuator nn = true ->
  exists w',
    handle_request (MkRequest STATUS_OK VERB_SET nn VALUE_OK x) w
    = Some (tt, w', [Print (PStr "OK ");
                     Println (PInt (ClampedInt.clamped 0 (actuator_MAX nn) x))]) /\
    actuator_value nn (state w') = ClampedInt.clamped 0 (actuator_MAX nn) x.
Proof.
  destruct nn; try discriminate; intros _; eexists; split; reflexivity.
Qed.

(** X17: a line of a verb and a noun only sets the value field to
    [VALUE_EMPTY] and keeps the integer of the request before it.  A GET
    is then answered as a fresh GET request is, for an actuator with the
    value the state holds; a SET is answered [ERR BAD_VALUE] and an ID
    [ERR BAD_NOUN]; the answers leave the world as [parse_into] left it. *)
Theorem X17_two_token_line (w : World) (r0 : Request) (text : list ascii)
    (vb : Verb) (nn : Noun) :
  command_prefix text vb nn ->
  pending_text w text ->
  req_status r0 = STATUS_OK ->
  exists r,
    RequestParser.parse_into r0 w = Some ((true, r), consumed w, []) /\
    verb r = vb /\ noun r = nn /\
    value r = VALUE_EMPTY /\ value_int r = value_int r0 /\
    (vb = VERB_GET ->
     handle_request r (consumed w)
     = handle_request (GET_request nn) (consumed w)) /\
    (vb = VERB_GET -> is_actuator nn = true ->
     handle_request r (consumed w)
     = Some (tt, consumed w,
             [Print (PStr "OK "); Println (PInt (actuator_value nn (state w)))])) /\
    (vb = VERB_SET ->
     handle_request r (consumed w)
     = Some (tt, consumed w, [Println (PStr "ERR BAD_VALUE")])) /\
    (vb = VERB_ID ->
     handle_request r (consumed w)
     = Some (tt, consumed w, [Println (PStr "ERR BAD_NOUN")])).
Proof.
  intros Hpre Hpend Hst.
  rewrite (parse_two_tokens w r0 text vb nn Hpre Hpend), Hst.
  eexists. split; [reflexivity|]. simpl.
  repeat (split; [reflexivity|]).
  assert (Hnn : nn <> NOUN_EMPTY).
  { destruct Hpre as [? ? ? ? n ? ? ? nn _ _ _ _ Hn _ _].
    unfold NOUN_MAP in Hn.
    rewrite !lookup_insert_Some, lookup_singleton_Some in Hn.
    intros ->; intuition congruence. }
  split; [|split; [|split]].
  - intros ->. destruct nn; reflexivity.
  - intros -> Hact. apply (handle_get_actuator nn (value_int r0) (consumed w) Hact).
  - intros ->. reflexivity.
  - intros ->. destruct nn; try congruence; reflexivity.
Qed.

Lemma command_prefix_get_servo :
  command_prefix (list_ascii_of_string "GET SERVO" ++ [LF]) VERB_GET NOUN_SERVO.
Proof.
  change (list_ascii_of_string "GET SERVO" ++ [LF])
    with ([] ++ list_ascii_of_string "GET" ++ SP :: []
             ++ list_ascii_of_string "SERVO" ++ LF :: []).
  constructor; try (apply (bool_decide_unpack _); vm_compute; exact I);
    reflexivity.
Defined.

Lemma X17_two_token_line_witness :
  exists r,
    RequestParser.parse_into request_after_set (received "GET SERVO")
    = Some ((true, r), consumed (received "GET SERVO"), []) /\
    verb r = VERB_GET /\ noun r = NOUN_SERVO /\
    value r = VALUE_EMPTY /\ value_int r = value_int request_after_set /\
    (VERB_GET = VERB_GET ->
     handle_request r (consumed (received "GET SERVO"))
     = handle_request (GET_request NOUN_SERVO) (consumed (received "GET SERVO"))) /\
    (VERB_GET = VERB_GET -> is_actuator NOUN_SERVO = true ->
     handle_request r (consumed (received "GET SERVO"))
     = Some (tt, consumed (received "GET SERVO"),
             [Print (PStr "OK ");
              Println (PInt (actuator_value NOUN_SERVO
                               (state (received "GET SERVO"))))])) /\
    (VERB_GET = VERB_SET ->
     handle_request r (consumed (received "GET SERVO"))
     = Some (tt, consumed (received "GET SERVO"),
             [Println (PStr "ERR BAD_VALUE")])) /\
    (VERB_GET = VERB_ID ->
     handle_request r (consumed (received "GET SERVO"))
     = Some (tt, consumed (received "GET SERVO"),
             [Println (PStr "ERR BAD_NOUN")])).
Proof.
  apply (X17_two_token_line (received "GET SERVO") request_after_set
           (list_ascii_of_string "GET SERVO" ++ [LF]) VERB_GET NOUN_SERVO).
  - exact command_prefix_get_servo.
  - split; vm_compute; reflexivity.
  - reflexivity.
Defined.

(** Saturating to the range of [long] first does not change what a clamp
    to a range within it yields. *)
Lemma clamped_saturate_long (MIN_V MAX_V x : Z) :
  LONG_MIN <= MIN_V -> MIN_V <= MAX_V -> MAX_V <= LONG_MAX ->
  ClampedInt.clamped MIN_V MAX_V (saturate_long x)
  = ClampedInt.clamped MIN_V MAX_V x.
Proof.
  intros Hmin Hle Hmax. unfold ClampedInt.clamped, saturate_long.
  unfold LONG_MIN, LONG_MAX in *.
  destruct (Z.gtb_spec x (2 ^ 31 - 1)), (Z.ltb_spec x (- 2 ^ 31));
    repeat match goal with
           | |- context [?a >? ?b] => destruct (Z.gtb_spec a b)
           | |- context [?a <? ?b] => destruct (Z.ltb_spec a b)
           end; lia.
Qed.

(** X18: a SET line of an actuator whose third token starts with a decimal
    number and which has nothing but line ends behind it answers with the
    number clamped to the range of the actuator, and stores it.  The
    number may be as long as the line allows: [strtol] saturates it to the
    range of [long], and the clamp hides that. *)
Theorem X18_set_line (w : World) (r0 : Request)
    (pre blanks sign junk tail : list ascii) (ds : list Z) (nn : Noun) :
  command_prefix pre VERB_SET nn ->
  is_actuator nn = true ->
  number_token blanks sign ds junk ->
  ds <> [] ->
  line_tail tail ->
  trailing_text tail = false ->
  pending_text w (pre ++ (blanks ++ sign ++ map digit_char ds ++ junk) ++ tail) ->
  req_status r0 = STATUS_OK ->
  let x := if bool_decide (sign = ["-"%char]) then - decimal ds else decimal ds in
  let v := ClampedInt.clamped 0 (actuator_MAX nn) x in
  exists r w',
    RequestParser.parse_into r0 w = Some ((true, r), consumed w, []) /\
    handle_request r (consumed w)
    = Some (tt, w', [Print (PStr "OK "); Println (PInt v)]) /\
    actuator_value nn (state w') = v.
Proof.
  intros Hpre Hact Htok Hds Htail Htrail Hpend Hst x v.
  rewrite (parse_value_field w r0 _ _ _ _ _ _ _ _ Hpre Htok Htail Hpend).
  rewrite Htrail, Hst.
  destruct ds as [|d ds]; [congruence|].
  unfold leading_number. fold x.
  destruct (handle_set_actuator nn (saturate_long x) (consumed w) Hact)
    as (w' & Hw' & Hv).
  rewrite clamped_saturate_long in Hw', Hv
    by (destruct nn; vm_compute; congruence).
  eexists _, w'. split; [reflexivity|]. split; [exact Hw'|exact Hv].
Qed.

Lemma command_prefix_set_servo :
  command_prefix (list_ascii_of_string "SET SERVO ") VERB_SET NOUN_SERVO.
Proof.
  change (list_ascii_of_string "SET SERVO ")
    with ([] ++ list_ascii_of_string "SET" ++ SP :: []
             ++ list_ascii_of_string "SERVO" ++ SP :: []).
  constructor; try (apply (bool_decide_unpack _); vm_compute; exact I);
    reflexivity.
Defined.

Lemma X18_set_line_witness :
  exists r w',
    RequestParser.parse_into Request_default (received "SET SERVO 99999999999")
    = Some ((true, r), consumed (received "SET SERVO 99999999999"), []) /\
    handle_request r (consumed (received "SET SERVO 99999999999"))
    = Some (tt, w', [Print (PStr "OK "); Println (PInt 180)]) /\
    actuator_value NOUN_SERVO (state w') = 180.
Proof.
  apply (X18_set_line (received "SET SERVO 99999999999") Request_default
           (list_ascii_of_string "SET SERVO ") [] [] [] [LF]
           [9; 9; 9; 9; 9; 9; 9; 9; 9; 9; 9] NOUN_SERVO).
  - exact command_prefix_set_servo.
  - reflexivity.
  - constructor; apply (bool_decide_unpack _); vm_compute; exact I.
  - discriminate.
  - right. simpl. apply (bool_decide_unpack _). vm_compute. exact I.
  - reflexivity.
  - split; vm_compute; reflexivity.
  - reflexivity.
Defined.


(** ** Silence *)

Lemma mute_bind {A B : Type} (P R Q : World -> Prop) (m : Eff A) (k : A -> Eff B) :
  mute P m R -> (forall a, mute R (k a) Q) -> mute P (m ≫= k) Q.
Proof.
  intros Hm Hk w b w' out E HP.
  unfold mbind, Eff_bind, bind in E.
  destruct (m w) as [[[a w1] out1]|] eqn:Em; [|discriminate].
  destruct (k a w1) as [[[b' w2] out2]|] eqn:Ek; [|discriminate].
  injection E as <- <- <-.
  destruct (Hm _ _ _ _ Em HP) as [HR ->].
  destruct (Hk a _ _ _ _ Ek HR) as [HQ ->].
  split; [exact HQ|reflexivity].
Qed.

Lemma mute_get_world {B : Type} (P Q : World -> Prop) (k : World -> Eff B) :
  (forall w0, P w0 -> mute (fun w => w = w0) (k w0) Q) ->
  mute P (get_world ≫= k) Q.
Proof.
  intros Hk w b w' out E HP.
  unfold mbind, Eff_bind, bind, get_world in E. simpl in E.
  destruct (k w w) as [[[b' w2] out2]|] eqn:Ek; [|discriminate].
  injection E as <- <- <-.
  apply (Hk w HP _ _ _ _ Ek eq_refl).
Qed.

Lemma mute_ret {A : Type} (P : World -> Prop) (a : A) : mute P (ret a) P.
Proof. intros w a' w' out [= <- <- <-] HP. split; [exact HP|reflexivity]. Qed.

(** The clock, the sequencer, the sensor and [setup] leave the input side
    of the world alone and print nothing. *)
Lemma collecting_frame (done rx : list ascii) : input_frame (collecting done rx).
Proof.
  intros w w' Hp Hrx _ (todo & H1 & H2 & H3). exists todo.
  rewrite Hp, Hrx. auto.
Qed.

Section Mute.
Variable C : World -> Prop.
Hypothesis Hframe : input_frame C.

Lemma millis_mute : mute C millis C.
Proof.
  intros w a w' out [= <- <- <-] H. split; [|reflexivity].
  revert H. apply Hframe; reflexivity.
Qed.

Lemma step_mute : mute C SelfTester.step C.
Proof.
  intros w b w' out E H.
  destruct (step_cases w b w' out E) as (-> & Hp & Hr & Hrx & _).
  split; [|reflexivity]. revert H. apply Hframe; assumption.
Qed.

Lemma read_mute : mute C State.read C.
Proof.
  intros w a w' out E H. unfold State.read, mbind, Eff_bind, bind in E.
  simpl in E.
  match type of E with context [if ?b then _ else _] => destruct b end;
    injection E as <- <- <-; (split; [|reflexivity]);
    revert H; apply Hframe; reflexivity.
Qed.

Lemma state_setup_mute : mute C State.setup C.
Proof.
  intros w a w' out [= <- <- <-] H. split; [|reflexivity].
  revert H. apply Hframe; reflexivity.
Qed.

Lemma start_mute : mute C SelfTester.start C.
Proof.
  intros w a w' out E H. unfold SelfTester.start, mbind, Eff_bind, bind in E.
  simpl in E. destruct (active_ (self_tester w));
    injection E as <- <- <-; (split; [|reflexivity]);
    revert H; apply Hframe; reflexivity.
Qed.
End Mute.

Lemma environment_mute (a : Arrival) (done : list ascii) :
  mute (collecting done []) (environment a) (collecting done (arrived a)).
Proof.
  intros w u w' out [= <- <- <-] (todo & H1 & H2 & H3). split; [|reflexivity].
  exists todo. simpl. rewrite H3. auto.
Qed.

(** An iteration that finds no complete line stores what was received and
    answers nothing. *)
Lemma loop_mute (done rx : list ascii) :
  LF ∉ rx ->
  Z.of_nat (length done + length rx) < 255 ->
  mute (collecting done rx) loop (collecting (done ++ rx) []).
Proof.
  intros Hlf Hfit. unfold loop.
  apply (mute_bind _ (collecting done rx)); [apply millis_mute, collecting_frame|]. intros _.
  apply (mute_bind _ (collecting done rx)); [apply step_mute, collecting_frame|]. intros _.
  apply (mute_bind _ (collecting done rx)); [apply read_mute, collecting_frame|]. intros _.
  apply mute_get_world. intros w0 (todo & Hp & Hlen & Hrx).
  rewrite Hp, Hrx.
  pose proof (drain_fill rx [] done todo Hlen Hlf Hfit) as Hdrain.
  rewrite app_nil_r in Hdrain. simpl in Hdrain.
  change (@drain rx (MkRequestParser (done ++ todo) (Z.of_nat (length done)) false))
    with (drain rx (MkRequestParser (done ++ todo) (Z.of_nat (length done)) false
                      : Parser)) in Hdrain.
  rewrite Hdrain.
  intros w a w' out E ->.
  unfold mbind, Eff_bind, bind, set_serial_rx, set_parser, get_world,
    RequestParser.parse_into, RequestParser.pending, set_request, millis in E.
  simpl in E. injection E as <- <- <-. split; [|reflexivity].
  exists (drop (length rx) todo). simpl.
  rewrite <- app_assoc, !length_app.
  split; [reflexivity|]. split; [|reflexivity].
  rewrite !length_app in *. rewrite length_drop. lia.
Qed.

Lemma ticks_mute (l : list Arrival) (done : list ascii) :
  LF ∉ concat (map arrived l) ->
  Z.of_nat (length done + length (concat (map arrived l))) < 255 ->
  mute (collecting done []) (ticks l)
    (collecting (done ++ concat (map arrived l)) []).
Proof.
  revert done. induction l as [|a l IH]; intros done Hlf Hfit; simpl.
  - rewrite app_nil_r. apply mute_ret.
  - simpl in Hlf, Hfit. apply not_elem_of_app in Hlf as [Hlf1 Hlf2].
    rewrite length_app in Hfit.
    apply (mute_bind _ (collecting (done ++ arrived a) [])).
    + unfold tick.
      apply (mute_bind _ (collecting done (arrived a)));
        [apply environment_mute|]. intros _.
      apply loop_mute; [exact Hlf1|lia].
    + intros _. rewrite app_assoc. apply IH; [exact Hlf2|].
      rewrite length_app. lia.
Qed.

(** X20: the sketch prints nothing at power-up, and nothing while the
    bytes received hold no line feed and do not fill the array: whatever
    the step list, the clock and the sensor do, the bytes are taken from
    the receive queue and collected in the array, across iterations, and
    no request is handled. *)
Theorem X20_silent_until_line_complete (targets : list Target) (dht : DHTesp)
    (clock : nat -> Z) (l : list Arrival) :
  LF ∉ concat (map arrived l) ->
  Z.of_nat (length (concat (map arrived l))) < 255 ->
  exists w,
    run l (boot targets dht clock) = Some (tt, w, []) /\
    serial_rx w = [] /\
    pending_request_ (parser w) = false /\
    held w = concat (map arrived l).
Proof.
  intros Hlf Hfit.
  destruct (run_ok targets dht clock l) as (w & out & E & _).
  assert (Hrun : mute (collecting [] []) (run l)
                   (collecting (concat (map arrived l)) [])).
  { unfold run, setup.
    apply (mute_bind _ (collecting [] [])).
    - apply (mute_bind _ (collecting [] [])); [apply state_setup_mute, collecting_frame|].
      intros _. apply start_mute, collecting_frame.
    - intros _. apply (ticks_mute l []); [exact Hlf|exact Hfit]. }
  destruct (Hrun _ _ _ _ E) as [(todo & Hp & Hlen & Hrx) ->].
  { exists (replicate 256 NUL). split; [reflexivity|]. split; reflexivity. }
  exists w. split; [exact E|]. split; [exact Hrx|].
  unfold held. rewrite Hp. simpl. split; [reflexivity|].
  rewrite Nat2Z.id, take_app_length. reflexivity.
Qed.

Lemma X20_silent_until_line_complete_witness :
  exists w,
    run unfinished_line (boot self_tester_targets dht_ok clock_500)
    = Some (tt, w, []) /\
    serial_rx w = [] /\
    pending_request_ (parser w) = false /\
    held w = concat (map arrived unfinished_line).
Proof.
  apply (X20_silent_until_line_complete self_tester_targets dht_ok clock_500
           unfinished_line).
  - apply (bool_decide_unpack _). vm_compute. exact I.
  - vm_compute. reflexivity.
Defined.


(** ** The iteration that finds a line *)

(** [parse_text] reads and writes nothing of the world. *)
Lemma parse_text_world (text : list ascii) (r : Request) (w1 w2 w1' : World)
    (res : bool * Request) (out : list Event) :
  RequestParser.parse_text text r w1 = Some (res, w1', out) ->
  w1' = w1 /\ RequestParser.parse_text text r w2 = Some (res, w2, out).
Proof.
  unfold RequestParser.parse_text.
  destruct (strtok [SP; LF] text) as [[tok1|] s1];
    [|intros [= <- <- <-]; split; reflexivity].
  destruct (VERB_MAP !! string_of_list_ascii tok1) as [v|];
    [|intros [= <- <- <-]; split; reflexivity].
  destruct (strtok [SP; CR; LF] s1) as [[tok2|] s2];
    [|intros [= <- <- <-]; split; reflexivity].
  destruct (NOUN_MAP !! string_of_list_ascii tok2) as [n|];
    [|intros [= <- <- <-]; split; reflexivity].
  destruct (strtok [SP; CR; LF] s2) as [[tok3|] s3];
    [|intros [= <- <- <-]; split; reflexivity].
  destruct (strtol tok3) as [val [|k]];
    [intros [= <- <- <-]; split; reflexivity|].
  destruct (strtok [CR; LF] s3) as [[tok4|] s4];
    intros [= <- <- <-]; split; reflexivity.
Qed.

(** The dispatcher leaves the parser, the receive queue and the request of
    [loop] alone. *)
Lemma handle_request_keeps_input (r r0 : Request) (p : Parser) (rx : list ascii) :
  preserves (fun w => parser w = p /\ serial_rx w = rx /\ request w = r0)
    (handle_request r).
Proof.
  intros w a w' out E H.
  destruct r as [st vb nn vl vi]. unfold handle_request in E. simpl in E.
  destruct st; simpl in E; [|injection E as <- <- <-; exact H].
  destruct vb; simpl in E; try (injection E as <- <- <-; exact H).
  - destruct nn; simpl in E; injection E as <- <- <-; exact H.
  - destruct vl; simpl in E; try (injection E as <- <- <-; exact H).
    destruct nn; simpl in E; injection E as <- <- <-; exact H.
  - destruct vl; simpl in E; try (injection E as <- <- <-; exact H).
    destruct nn; simpl in E; try (injection E as <- <- <-; exact H).
    destruct ((vi <? 0) || (vi >? 1)); [injection E as <- <- <-; exact H|].
    unfold mbind, Eff_bind, bind in E.
    destruct (negb (vi =? 0)).
    + unfold SelfTester.start, mbind, Eff_bind, bind in E. simpl in E.
      destruct (active_ (self_tester w)); simpl in E;
        injection E as <- <- <-; exact H.
    + unfold SelfTester.stop, mbind, Eff_bind, bind in E. simpl in E.
      destruct (active_ (self_tester w)); simpl in E;
        injection E as <- <- <-; exact H.
Qed.

(** What an iteration does with a complete line at the head of the receive
    queue: the sequencer steps, the sensor is read, the line is drained and
    parsed, and the request is dispatched in the world that these left. *)
Lemma loop_line (targets : list Target) (w : World) (l more : list ascii) :
  world_ok targets w ->
  collecting [] (l ++ LF :: more) w ->
  LF ∉ l -> NUL ∉ l ->
  Z.of_nat (length l) < 255 ->
  exists (b : bool) (w1 w2 : World) (todo' : list ascii) (r : Request)
         (out1 : list Event) (w5 : World) (out2 : list Event),
    SelfTester.step (clock_read w) = Some (b, w1, []) /\
    State.read w1 = Some (tt, w2, []) /\
    Z.of_nat (length (l ++ LF :: NUL :: todo')) = 256 /\
    RequestParser.parse_text (l ++ [LF]) (request w) w
    = Some ((true, r), w, out1) /\
    sound_log targets out1 /\
    handle_request r
      (dispatch_world w2 (MkRequestParser (l ++ LF :: NUL :: todo') 0 false)
         r more)
    = Some (tt, w5, out2) /\
    world_ok targets w5 /\ sound_log targets out2 /\
    length (lines_of out2) = 1%nat /\
    parser w5 = MkRequestParser (l ++ LF :: NUL :: todo') 0 false /\
    serial_rx w5 = more /\ request w5 = r /\
    loop w = Some (tt, clock_read w5, out1 ++ out2).
Proof.
  intros Hw Hc Hlf Hnul Hfit.
  set (r0 := request w).
  set (C := fun w0 : World =>
              collecting [] (l ++ LF :: more) w0 /\ request w0 = r0).
  assert (HC : input_frame C).
  { intros wa wb Hp Hrx Hr [H1 H2]. split.
    - revert H1. apply collecting_frame; assumption.
    - congruence. }
  assert (Hw0 : world_ok targets (clock_read w)).
  { revert Hw. apply world_ok_fields; reflexivity. }
  assert (HC0 : C (clock_read w)).
  { apply (HC w); [reflexivity..|]. split; [exact Hc|reflexivity]. }
  destruct (step_ok targets (clock_read w) Hw0) as (b & w1 & o1 & E1 & Hw1 & ->).
  destruct (step_mute C HC _ _ _ _ E1 HC0) as [HC1 _].
  destruct (read_silent targets w1 Hw1) as ([] & w2 & o2 & E2 & Hw2 & ->).
  destruct (read_mute C HC _ _ _ _ E2 HC1) as [[(todo & Hp & Hlen & Hrx) Hr2] _].
  destruct (drain_line l more [] todo Hlen Hlf) as (todo' & Hdrain & Hlen');
    [simpl; lia|].
  simpl in Hdrain, Hlen', Hp, Hlen.
  change (Z.of_nat 0) with 0 in Hdrain, Hp.
  set (buf := l ++ LF :: NUL :: todo') in *.
  set (wp := dispatch_world w2 (MkRequestParser buf 0 true) (request w2) more).
  assert (Hpend : pending_text wp (l ++ [LF])).
  { split; [reflexivity|]. simpl. unfold buf.
    replace (l ++ LF :: NUL :: todo') with ((l ++ [LF]) ++ NUL :: todo')
      by (rewrite <- app_assoc; reflexivity).
    apply c_str_app. rewrite elem_of_app, elem_of_cons, elem_of_nil.
    intros [?|[?|[]]]; [tauto|discriminate]. }
  pose proof (parse_into_pending wp _ r0 Hpend) as E3.
  destruct (parse_text_total (l ++ [LF]) r0 (consumed wp))
    as (r & out1 & Et & Hst & Hout1).
  rewrite Et in E3.
  destruct (parse_text_world _ _ _ w _ _ _ Et) as [_ Etw].
  set (wd := dispatch_world w2 (MkRequestParser buf 0 false) r more).
  destruct Hw2 as (Hpar & Htest & Hreq).
  assert (Hr : req_status r = STATUS_OK) by (rewrite Hst, <- Hr2; exact Hreq).
  assert (Hwd : world_ok targets wd).
  { split; [|split; [exact Htest|exact Hr]].
    split; [simpl; lia|]. split; [simpl; lia|].
    simpl. discriminate. }
  destruct (handle_request_ok targets r Hr wd Hwd)
    as ([] & w5 & out2 & E5 & Hw5 & Hs5 & Hlines).
  destruct (handle_request_keeps_input r _ _ _ _ _ _ _ E5
              (conj eq_refl (conj eq_refl eq_refl))) as (Hp5 & Hrx5 & Hr5).
  exists b, w1, w2, todo', r, out1, w5, out2.
  split; [exact E1|]. split; [exact E2|].
  split; [fold buf; lia|]. split; [exact Etw|].
  split.
  { destruct Hout1 as [->|[tok ->]];
      [apply sound_log_nil|apply sound_unknown_noun]. }
  split; [exact E5|]. split; [exact Hw5|]. split; [exact Hs5|].
  split; [exact Hlines|]. split; [exact Hp5|]. split; [exact Hrx5|].
  split; [exact Hr5|].
  unfold loop, mbind, Eff_bind, bind.
  change (millis w)
    with (Some (wrap32 (millis_source w (millis_calls w)), clock_read w,
                @nil Event)).
  cbn beta iota. rewrite E1. cbn beta iota. rewrite E2. cbn beta iota.
  unfold get_world at 1. cbn beta iota.
  rewrite Hp, Hrx, Hdrain. cbn beta iota.
  unfold set_serial_rx, set_parser, get_world, set_request.
  cbn [state self_tester parser request millis_source millis_calls serial_rx pwm].
  cbn beta iota.
  change (MkWorld (state w2) (self_tester w2) (MkRequestParser buf 0 true)
            (request w2) (millis_source w2) (millis_calls w2) more (pwm w2))
    with wp.
  rewrite Hr2, E3. cbn beta iota zeta.
  change (MkWorld (state (consumed wp)) (self_tester (consumed wp))
            (parser (consumed wp)) r (millis_source (consumed wp))
            (millis_calls (consumed wp)) (serial_rx (consumed wp))
            (pwm (consumed wp))) with wd.
  rewrite E5. unfold millis, mret, Eff_ret, ret. cbn beta iota.
  rewrite !app_nil_r. reflexivity.
Qed.

(** ** One request per iteration *)

(** X21: an iteration that finds a complete line at the head of the
    receive queue, with the array empty, takes that line and no more: the
    bytes behind the line feed are still queued when it returns, the parser
    is free again, the static request holds what the line parsed to, and
    the line is answered in this iteration: behind whatever [parse_into]
    printed (whole lines only) the dispatcher prints exactly one line,
    ended by its [println]. *)
Theorem X21_one_request_per_iteration (targets : list Target) (w : World)
    (l more : list ascii) :
  world_ok targets w ->
  collecting [] (l ++ LF :: more) w ->
  LF ∉ l -> NUL ∉ l ->
  Z.of_nat (length l) < 255 ->
  exists w' r out1 out2,
    loop w = Some (tt, w', out1 ++ out2) /\
    serial_rx w' = more /\
    RequestParser.available (parser w') = true /\
    bufferp_ (parser w') = 0 /\
    request w' = r /\
    RequestParser.parse_text (l ++ [LF]) (request w) w = Some ((true, r), w, out1) /\
    complete out1 = true /\
    complete out2 = true /\
    length (lines_of out2) = 1%nat /\
    lines_of (out1 ++ out2) = lines_of out1 ++ [out2].
Proof.
  intros Hw Hc Hlf Hnul Hfit.
  destruct (loop_line targets w l more Hw Hc Hlf Hnul Hfit)
    as (b & w1 & w2 & todo' & r & out1 & w5 & out2 & _ & _ & _ & Et & Hs1 & _
        & _ & Hs2 & Hlines & Hp5 & Hrx5 & Hr5 & Eloop).
  exists (clock_read w5), r, out1, out2.
  split; [exact Eloop|]. split; [exact Hrx5|].
  split; [simpl; rewrite Hp5; reflexivity|].
  split; [simpl; rewrite Hp5; reflexivity|].
  split; [exact Hr5|]. split; [exact Et|].
  destruct Hs1 as (Hc1 & _), Hs2 as (Hc2 & _).
  split; [exact Hc1|]. split; [exact Hc2|]. split; [exact Hlines|].
  rewrite lines_of_app by exact Hc1. f_equal.
  assert (Hone : forall o, complete o = true -> length (lines_of o) = 1%nat ->
                           lines_of o = [o]).
  { clear. induction o as [|e o IH]; intros Hco Hlen; [discriminate|].
    destruct o as [|e' o].
    - destruct e; [discriminate|reflexivity].
    - rewrite complete_cons in Hco by discriminate. specialize (IH Hco).
      destruct e as [v|v].
      + change (lines_of (Print v :: e' :: o))
          with (match lines_of (e' :: o) with
                | [] => [[Print v]]
                | l :: ls => (Print v :: l) :: ls
                end) in *.
        destruct (lines_of (e' :: o)) as [|l0 ls] eqn:El.
        * apply lines_of_nil in El. discriminate.
        * simpl in Hlen. specialize (IH Hlen).
          injection IH as -> ->. reflexivity.
      + change (lines_of (Println v :: e' :: o))
          with ([Println v] :: lines_of (e' :: o)) in Hlen.
        cbn [length] in Hlen.
        destruct (lines_of (e' :: o)) as [|l0 ls] eqn:El;
          [|simpl in Hlen; lia].
        apply lines_of_nil in El. discriminate El. }
  apply Hone; assumption.
Qed.

Lemma X21_one_request_per_iteration_witness :
  exists w' r out1 out2,
    loop two_lines_queued = Some (tt, w', out1 ++ out2) /\
    serial_rx w' = line "ID" /\
    RequestParser.available (parser w') = true /\
    bufferp_ (parser w') = 0 /\
    request w' = r /\
    RequestParser.parse_text (list_ascii_of_string "GET SERVO" ++ [LF])
      (request two_lines_queued) two_lines_queued
    = Some ((true, r), two_lines_queued, out1) /\
    complete out1 = true /\
    complete out2 = true /\
    length (lines_of out2) = 1%nat /\
    lines_of (out1 ++ out2) = lines_of out1 ++ [out2].
Proof.
  apply (X21_one_request_per_iteration self_tester_targets two_lines_queued
           (list_ascii_of_string "GET SERVO") (line "ID")).
  - split; [|split].
    + split; [reflexivity|]. split; [simpl; lia|]. discriminate.
    + split; [reflexivity|]. simpl. lia.
    + reflexivity.
  - exists (replicate 256 NUL). split; [reflexivity|]. split; reflexivity.
  - apply (bool_decide_unpack _). vm_compute. exact I.
  - apply (bool_decide_unpack _). vm_compute. exact I.
  - vm_compute. reflexivity.
Defined.

(** ** SET and the GET behind it *)

Lemma step_inactive (w : World) :
  active_ (self_tester w) = false -> SelfTester.step w = Some (false, w, []).
Proof.
  intros H. unfold SelfTester.step, mbind, Eff_bind, bind. simpl.
  rewrite H. reflexivity.
Qed.

(** [read] touches the sensor snapshot only. *)
Lemma read_frame (w w' : World) (out : list Event) :
  State.read w = Some (tt, w', out) ->
  (forall n, actuator_value n (state w') = actuator_value n (state w)) /\
  (forall n, driven_value n w' = driven_value n w) /\
  pwm w' = pwm w /\ self_tester w' = self_tester w.
Proof.
  intros E. unfold State.read, mbind, Eff_bind, bind in E. simpl in E.
  match type of E with context [if ?b then _ else _] => destruct b end;
    injection E as <- <-;
    (split; [intros n; destruct n; reflexivity|]);
    (split; [intros n; destruct n; reflexivity|]); split; reflexivity.
Qed.

(** An accepted SET of an actuator, in any world: the answer, the value
    stored, the four outputs that [write] drives again, and what is left
    alone. *)
Lemma set_actuator_dispatch (nn : Noun) (x : Z) (w : World) :
  is_actuator nn = true ->
  exists w',
    handle_request (SET_request nn x) w
    = Some (tt, w', OK_value (ClampedInt.clamped 0 (actuator_MAX nn) x)) /\
    actuator_value nn (state w') = ClampedInt.clamped 0 (actuator_MAX nn) x /\
    (forall n', is_actuator n' = true ->
       driven_value n' w' = Some (actuator_value n' (state w'))) /\
    (forall n', n' <> nn ->
       actuator_value n' (state w') = actuator_value n' (state w)) /\
    self_tester w' = self_tester w /\
    sensor (state w') = sensor (state w) /\
    handle_request (GET_request nn) w'
    = Some (tt, w', OK_value (ClampedInt.clamped 0 (actuator_MAX nn) x)).
Proof.
  intros Hact.
  assert (Hpins : forall (a b c : Z) (p : gmap Z Z),
            let p' := <[State.GREEN_PIN := c]>
                        (<[State.YELLOW_PIN := b]> (<[State.RED_PIN := a]> p)) in
            p' !! State.RED_PIN = Some a /\ p' !! State.YELLOW_PIN = Some b /\
            p' !! State.GREEN_PIN = Some c).
  { intros a b c p. simpl.
    unfold State.RED_PIN, State.YELLOW_PIN, State.GREEN_PIN, D3, D6, D7.
    split; [|split].
    - rewrite !lookup_insert_ne by discriminate. apply lookup_insert_eq.
    - rewrite lookup_insert_ne by discriminate. apply lookup_insert_eq.
    - apply lookup_insert_eq. }
  destruct nn; try discriminate;
    (eexists; split; [reflexivity|]); simpl;
    (split; [reflexivity|]);
    (split; [|split; [intros n' Hn'; destruct n'; try reflexivity; congruence
                     |split; [reflexivity|split; reflexivity]]]);
    intros n' Hn'; destruct n'; try discriminate; simpl;
    try reflexivity; apply Hpins.
Qed.

(** X3: an accepted SET of an actuator, in any world, answers with the
    clamped value and stores it; [write] then drives all four outputs
    again, so every driver holds the value stored for it, and the values
    stored for the other actuators, the sequencer and the sensor snapshot
    are left alone, and a GET dispatched in that world answers with the
    same value.  In the loop, with the sequencer inactive and a SET
    line and a GET line for the same actuator in the receive queue, the
    first iteration answers the SET and leaves the GET line queued, and
    the next iteration answers the GET with the same value and changes no
    stored value and no pin. *)
Theorem X3_set_then_get (targets : list Target) (w : World) (nn : Noun) (x : Z)
    (l1 l2 more : list ascii) :
  is_actuator nn = true ->
  world_ok targets w ->
  active_ (self_tester w) = false ->
  collecting [] (l1 ++ LF :: l2 ++ LF :: more) w ->
  LF ∉ l1 -> NUL ∉ l1 -> Z.of_nat (length l1) < 255 ->
  LF ∉ l2 -> NUL ∉ l2 -> Z.of_nat (length l2) < 255 ->
  RequestParser.parse_text (l1 ++ [LF]) (request w) w
  = Some ((true, SET_request nn x), w, []) ->
  RequestParser.parse_text (l2 ++ [LF]) (SET_request nn x) w
  = Some ((true, MkRequest STATUS_OK VERB_GET nn VALUE_EMPTY x), w, []) ->
  (forall w0 : World,
     exists w0',
       handle_request (SET_request nn x) w0
       = Some (tt, w0', OK_value (ClampedInt.clamped 0 (actuator_MAX nn) x)) /\
       actuator_value nn (state w0') = ClampedInt.clamped 0 (actuator_MAX nn) x /\
       (forall n', is_actuator n' = true ->
          driven_value n' w0' = Some (actuator_value n' (state w0'))) /\
       (forall n', n' <> nn ->
          actuator_value n' (state w0') = actuator_value n' (state w0)) /\
       self_tester w0' = self_tester w0 /\
       sensor (state w0') = sensor (state w0) /\
       handle_request (GET_request nn) w0'
       = Some (tt, w0', OK_value (ClampedInt.clamped 0 (actuator_MAX nn) x))) /\
  exists w1 w2,
    loop w = Some (tt, w1, OK_value (ClampedInt.clamped 0 (actuator_MAX nn) x)) /\
    actuator_value nn (state w1) = ClampedInt.clamped 0 (actuator_MAX nn) x /\
    (forall n', is_actuator n' = true ->
       driven_value n' w1 = Some (actuator_value n' (state w1))) /\
    (forall n', n' <> nn ->
       actuator_value n' (state w1) = actuator_value n' (state w)) /\
    serial_rx w1 = l2 ++ LF :: more /\
    loop w1 = Some (tt, w2, OK_value (ClampedInt.clamped 0 (actuator_MAX nn) x)) /\
    (forall n', actuator_value n' (state w2) = actuator_value n' (state w1)) /\
    (forall n', driven_value n' w2 = driven_value n' w1) /\
    pwm w2 = pwm w1 /\
    serial_rx w2 = more.
Proof.
  intros Hact Hw Hoff Hc Hlf1 Hnul1 Hfit1 Hlf2 Hnul2 Hfit2 Hset Hget.
  split; [intros w0; apply set_actuator_dispatch, Hact|].
  (* the iteration that answers the SET *)
  destruct (loop_line targets w l1 (l2 ++ LF :: more) Hw Hc Hlf1 Hnul1 Hfit1)
    as (b & wa & wb & todo1 & r & out1 & w5 & out2 & E1 & E2 & Hlen1 & Et & _
        & E5 & Hw5 & _ & _ & Hp5 & Hrx5 & Hr5 & Eloop).
  rewrite step_inactive in E1 by exact Hoff. injection E1 as <- <-.
  rewrite Hset in Et. injection Et as <- <-.
  destruct (read_frame _ _ _ E2) as (Hval2 & Hdrv2 & Hpwm2 & Htest2).
  match type of E5 with handle_request _ ?wd = _ =>
    destruct (set_actuator_dispatch nn x wd Hact)
      as (w' & E' & Hv & Hmirror & Hothers & Htest & _ & _)
  end.
  rewrite E' in E5. injection E5 as <- <-.
  (* the iteration that answers the GET *)
  assert (Hw1 : world_ok targets (clock_read w')).
  { revert Hw5. apply world_ok_fields; reflexivity. }
  assert (Hc1 : collecting [] (l2 ++ LF :: more) (clock_read w')).
  { exists (l1 ++ LF :: NUL :: todo1). simpl.
    split; [exact Hp5|]. split; [exact Hlen1|exact Hrx5]. }
  assert (Hoff1 : active_ (self_tester (clock_read (clock_read w'))) = false).
  { simpl. rewrite Htest. simpl. rewrite Htest2. exact Hoff. }
  destruct (loop_line targets (clock_read w') l2 more Hw1 Hc1 Hlf2 Hnul2 Hfit2)
    as (b' & wa' & wb' & todo2 & r' & out1' & w5' & out2' & E1' & E2' & _ & Et'
        & _ & E5' & _ & _ & _ & _ & Hrx5' & _ & Eloop').
  rewrite step_inactive in E1' by exact Hoff1. injection E1' as <- <-.
  destruct (parse_text_world _ _ _ (clock_read w') _ _ _ Hget) as [_ Hget'].
  change (request (clock_read w')) with (request w') in Et'.
  rewrite Hr5, Hget' in Et'. injection Et' as <- <-.
  destruct (read_frame _ _ _ E2') as (Hval2' & Hdrv2' & Hpwm2' & _).
  rewrite handle_get_actuator in E5' by exact Hact.
  injection E5' as <- <-.
  exists (clock_read w'), (clock_read
    (dispatch_world wb' (MkRequestParser (l2 ++ LF :: NUL :: todo2) 0 false)
       (MkRequest STATUS_OK VERB_GET nn VALUE_EMPTY x) more)).
  split; [exact Eloop|]. split; [exact Hv|]. split; [exact Hmirror|].
  split.
  { intros n' Hn'. simpl. rewrite (Hothers n' Hn'). simpl. apply Hval2. }
  split; [exact Hrx5|]. split.
  { rewrite Eloop'. simpl. rewrite Hval2'. simpl. rewrite Hv. reflexivity. }
  split; [intros n'; simpl; apply Hval2'|].
  split.
  { intros n'. specialize (Hdrv2' n'). destruct n'; simpl in *; exact Hdrv2'. }
  split; [simpl; exact Hpwm2'|reflexivity].
Qed.

Lemma X3_set_then_get_witness :
  (forall w0 : World,
     exists w0',
       handle_request (SET_request NOUN_SERVO 200) w0
       = Some (tt, w0', OK_value 180) /\
       actuator_value NOUN_SERVO (state w0') = 180 /\
       (forall n', is_actuator n' = true ->
          driven_value n' w0' = Some (actuator_value n' (state w0'))) /\
       (forall n', n' <> NOUN_SERVO ->
          actuator_value n' (state w0') = actuator_value n' (state w0)) /\
       self_tester w0' = self_tester w0 /\
       sensor (state w0') = sensor (state w0) /\
       handle_request (GET_request NOUN_SERVO) w0'
       = Some (tt, w0', OK_value 180)) /\
  exists w1 w2,
    loop set_get_queued = Some (tt, w1, OK_value 180) /\
    actuator_value NOUN_SERVO (state w1) = 180 /\
    (forall n', is_actuator n' = true ->
       driven_value n' w1 = Some (actuator_value n' (state w1))) /\
    (forall n', n' <> NOUN_SERVO ->
       actuator_value n' (state w1) = actuator_value n' (state set_get_queued)) /\
    serial_rx w1 = list_ascii_of_string "GET SERVO" ++ LF :: [] /\
    loop w1 = Some (tt, w2, OK_value 180) /\
    (forall n', actuator_value n' (state w2) = actuator_value n' (state w1)) /\
    (forall n', driven_value n' w2 = driven_value n' w1) /\
    pwm w2 = pwm w1 /\
    serial_rx w2 = [].
Proof.
  apply (X3_set_then_get self_tester_targets set_get_queued NOUN_SERVO 200
           (list_ascii_of_string "SET SERVO 200")
           (list_ascii_of_string "GET SERVO") []).
  - reflexivity.
  - split; [|split].
    + split; [reflexivity|]. split; [simpl; lia|]. discriminate.
    + split; [reflexivity|]. simpl. lia.
    + reflexivity.
  - reflexivity.
  - exists (replicate 256 NUL). split; [reflexivity|]. split; reflexivity.
  - apply (bool_decide_unpack _). vm_compute. exact I.
  - apply (bool_decide_unpack _). vm_compute. exact I.
  - vm_compute. reflexivity.
  - apply (bool_decide_unpack _). vm_compute. exact I.
  - apply (bool_decide_unpack _). vm_compute. exact I.
  - vm_compute. reflexivity.
  - vm_compute. reflexivity.
  - vm_compute. reflexivity.
Defined.
